(* ===== verification/_CoqProject ===== *)
-Q . S2P
Spec2Rocq.v
JsValue.v
JsRuntime.v
DateTime.v
Json.v
Chat.v
MessageStore.v
Transport.v
Connection.v
App.v
Lifecycle.v
MessageLog.v
View.v
Timestamps.v
Docs.v
Props.v
Wire.v
