(* ===== verification/Spec2Rocq.v ===== *)
(** * A verified model of whisper-stream-client

    The repository is a browser client (React, TypeScript) for a
    WebSocket chat endpoint.  Its behaviour lives in one hook,
    [src/src/hooks/useWebSocket.ts]; [src/src/types/chat.ts] declares the
    data it manipulates, and three components under
    [src/src/components/] wire the hook to the screen.

    ** The program's parts and how they interact

    - [types/chat.ts]: the records [Message], [ConnectionConfig] and
      [ChatState].
    - [hooks/useWebSocket.ts]: the connection manager.  It owns a React
      state cell ([ChatState]), two refs ([websocketRef], [configRef]) and
      returns three actions ([connect], [disconnect], [sendMessage]).
      [connect] creates a browser [WebSocket] and installs four callbacks
      ([onopen], [onmessage], [onerror], [onclose]) that close over the
      [config] argument and over that one socket.  The callbacks run later,
      when the browser delivers the socket's events, and update the shared
      state cell with functional [setState] updates.
    - [components/ConnectionPanel.tsx]: the form; its [handleConnect]
      refuses a config with an empty field, [getStatusBadge] renders the
      connection flags.
    - [components/ChatInterface.tsx]: the message list and input; its
      [handleSendMessage] trims the input and calls the send action.
    - [components/ChatTester.tsx]: the page; it passes the hook's state and
      actions to the two components above.

    ** Files of the development, in dependency order

    - [Spec2Rocq] (this file): the shared prelude.  A state and exception
      monad [JsM.M] with its notation scope [jsm_scope], which models
      JavaScript statements that update state and may throw; its laws; the
      hint databases [jsm] (rewriting) and [wsc] (resolution); generic
      lemmas on lists updated by index and on strings.
    - [JsValue]: the JavaScript values the hook handles after
      [JSON.parse] ([jsv]), the exceptions it can meet ([exn]), and the
      language operations it uses: truthiness and [||], [===] against a
      string, property access (which throws on [null] and [undefined]),
      [Array.isArray] and [Array.prototype.map] with a throwing callback.
    - [JsRuntime]: the runtime library functions the hook calls:
      [Date.now().toString()], [Date.prototype.toISOString],
      [encodeURIComponent] (with its inverse, for the round trip of the
      connection URL) and [String.prototype.trim].
    - [DateTime]: the [Date] library the timestamps go through, from
      ECMA-262: [MakeDay], [MakeTime], [TimeClip], the Date Time String
      Format and [Date.parse], the [Date] constructor on the values a
      frame may hold, and [toLocaleTimeString].  What the specification
      leaves to the host (time zone, other date formats, the locale's
      text) is the class [DateEnv]; [UtcHost] is one instance.
    - [Json]: [JSON.stringify] for the frames the client writes and
      [JSON.parse] (a recursive-descent parser with fuel) for the frames
      it reads.
    - [Chat]: the records of [types/chat.ts].
    - [MessageStore]: the frame reduction of [ws.onmessage] (lines 59-95 of
      useWebSocket.ts): normalisation of a message-like object, the
      [message] append, the [recent_messages] replacement, and the silent
      drop of malformed frames.
    - [Transport]: the interface the hook expects from the browser's
      [WebSocket] ([Class WebSocketApi] with its laws, readyState
      CONNECTING/OPEN/CLOSING/CLOSED), and the browser model that
      implements it (a list of sockets indexed by handle).
    - [Connection]: the hook itself.  The world is the React state, the two
      refs, the socket store, the toasts shown, and the clock.  Every
      function of the hook is a definition in the monad, composed as the
      source composes it; browser events and user actions are the labels
      of a step relation, and [reachable] is its closure from the initial
      world.  Its theorems are proved against [WebSocketApi]'s laws: the
      invariant [hook_inv] of reachable worlds (Sections [Invariant],
      [Preservation], [Events]), where the configs come from (Section
      [Provenance]), and the behaviour of each function (Sections [Runs],
      [Theorems], [Lifecycle]).  Module [Runs] replays concrete scenarios
      in the browser model.
    - [App]: the components' glue: the guards of [handleConnect],
      [handleSendMessage] and [handleKeyPress], the badge, the enabled
      conditions of the buttons, and the wiring of [ChatTester], composed
      with the hook into the step relation of the whole page ([page_step]
      over user actions and browser events, [page_reachable]).
    - [Lifecycle]: the connection state machine of the specification
      (phases Idle, Connecting, Connected, Error and the labelled moves
      connect, open, close, none, Module [ConnSpec]), the abstraction
      [phase] of the hook's flags, the discipline under which the machine
      describes the page ([dreach]: the page's guards are respected and
      events come from the latest socket), and the invariant [life_inv]
      that relates the flags to that socket's readyState.
    - [View]: what the page renders: [panel_view] (ConnectionPanel.tsx),
      [chat_view] and [bubble] (ChatInterface.tsx) and [page_view]
      (ChatTester.tsx), as records of what the user sees and can use.
    - [Timestamps]: [formatTimestamp] (ChatInterface.tsx lines 43-52)
      and the time text of a bubble, over [DateTime].
    - [Docs]: the wire examples of ChatTester's documentation section
      (lines 61-100), checked against the hook.
    - [MessageLog]: the message log over runs of the page ([page_run]):
      the change one step makes to the log ([log_change]) and the order in
      which a run appends messages ([appended_by]).
    - [Props]: the components as their sources write them, against their
      props interfaces ([ConnectionPanelProps], [ChatInterfaceProps], as
      records of values and callbacks), and [ChatTester] as the wiring of
      those props to the hook; the wiring lemmas show that [App]'s
      [handleConnect] and [handleSendMessage] and [View]'s [page_view],
      which have the props substituted, are the components applied to
      [ChatTester]'s props.
    - [Wire]: a chat message from Send to the bubble of its echo: the
      frame [sendMessage] writes, read back by [ws.onmessage] when the
      server relays it, and drawn by the chat panel.

    ** What the theorems show

    The claims are numbered C1..C39 in the doc comments of their theorems;
    each theorem with a hypothesis has a witness lemma applying it at a
    concrete input ([Connection.RunWitnesses],
    [MessageStore.FrameWitnesses], [App.PageWitnesses],
    [Lifecycle.LifeWitnesses], [View.ViewRuns],
    [Timestamps.TimestampRuns], [MessageLog.MessageLogRuns],
    [Wire.EchoRuns]).

    - Connection invariants ([Connection], Section [Theorems]): in every
      world reachable from a browser holding no socket, the first frame
      written on any socket is the [get_recent_messages] request of the
      config its callbacks captured (C1), and [websocketRef] names a live
      socket with callbacks while [configRef] holds a config (C2).  Both
      rest on the invariant record [hook_inv], proved for every step by
      rule induction on [reachable].
    - Hook functions on every branch: [sendMessage] on an OPEN socket
      writes one frame signed with [configRef]'s user id (C3) and
      otherwise only shows "Not Connected" (C4); no action or event lets
      an exception escape the hook (C5); [onopen] (C6); [onclose] with an
      abnormal code (C7) and with code 1000 (C8); [connect] over an OPEN
      socket closes it before the new socket exists (C9) and catches a
      URL the constructor rejects (C10); the unmount cleanup closes the
      current socket (C11).
    - The specification's state machine ([Lifecycle]): every step of a
      page reached under the discipline is a move of the abstract machine
      labelled by its action, between the phases of the flags before and
      after (C12, a refinement); the flags are then exclusive (C13); from
      Idle or Error, with a filled form and an accepted URL, Connect and
      the open event reach Connected (C14, liveness).
    - Frame reduction ([MessageStore]): a [message] frame appends one
      message (C15); a [recent_messages] frame replaces the log by one
      message per element (C16), and is dropped whole when an element is
      [null] (C17); the flags and the error are never touched (C18).
    - The log over a run ([MessageLog]): along any run of the page with no
      new Connect and no [recent_messages] frame, the earlier log stays a
      prefix, and what the run appends is, in arrival order, the messages
      built by some of its [message] frames, each at the end when its
      frame arrives (C19, by induction on the run from the per-step lemma
      [page_log_step]).
    - The wire ([Connection], [Wire]): the frame [sendMessage] writes is
      the specification's outgoing envelope, keys in order, with an ISO
      timestamp [Date.parse] reads back as the send time (C20); the token
      and user id are read back from the connection URL (C21); a sent
      frame relayed back by the server is appended with the fields sent
      and its bubble shows the send time (C22).
    - The page ([App], [View], [Timestamps], [Wire]): every config the
      hook ever holds has four non-empty fields (C23); Send writes a
      frame addressed to the literal ["recipient-id"] (C24); Enter
      without Shift is the Send button and every other key, Shift+Enter
      included, does nothing (C25); the panel shows the phase of the
      specification's machine (C26); a message without timestamp is
      shown at its receipt time (C27); [formatTimestamp]'s [catch] is
      reached only by objects with an own [toString] (C28); the echo of
      the user's own message is drawn as theirs only when their user id
      is the literal ["your-user-id"] (C29).
    - Findings, proved as theorems: the "Configuration Missing" branch of
      [sendMessage] is dead (C30); both flags can be true at once when the
      hook is driven outside the page's guards (C31); a send still writes
      while [isConnected] is false (C32); a [connect] while a socket is
      CONNECTING leaks it past the unmount cleanup (C33); a replaced
      socket's close event clobbers the new connection's flags (C34) and
      its messages feed the new session (C35); after a rejected URL,
      frames on the old socket carry the new config's user id (C36); two
      bubbles can share a React key (C37) because ids synthesised in the
      same millisecond collide (C38); the types of inbound fields are
      never checked (C39).
    - Lemmas about the platform models, which hold whatever the client
      does and are used by the claims above: [DateTime.iso_roundtrip]
      ([Date.parse] reads [toISOString]'s text back),
      [DateTime.to_iso_string_length], [DateTime.make_day_ecma] (the
      day count against ECMA-262), [Json.parse_never_out_of_fuel],
      [Connection.chat_frame_roundtrip].  Other lemmas kept beside the
      claims: [App.page_reachable_hook] (the page drives the hook only
      through its actions), [View.page_step_matches_view] (an action is
      possible exactly when its control is shown enabled),
      [Docs.documented_incoming_accepted] and
      [Docs.documented_outgoing_unreachable] (the documentation's
      examples against the code), and the wiring lemmas of [Props].

    ** Bounds of the model

    - Strings are Rocq [string]s, sequences of 8-bit characters: the model
      covers text whose UTF-16 code units are below 256.  A [\u] escape
      above [00FF] in an inbound frame is outside the model (the parser
      rejects it where JavaScript would accept it).
    - JSON numbers are kept exactly as [m * 10^e] ([Z] mantissa and
      exponent); only their truthiness is observed by the code, and that is
      exact except for magnitudes a double rounds to zero.
    - Fuel: [JSON.parse] runs with fuel [3 * length input + 3].  Each call
      of the parser either consumes a character or descends one level
      ([parse_value] to [parse_array] to [parse_items]), so three units per
      character suffice; [Json.parse_enough_fuel] proves it and
      [Json.parse_never_out_of_fuel] concludes that the fuel never
      runs out, so [OutOfFuel] is never reported as a [SyntaxError].
    - The URL's query string is read by [JsRuntime.query_param], whose
      fuel is one more than the length of the query: each round reads one
      [&]-separated parameter.
    - React: [setState] with a function is modelled as applying the
      function at once, and as doing nothing once the component is
      unmounted; since every update in the hook is functional, the batched
      application React performs gives the same state.
    - The browser: [WebSocketLaws] gives the laws of the WebSocket
      standard the hook relies on, and the theorems of [Connection] hold
      for any store of sockets that obeys them; [Transport.Browser] is one
      such store, used by the concrete runs.  The environment may deliver
      any event the standard allows, in any order, for any socket.
    - Rendering is modelled as the content and enabled state of what is
      shown ([View]); styling, icons, layout and the static documentation
      text are not.
    - Dates: a time value is an integer of magnitude at most 8.64e15
      ([TimeClip]); a JSON number given to [new Date] is kept exact, so
      a non-integral value within one unit of that bound may clip
      differently from a double.  The local time zone, the host's other
      date formats, the digits of non-integral numbers and the locale's
      hour-and-minute text are parameters ([DateEnv]); every theorem
      holds for all of them.
    - The clock: [Date.now()] reads the world's [clock], which advances
      only between events, so every reading within one handler run gives
      the same value.  In a browser two readings in one synchronous run
      may differ by the milliseconds the run takes; the only place where
      the code reads the clock more than once is the per-element
      [Date.now()] of a [recent_messages] frame (lines 79-83), whose ids
      and timestamps the model synthesises from one receipt time.
    - The clock is an unbounded integer; [toISOString]'s RangeError for a
      time value beyond 8.64e15 (line 174) is not modelled, since
      [Date.now()] in a browser never returns one.  The theorems that read
      a timestamp back assume the bound.
    - The platform's functions ([JSON], [Date], [encodeURIComponent],
      [trim], [WebSocket]) are modelled from ECMA-262 and the WebSocket
      standard, not from the repository, so they have no row in the
      manifest's map.
    - Not modelled: auto-scrolling ([scrollIntoView] on a DOM ref, which
      changes no state the model keeps), the toast component's display (a
      toast is recorded as its title, description and variant),
      [console.error], the prose of the documentation section, and the
      network behind the socket. *)

From Stdlib Require Import String List Bool ZArith Lia Ascii.
Import ListNotations.

(** ** A state and exception monad *)

Declare Scope jsm_scope.
Delimit Scope jsm_scope with jsm.

Module JsM.
Section Monad.
Context {E S : Type}.

(** A JavaScript statement run on state [S]: it either completes with a
    value or throws an [E]; state changes made before a throw persist. *)
Definition M (A : Type) : Type := S -> ((E + A) * S)%type.

Definition ret {A} (a : A) : M A := fun s => (inr a, s).

Definition bind {A B} (m : M A) (k : A -> M B) : M B :=
  fun s => match m s with
           | (inl e, s') => (inl e, s')
           | (inr a, s') => k a s'
           end.

Definition throw {A} (e : E) : M A := fun s => (inl e, s).

(** [try { m } catch (e) { h(e) }] *)
Definition catch {A} (m : M A) (h : E -> M A) : M A :=
  fun s => match m s with
           | (inl e, s') => h e s'
           | r => r
           end.

Definition gets {A} (f : S -> A) : M A := fun s => (inr (f s), s).

Definition modify (f : S -> S) : M unit := fun s => (inr tt, f s).

(** Lift a pure computation that may throw. *)
Definition lift {A} (r : E + A) : M A := fun s => (r, s).

(** Run a statement and keep the final state, whether it threw or not. *)
Definition exec {A} (m : M A) (s : S) : S := snd (m s).
End Monad.
Arguments M : clear implicits.
End JsM.

Notation "x <- m ;; k" := (JsM.bind m (fun x => k))
  (at level 61, m at next level, right associativity) : jsm_scope.
Notation "m ;; k" := (JsM.bind m (fun _ => k))
  (at level 61, right associativity) : jsm_scope.

(** A pure computation that may throw: [inl e] is the exception. *)
Definition sbind {E A B} (r : E + A) (k : A -> E + B) : E + B :=
  match r with
  | inl e => inl e
  | inr a => k a
  end.

Notation "x <-? r ;; k" := (sbind r (fun x => k))
  (at level 61, r at next level, right associativity) : jsm_scope.

Open Scope jsm_scope.

Lemma sbind_inr {E A B} (a : A) (k : A -> E + B) : sbind (inr a) k = k a.
Proof. reflexivity. Qed.

Lemma sbind_inl {E A B} (e : E) (k : A -> E + B) : sbind (inl e) k = inl e.
Proof. reflexivity. Qed.

Lemma sbind_inr_inv {E A B} (r : E + A) (k : A -> E + B) b :
  sbind r k = inr b -> exists a, r = inr a /\ k a = inr b.
Proof. destruct r as [e|a]; simpl; [discriminate|eauto]. Qed.

Section MonadLaws.
Context {E S : Type}.

Lemma bind_ret_l {A B} (a : A) (k : A -> JsM.M E S B) :
  JsM.bind (JsM.ret a) k = k a.
Proof. reflexivity. Qed.

Lemma bind_ret_r {A} (m : JsM.M E S A) s : JsM.bind m JsM.ret s = m s.
Proof. unfold JsM.bind. destruct (m s) as [[e|a] s']; reflexivity. Qed.

Lemma bind_assoc {A B C} (m : JsM.M E S A) (f : A -> JsM.M E S B)
      (g : B -> JsM.M E S C) s :
  JsM.bind (JsM.bind m f) g s = JsM.bind m (fun a => JsM.bind (f a) g) s.
Proof. unfold JsM.bind. destruct (m s) as [[e|a] s']; reflexivity. Qed.

Lemma bind_throw {A B} (e : E) (k : A -> JsM.M E S B) :
  JsM.bind (JsM.throw e) k = JsM.throw e.
Proof. reflexivity. Qed.

Lemma catch_ret {A} (a : A) (h : E -> JsM.M E S A) :
  JsM.catch (JsM.ret a) h = JsM.ret a.
Proof. reflexivity. Qed.

Lemma catch_throw {A} (e : E) (h : E -> JsM.M E S A) :
  JsM.catch (JsM.throw e) h = h e.
Proof. reflexivity. Qed.

(** Running a bind whose first statement completes. *)
Lemma run_bind_ok {A B} (m : JsM.M E S A) (k : A -> JsM.M E S B) s a s' :
  m s = (inr a, s') -> JsM.bind m k s = k a s'.
Proof. intros H. unfold JsM.bind. now rewrite H. Qed.

(** Running a bind whose first statement throws. *)
Lemma run_bind_err {A B} (m : JsM.M E S A) (k : A -> JsM.M E S B) s e s' :
  m s = (inl e, s') -> JsM.bind m k s = (inl e, s').
Proof. intros H. unfold JsM.bind. now rewrite H. Qed.
End MonadLaws.

Create Rewrite HintDb jsm.
#[export] Hint Rewrite @bind_ret_l @bind_throw @catch_ret @catch_throw
  @sbind_inr @sbind_inl : jsm.

Create HintDb wsc discriminated.

(** Unfold the monad's plumbing of a goal down to its branches. *)
Ltac jsm_unfold :=
  unfold JsM.bind, JsM.ret, JsM.throw, JsM.catch, JsM.gets, JsM.modify,
    JsM.lift, JsM.exec in *.

(** ** Lists updated by index *)

Section ListUpdate.
Context {A : Type}.

(** [l[n] = f(l[n])]; out of range nothing changes. *)
Fixpoint update_nth (n : nat) (f : A -> A) (l : list A) : list A :=
  match l, n with
  | [], _ => []
  | x :: l', O => f x :: l'
  | x :: l', S n' => x :: update_nth n' f l'
  end.

Lemma length_update_nth n f l : length (update_nth n f l) = length l.
Proof. revert n; induction l as [|x l IH]; intros [|n]; simpl; auto. Qed.

Lemma nth_error_update_nth_eq n f l :
  nth_error (update_nth n f l) n = option_map f (nth_error l n).
Proof. revert n; induction l as [|x l IH]; intros [|n]; simpl; auto. Qed.

Lemma nth_error_update_nth_ne n m f l :
  n <> m -> nth_error (update_nth n f l) m = nth_error l m.
Proof.
  revert n m; induction l as [|x l IH]; intros [|n] [|m] Hne; simpl; auto.
  - congruence.
Qed.

Lemma update_nth_app_lt n f l1 l2 :
  n < length l1 -> update_nth n f (l1 ++ l2) = update_nth n f l1 ++ l2.
Proof.
  revert n; induction l1 as [|x l1 IH]; intros [|n] Hn; simpl in *; try lia;
    auto.
  f_equal. apply IH. lia.
Qed.

Lemma nth_error_app_last l (x : A) :
  nth_error (l ++ [x]) (length l) = Some x.
Proof. induction l; simpl; auto. Qed.

Lemma nth_error_app_lt l (x : A) n :
  n < length l -> nth_error (l ++ [x]) n = nth_error l n.
Proof. intros H. apply nth_error_app1. exact H. Qed.
End ListUpdate.

#[export] Hint Rewrite @length_update_nth @nth_error_update_nth_eq
  @nth_error_app_last : jsm.

(** ** Strings *)

Lemma string_eqb_refl (s : string) : String.eqb s s = true.
Proof. apply String.eqb_refl. Qed.

Lemma string_eqb_neq (s t : string) : s <> t -> String.eqb s t = false.
Proof. intros H. destruct (String.eqb_spec s t); congruence. Qed.

#[export] Hint Rewrite string_eqb_refl : jsm.

(** A string is non-empty. *)
Definition nonempty (s : string) : Prop := s <> EmptyString.

Lemma nonempty_append_l s t : nonempty s -> nonempty (s ++ t).
Proof. unfold nonempty. destruct s; simpl; congruence. Qed.

Lemma nonempty_append_r s t : nonempty t -> nonempty (s ++ t).
Proof. unfold nonempty. destruct s; simpl; congruence. Qed.

#[export] Hint Resolve nonempty_append_l nonempty_append_r : wsc.

Lemma string_length_app (s t : string) :
  String.length (s ++ t) = (String.length s + String.length t)%nat.
Proof. induction s as [|c s IH]; simpl; [reflexivity|now rewrite IH]. Qed.

(** String literals with double quotes in them, as test inputs: [q s] is
    [s] with every apostrophe turned into a double quote, so that
    [q "{'a':1}"] is the JSON text [{"a":1}]. *)
Definition q (s : string) : string :=
  string_of_list_ascii
    (map (fun c => if Ascii.eqb c "'"%char then "034"%char else c) (list_ascii_of_string s)).
