(* ===== verification/JsValue.v ===== *)
(** JavaScript values and the language operations of the hook.

    [jsv] is the value a frame becomes after [JSON.parse], extended with
    [undefined] (what reading an absent property returns).  The operations
    are those [useWebSocket.ts] applies to such values: [ToBoolean] and the
    [||] operator (lines 65-70, 79-84), [===] against a string literal
    (lines 63, 77), property access (which throws a [TypeError] on [null]
    and [undefined]), [Array.isArray] (line 77) and
    [Array.prototype.map] with a callback that may throw (line 78). *)

From Stdlib Require Import String List Bool ZArith Lia Ascii.
From S2P Require Import Spec2Rocq.
Import ListNotations.

(** The exceptions the modelled code can meet. *)
Inductive exn : Type :=
| SyntaxError          (** [JSON.parse] on bad text, [new WebSocket] on a bad URL *)
| TypeError            (** property access on [null] or [undefined] *)
| InvalidStateError.   (** [WebSocket.send] while CONNECTING *)

(** A number is kept exactly as [m * 10^e]. *)
Inductive jsv : Type :=
| JUndefined
| JNull
| JBool (b : bool)
| JNum (m e : Z)
| JStr (s : string)
| JArr (items : list jsv)
| JObj (props : list (string * jsv)).

(** The induction principle Rocq derives for [jsv] forgets the values
    inside arrays and objects; this one keeps them. *)
Section JsvInd.
Variable P : jsv -> Prop.
Hypothesis HUndefined : P JUndefined.
Hypothesis HNull : P JNull.
Hypothesis HBool : forall b, P (JBool b).
Hypothesis HNum : forall m e, P (JNum m e).
Hypothesis HStr : forall s, P (JStr s).
Hypothesis HArr : forall l, Forall P l -> P (JArr l).
Hypothesis HObj : forall ps, Forall (fun kv => P (snd kv)) ps -> P (JObj ps).

Fixpoint jsv_ind' (v : jsv) : P v :=
  match v with
  | JUndefined => HUndefined
  | JNull => HNull
  | JBool b => HBool b
  | JNum m e => HNum m e
  | JStr s => HStr s
  | JArr l =>
      HArr l ((fix go (l : list jsv) : Forall P l :=
                 match l with
                 | [] => Forall_nil _
                 | x :: xs => Forall_cons _ (jsv_ind' x) (go xs)
                 end) l)
  | JObj ps =>
      HObj ps ((fix go (ps : list (string * jsv))
                  : Forall (fun kv => P (snd kv)) ps :=
                  match ps with
                  | [] => Forall_nil _
                  | kv :: rest => Forall_cons _ (jsv_ind' (snd kv)) (go rest)
                  end) ps)
  end.
End JsvInd.

(** ** Operations of the language *)

(** [ToBoolean]: [undefined], [null], [false], [0], [""] are falsy. *)
Definition truthy (v : jsv) : bool :=
  match v with
  | JUndefined | JNull => false
  | JBool b => b
  | JNum m _ => negb (Z.eqb m 0)
  | JStr s => negb (String.eqb s EmptyString)
  | JArr _ | JObj _ => true
  end.

(** [a || b]: the left operand when it is truthy, the right one otherwise. *)
Definition js_or (a b : jsv) : jsv := if truthy a then a else b.

(** [v === "lit"] *)
Definition strict_eq_str (v : jsv) (lit : string) : bool :=
  match v with
  | JStr s => String.eqb s lit
  | _ => false
  end.

(** [Array.isArray(v)] *)
Definition is_array (v : jsv) : bool :=
  match v with JArr _ => true | _ => false end.

(** The own property [k] of an object, [undefined] when absent. *)
Fixpoint prop_lookup (k : string) (ps : list (string * jsv)) : jsv :=
  match ps with
  | [] => JUndefined
  | (k', v) :: rest => if String.eqb k k' then v else prop_lookup k rest
  end.

(** [v.k]: a [TypeError] on [null] and [undefined]; the own property of an
    object; the [length] of an array or string.  The names the hook reads
    ([type], [id], [content], [fromId], [toId], [timestamp], [delivered],
    [messages]) are not properties of any built-in prototype, so on other
    values they read [undefined]. *)
Definition get (v : jsv) (k : string) : exn + jsv :=
  match v with
  | JUndefined | JNull => inl TypeError
  | JObj ps => inr (prop_lookup k ps)
  | JArr l =>
      inr (if String.eqb k "length" then JNum (Z.of_nat (length l)) 0
           else JUndefined)
  | JStr s =>
      inr (if String.eqb k "length" then JNum (Z.of_nat (String.length s)) 0
           else JUndefined)
  | JBool _ | JNum _ _ => inr JUndefined
  end.

(** [l.map(f)] for a callback that may throw: the first exception, in
    index order, ends the call. *)
Fixpoint map_exc {A} (f : jsv -> exn + A) (l : list jsv) : exn + list A :=
  match l with
  | [] => inr []
  | x :: xs =>
      match f x with
      | inl e => inl e
      | inr y => match map_exc f xs with
                 | inl e => inl e
                 | inr ys => inr (y :: ys)
                 end
      end
  end.

(** ** Their laws *)

Lemma truthy_js_or_l a b : truthy a = true -> js_or a b = a.
Proof. unfold js_or. now intros ->. Qed.

Lemma falsy_js_or_r a b : truthy a = false -> js_or a b = b.
Proof. unfold js_or. now intros ->. Qed.

Lemma js_or_undefined b : js_or JUndefined b = b.
Proof. reflexivity. Qed.

#[export] Hint Rewrite js_or_undefined : jsm.

(** A string is truthy exactly when it is non-empty. *)
Lemma truthy_str s : truthy (JStr s) = true <-> nonempty s.
Proof.
  unfold nonempty; simpl. destruct (String.eqb_spec s EmptyString); simpl;
    split; congruence.
Qed.

(** [||] returns one of its operands. *)
Lemma js_or_cases a b : js_or a b = a \/ js_or a b = b.
Proof. unfold js_or. destruct (truthy a); auto. Qed.

(** A truthy default makes [||] truthy. *)
Lemma js_or_truthy a b : truthy b = true -> truthy (js_or a b) = true.
Proof. unfold js_or. destruct (truthy a) eqn:E; auto. Qed.

Lemma strict_eq_str_iff v lit : strict_eq_str v lit = true <-> v = JStr lit.
Proof.
  destruct v; simpl; split; intros H; try discriminate.
  - apply String.eqb_eq in H. now subst.
  - injection H as ->. apply String.eqb_refl.
Qed.

(** Property access on an object never throws. *)
Lemma get_obj ps k : get (JObj ps) k = inr (prop_lookup k ps).
Proof. reflexivity. Qed.

Lemma get_nullish v k : v = JUndefined \/ v = JNull -> get v k = inl TypeError.
Proof. intros [-> | ->]; reflexivity. Qed.

#[export] Hint Rewrite get_obj : jsm.

(** [map] succeeds exactly when the callback succeeds on every element,
    and then keeps the length. *)
Lemma map_exc_length {A} (f : jsv -> exn + A) l l' :
  map_exc f l = inr l' -> length l' = length l.
Proof.
  revert l'; induction l as [|x xs IH]; simpl; intros l' H.
  - now injection H as <-.
  - destruct (f x) as [e|y]; [discriminate|].
    destruct (map_exc f xs) as [e|ys] eqn:E; [discriminate|].
    injection H as <-. simpl. f_equal. now apply IH.
Qed.

Lemma map_exc_ok {A} (f : jsv -> exn + A) (g : jsv -> A) l :
  (forall x, In x l -> f x = inr (g x)) -> map_exc f l = inr (map g l).
Proof.
  induction l as [|x xs IH]; simpl; intros Hf; auto.
  rewrite (Hf x (or_introl eq_refl)), IH; auto.
Qed.

Lemma map_exc_err {A} (f : jsv -> exn + A) l x e :
  In x l -> f x = inl e -> exists e', map_exc f l = inl e'.
Proof.
  induction l as [|y ys IH]; simpl; [contradiction|]. intros [<- | Hin] Hx.
  - rewrite Hx. eauto.
  - destruct (f y); eauto. destruct (IH Hin Hx) as [e' ->]. eauto.
Qed.

#[export] Hint Resolve map_exc_length : wsc.
