(* ===== verification/JsRuntime.v ===== *)
(** The runtime library functions the code calls.

    These are not code of the repository: they are the browser's
    [Number.prototype.toString] on the integer [Date.now()] (line 65 and 79
    of useWebSocket.ts), [Date.prototype.toISOString] (lines 69, 83, 174),
    [encodeURIComponent] (line 34) and [String.prototype.trim]
    (ChatInterface.tsx, lines 29, 31, 115), written from the ECMAScript
    specification over the model's 8-bit strings.  The inverse of
    [encodeURIComponent] and the query-string reader stand for what the
    server does with the connection URL (spec, section 6). *)

From Stdlib Require Import String List Bool ZArith Lia Ascii.
From Stdlib Require Import DecimalString DecimalZ.
From S2P Require Import Spec2Rocq.
Import ListNotations.
Open Scope Z_scope.

(** ** [Date.now().toString()] *)

(** The decimal text of an integer, as [Number.prototype.toString] prints
    it for magnitudes below 10^21 (a time value is below 8.64 * 10^15). *)
Definition int_to_string (t : Z) : string :=
  NilZero.string_of_int (Z.to_int t).

Lemma to_int_not_nil t :
  Z.to_int t <> Decimal.Pos Decimal.Nil /\ Z.to_int t <> Decimal.Neg Decimal.Nil.
Proof.
  split; intros H; assert (E := of_to t); rewrite H in E; simpl in E;
    subst t; discriminate.
Qed.

(** The text is never empty ... *)
Lemma int_to_string_nonempty t : nonempty (int_to_string t).
Proof.
  unfold int_to_string, nonempty. intros H.
  destruct (to_int_not_nil t) as [H1 H2].
  assert (E := NilZero.isi _ H1 H2). rewrite H in E. discriminate.
Qed.

(** ... and it determines the integer. *)
Lemma int_to_string_inj t u : int_to_string t = int_to_string u -> t = u.
Proof.
  unfold int_to_string. intros H.
  destruct (to_int_not_nil t) as [Ht1 Ht2], (to_int_not_nil u) as [Hu1 Hu2].
  assert (Et := NilZero.isi _ Ht1 Ht2). assert (Eu := NilZero.isi _ Hu1 Hu2).
  rewrite H, Eu in Et. injection Et as Et.
  rewrite <- (of_to t), <- (of_to u), Et. reflexivity.
Qed.

#[export] Hint Resolve int_to_string_nonempty : wsc.

(** ** [Date.prototype.toISOString] *)

(** Year, month and day of the [z]-th day after 1970-01-01 in the
    proleptic Gregorian calendar, by eras of 400 years. *)
Definition civil_from_days (z : Z) : Z * Z * Z :=
  let z := z + 719468 in
  let era := z / 146097 in
  let doe := z - era * 146097 in
  let yoe := (doe - doe / 1460 + doe / 36524 - doe / 146096) / 365 in
  let doy := doe - (365 * yoe + yoe / 4 - yoe / 100) in
  let mp := (5 * doy + 2) / 153 in
  let d := doy - (153 * mp + 2) / 5 + 1 in
  let m := if mp <? 10 then mp + 3 else mp - 9 in
  let y := yoe + era * 400 in
  ((if m <=? 2 then y + 1 else y), m, d).

(** [k] in decimal, left-padded with zeros to [w] digits. *)
Definition pad (w : nat) (k : Z) : string :=
  let s := int_to_string k in
  (String.concat "" (repeat "0" (w - String.length s)%nat) ++ s)%string.

(** Years 0 to 9999 print on four digits, others with a sign and six. *)
Definition iso_year (y : Z) : string :=
  if (0 <=? y) && (y <=? 9999) then pad 4 y
  else ((if (y <? 0)%Z then "-" else "+") ++ pad 6 (Z.abs y))%string.

Definition to_iso_string (t : Z) : string :=
  let days := t / 86400000 in
  let msday := t mod 86400000 in
  let '(y, mo, d) := civil_from_days days in
  (iso_year y ++ "-" ++ pad 2 mo ++ "-" ++ pad 2 d ++ "T" ++
   pad 2 (msday / 3600000) ++ ":" ++ pad 2 (msday / 60000 mod 60) ++ ":" ++
   pad 2 (msday / 1000 mod 60) ++ "." ++ pad 3 (msday mod 1000) ++ "Z")%string.

Lemma pad_nonempty w k : nonempty (pad w k).
Proof. unfold pad. apply nonempty_append_r, int_to_string_nonempty. Qed.

(** The ISO text of a time is never empty. *)
Lemma to_iso_string_nonempty t : nonempty (to_iso_string t).
Proof.
  unfold to_iso_string. destruct (civil_from_days _) as [[y mo] d].
  apply nonempty_append_l. unfold iso_year. destruct (_ && _)%bool.
  - apply pad_nonempty.
  - destruct (y <? 0)%Z; apply nonempty_append_l; intros H; discriminate.
Qed.

#[export] Hint Resolve pad_nonempty to_iso_string_nonempty : wsc.

Example to_iso_string_epoch : to_iso_string 0 = "1970-01-01T00:00:00.000Z"%string.
Proof. vm_compute. reflexivity. Qed.

Example to_iso_string_2023 :
  to_iso_string 1700000000123 = "2023-11-14T22:13:20.123Z"%string.
Proof. vm_compute. reflexivity. Qed.

Example to_iso_string_leap :
  to_iso_string 951782400000 = "2000-02-29T00:00:00.000Z"%string.
Proof. vm_compute. reflexivity. Qed.

Close Scope Z_scope.

(** ** Characters *)

Definition code (c : ascii) : N := N_of_ascii c.

(** ** [encodeURIComponent] *)

(** The characters [encodeURIComponent] leaves as they are. *)
Definition uri_unreserved (c : ascii) : bool :=
  let n := code c in
  ((65 <=? n) && (n <=? 90))%N || ((97 <=? n) && (n <=? 122))%N ||
  ((48 <=? n) && (n <=? 57))%N ||
  existsb (fun k => N.eqb n k) [45; 95; 46; 33; 126; 42; 39; 40; 41]%N.

Definition hex_digit (k : N) : ascii :=
  ascii_of_N (if (k <? 10)%N then 48 + k else 55 + k)%N.

(** [%XX] with upper-case hexadecimal digits. *)
Definition percent (b : N) : list ascii :=
  ["%"%char; hex_digit (b / 16)%N; hex_digit (b mod 16)%N].

(** One code unit: itself, one escaped byte, or the two escaped bytes of
    its UTF-8 encoding. *)
Definition encode_char (c : ascii) : list ascii :=
  let n := code c in
  if uri_unreserved c then [c]
  else if (n <? 128)%N then percent n
  else percent (192 + n / 64)%N ++ percent (128 + n mod 64)%N.

Definition encode_uri_component (s : string) : string :=
  string_of_list_ascii (flat_map encode_char (list_ascii_of_string s)).

Definition hex_val (c : ascii) : option N :=
  let n := code c in
  if ((48 <=? n) && (n <=? 57))%N then Some (n - 48)%N
  else if ((65 <=? n) && (n <=? 70))%N then Some (n - 55)%N
  else if ((97 <=? n) && (n <=? 102))%N then Some (n - 87)%N
  else None.

Definition hex_byte (h l : ascii) : option N :=
  match hex_val h, hex_val l with
  | Some a, Some b => Some (16 * a + b)%N
  | _, _ => None
  end.

(** [decodeURIComponent] on the model's code units: an escaped byte below
    128, or a two-byte UTF-8 sequence for a code unit below 256; anything
    else is a [URIError] ([None]). *)
Fixpoint decode_chars (l : list ascii) : option (list ascii) :=
  match l with
  | [] => Some []
  | "%"%char :: h1 :: l1 :: rest =>
      match hex_byte h1 l1 with
      | Some b =>
          if (b <? 128)%N then
            option_map (cons (ascii_of_N b)) (decode_chars rest)
          else if ((194 <=? b) && (b <=? 195))%N then
            match rest with
            | "%"%char :: h2 :: l2 :: rest' =>
                match hex_byte h2 l2 with
                | Some b2 =>
                    if ((128 <=? b2) && (b2 <=? 191))%N then
                      option_map (cons (ascii_of_N ((b - 192) * 64 + (b2 - 128))))
                        (decode_chars rest')
                    else None
                | None => None
                end
            | _ => None
            end
          else None
      | None => None
      end
  | "%"%char :: _ => None
  | c :: rest => option_map (cons c) (decode_chars rest)
  end.

Definition decode_uri_component (s : string) : option string :=
  option_map string_of_list_ascii (decode_chars (list_ascii_of_string s)).

(** Every code unit decodes back from its encoding, whatever follows. *)
Lemma decode_encode_char c rest :
  decode_chars (encode_char c ++ rest) = option_map (cons c) (decode_chars rest).
Proof.
  destruct c as [[] [] [] [] [] [] [] []]; reflexivity.
Qed.

Lemma decode_encode_chars l :
  decode_chars (flat_map encode_char l) = Some l.
Proof.
  induction l as [|c l IH]; [reflexivity|].
  simpl. rewrite decode_encode_char, IH. reflexivity.
Qed.

(** ** The connection URL and its query string *)

(** The characters that delimit a query string. *)
Definition query_delim (c : ascii) : bool :=
  existsb (Ascii.eqb c) ["?"; "&"; "="; "#"]%char.

(** An encoded code unit contains no delimiter. *)
Lemma encode_char_no_delim c : forallb (fun d => negb (query_delim d)) (encode_char c) = true.
Proof.
  destruct c as [[] [] [] [] [] [] [] []]; vm_compute; reflexivity.
Qed.

Lemma encode_chars_no_delim l :
  forallb (fun d => negb (query_delim d)) (flat_map encode_char l) = true.
Proof.
  induction l as [|c l IH]; [reflexivity|].
  simpl. rewrite forallb_app, encode_char_no_delim, IH. reflexivity.
Qed.

(** Split at the first occurrence of [d]. *)
Fixpoint split_at (d : ascii) (l : list ascii) : list ascii * option (list ascii) :=
  match l with
  | [] => ([], None)
  | c :: rest =>
      if Ascii.eqb c d then ([], Some rest)
      else let '(a, b) := split_at d rest in (c :: a, b)
  end.

(** The value of the first [name=value] pair of an [&]-separated list,
    with [fuel] bounding the number of pairs read. *)
Fixpoint find_param (fuel : nat) (name : string) (q : list ascii)
  : option (list ascii) :=
  match fuel with
  | O => None
  | S fuel' =>
      let '(kv, more) := split_at "&"%char q in
      let '(k, v) := split_at "="%char kv in
      if String.eqb (string_of_list_ascii k) name then
        match v with Some v => decode_chars v | None => Some [] end
      else match more with
           | Some q' => find_param fuel' name q'
           | None => None
           end
  end.

(** What a server reads from the connection URL: the query string after
    the first [?], its [name] parameter decoded. *)
Definition query_param (url name : string) : option string :=
  let l := list_ascii_of_string url in
  match split_at "?"%char l with
  | (_, Some q) =>
      option_map string_of_list_ascii
        (find_param (S (length q)) name q)
  | (_, None) => None
  end.

Lemma list_ascii_of_string_app (s t : string) :
  list_ascii_of_string (s ++ t) = list_ascii_of_string s ++ list_ascii_of_string t.
Proof. induction s as [|c s IH]; simpl; [reflexivity|now rewrite IH]. Qed.

(** [split_at] walks over a prefix that does not hold the delimiter. *)
Lemma split_at_app d a b :
  forallb (fun c => negb (Ascii.eqb c d)) a = true ->
  split_at d (a ++ b) = let '(x, y) := split_at d b in (a ++ x, y).
Proof.
  induction a as [|c a IH]; simpl; intros Ha.
  - now destruct (split_at d b).
  - apply andb_prop in Ha as [Hc Ha]. apply negb_true_iff in Hc. rewrite Hc, IH by exact Ha.
    now destruct (split_at d b).
Qed.

(** An encoded component holds none of the delimiters. *)
Lemma encode_chars_no d l :
  query_delim d = true -> forallb (fun c => negb (Ascii.eqb c d)) (flat_map encode_char l) = true.
Proof.
  intros Hd. pose proof (encode_chars_no_delim l) as H.
  apply forallb_forall. intros c Hin. eapply forallb_forall in H; [|exact Hin].
  destruct (Ascii.eqb_spec c d) as [->|]; [now rewrite Hd in H|reflexivity].
Qed.

Lemma find_param_hit f name q kv more k v :
  split_at "&"%char q = (kv, more) -> split_at "="%char kv = (k, Some v) ->
  string_of_list_ascii k = name -> find_param (S f) name q = decode_chars v.
Proof. intros H1 H2 H3. simpl. rewrite H1, H2, H3, String.eqb_refl. reflexivity. Qed.

Lemma find_param_skip f name q kv q' k v :
  split_at "&"%char q = (kv, Some q') -> split_at "="%char kv = (k, v) ->
  string_of_list_ascii k <> name -> find_param (S f) name q = find_param f name q'.
Proof.
  intros H1 H2 H3. simpl. rewrite H1, H2.
  destruct (String.eqb_spec (string_of_list_ascii k) name); [contradiction|reflexivity].
Qed.

Lemma split_at_none d a :
  forallb (fun c => negb (Ascii.eqb c d)) a = true -> split_at d a = (a, None).
Proof. intros Ha. rewrite <- (app_nil_r a), split_at_app by exact Ha. reflexivity. Qed.

(** ** [String.prototype.trim] *)

(** WhiteSpace and LineTerminator code units below 256: TAB, LF, VT, FF,
    CR, SPACE and NO-BREAK SPACE. *)
Definition js_space (c : ascii) : bool :=
  existsb (N.eqb (code c)) [9; 10; 11; 12; 13; 32; 160]%N.

Fixpoint drop_space (l : list ascii) : list ascii :=
  match l with
  | [] => []
  | c :: rest => if js_space c then drop_space rest else l
  end.

Definition trim (s : string) : string :=
  string_of_list_ascii
    (rev (drop_space (rev (drop_space (list_ascii_of_string s))))).

Example trim_example :
  trim (String "009"%char "  hi there  "%string) = "hi there"%string.
Proof. reflexivity. Qed.
