(* ===== verification/DateTime.v ===== *)
(** ECMAScript dates: the part of the [Date] library that the timestamps
    of the chat go through.

    The hook writes timestamps with [new Date().toISOString()]
    (useWebSocket.ts lines 69, 83, 174; [JsRuntime.to_iso_string]) and
    ChatInterface.tsx reads them back with [new Date(timestamp)] and
    [toLocaleTimeString] (lines 43-52).  This file models, from
    ECMA-262 (section 21.4), what those calls compute:
    - [MakeTime], [MakeDay], [MakeDate] and [TimeClip] (21.4.1.28-31);
    - the Date Time String Format (21.4.1.32) as a parser of the text
      into its fields, and [Date.parse] (21.4.3.2): a conforming string
      with in-range fields denotes one time value, a conforming string
      with an out-of-range field gives [NaN], anything else goes to the
      implementation's own formats;
    - the [Date] constructor applied to one value (21.4.2.1), with the
      [ToPrimitive] of the values a frame may hold;
    - [Date.prototype.toLocaleTimeString] (21.4.4.39 and ECMA-402).
    What the specification leaves to the host (the local time zone
    [LocalTZA], the implementation's other date formats, the digits of
    [Number::toString] for non-integral numbers and the locale's way of
    writing an hour and a minute) is the interface [DateEnv].

    The theorems: [Date.parse] reads the text [toISOString] writes back
    as the same time value, for every time value ([iso_roundtrip]); the
    text has 24 characters for years 0 to 9999 and 27 otherwise
    ([to_iso_string_length]); the day count agrees with ECMA-262's
    [DayFromYear] and month table ([make_day_ecma]). *)

From Stdlib Require Import String List Bool ZArith Lia Ascii.
From Stdlib Require Import DecimalString DecimalZ DecimalPos DecimalFacts.
From S2P Require Import Spec2Rocq JsValue JsRuntime.
Import ListNotations.
Local Open Scope Z_scope.

(** ** Decimal fields *)

Definition digit_val (c : ascii) : option Z :=
  let n := Z.of_N (N_of_ascii c) in
  if (48 <=? n) && (n <=? 57) then Some (n - 48) else None.

(** Exactly [w] decimal digits, most significant first, added to [acc]. *)
Fixpoint read_digits (w : nat) (acc : Z) (l : list ascii) : option (Z * list ascii) :=
  match w with
  | O => Some (acc, l)
  | S w' =>
      match l with
      | c :: l' => match digit_val c with
                   | Some v => read_digits w' (10 * acc + v) l'
                   | None => None
                   end
      | [] => None
      end
  end.

(** The value of a [Decimal.uint], read most significant digit first. *)
Fixpoint uval (acc : Z) (u : Decimal.uint) : Z :=
  match u with
  | Decimal.Nil => acc
  | Decimal.D0 u => uval (10 * acc) u
  | Decimal.D1 u => uval (10 * acc + 1) u
  | Decimal.D2 u => uval (10 * acc + 2) u
  | Decimal.D3 u => uval (10 * acc + 3) u
  | Decimal.D4 u => uval (10 * acc + 4) u
  | Decimal.D5 u => uval (10 * acc + 5) u
  | Decimal.D6 u => uval (10 * acc + 6) u
  | Decimal.D7 u => uval (10 * acc + 7) u
  | Decimal.D8 u => uval (10 * acc + 8) u
  | Decimal.D9 u => uval (10 * acc + 9) u
  end.

(** The digits [int_to_string] writes for a non-negative integer. *)
Definition z_digits (k : Z) : Decimal.uint :=
  match k with Z.pos p => Pos.to_uint p | _ => Decimal.zero end.

(** ** Time values (ECMA-262 21.4.1) *)

Definition msPerDay : Z := 86400000.

(** [MakeTime] on integral arguments. *)
Definition make_time (hour min sec ms : Z) : Z :=
  hour * 3600000 + min * 60000 + sec * 1000 + ms.

(** The day number of [year]-[month]-[day] (month 1 to 12) in the
    proleptic Gregorian calendar, by eras of 400 years: the inverse of
    [JsRuntime.civil_from_days]. *)
Definition days_from_civil (y m d : Z) : Z :=
  let y := if m <=? 2 then y - 1 else y in
  let era := y / 400 in
  let yoe := y - era * 400 in
  let mp := if 2 <? m then m - 3 else m + 9 in
  let doy := (153 * mp + 2) / 5 + d - 1 in
  let doe := yoe * 365 + yoe / 4 - yoe / 100 + doy in
  era * 146097 + doe - 719468.

(** [MakeDay(year, month, date)], the month counted from 0 and carried
    into the year. *)
Definition make_day (year month date : Z) : Z :=
  days_from_civil (year + month / 12) (month mod 12 + 1) 1 + date - 1.

Definition make_date (day time : Z) : Z := day * msPerDay + time.

(** [TimeClip]: [None] is [NaN]. *)
Definition time_clip (t : Z) : option Z :=
  if Z.abs t <=? 8640000000000000 then Some t else None.

(** ECMA-262's own definitions of the first day of a year and of the
    first day of each month, the reference [make_day] is checked
    against. *)
Definition day_from_year (y : Z) : Z :=
  365 * (y - 1970) + (y - 1969) / 4 - (y - 1901) / 100 + (y - 1601) / 400.

Definition in_leap_year (y : Z) : Z :=
  if (y mod 4 =? 0) && (negb (y mod 100 =? 0) || (y mod 400 =? 0)) then 1 else 0.

Definition month_start (leap m : Z) : Z :=
  match m with
  | 0 => 0 | 1 => 31 | 2 => 59 + leap | 3 => 90 + leap | 4 => 120 + leap
  | 5 => 151 + leap | 6 => 181 + leap | 7 => 212 + leap | 8 => 243 + leap
  | 9 => 273 + leap | 10 => 304 + leap | _ => 334 + leap
  end.

(** ** The Date Time String Format (ECMA-262 21.4.1.32) *)

(** The time zone of a string: [Z], an offset [+HH:mm] or [-HH:mm], or
    none (a date-time form without offset is local time; a date-only
    form is UTC). *)
Inductive zone : Type :=
| ZoneUTC
| ZoneOffset (negative : bool) (hh mm : Z)
| ZoneLocal.

Record iso_fields : Type := mkIso {
  f_year : Z;
  f_minus_zero : bool;   (** the year was written [-000000] *)
  f_month : Z;
  f_day : Z;
  f_hour : Z;
  f_minute : Z;
  f_second : Z;
  f_ms : Z;
  f_zone : zone
}.

Definition starts (c : ascii) (l : list ascii) : option (list ascii) :=
  match l with d :: r => if Ascii.eqb c d then Some r else None | [] => None end.

(** [YYYY], or [+YYYYYY] / [-YYYYYY]. *)
Definition read_year (l : list ascii) : option (Z * bool * list ascii) :=
  match l with
  | c :: r =>
      if Ascii.eqb c "+"%char then
        match read_digits 6 0 r with Some (y, r') => Some (y, false, r') | None => None end
      else if Ascii.eqb c "-"%char then
        match read_digits 6 0 r with Some (y, r') => Some (- y, y =? 0, r') | None => None end
      else
        match read_digits 4 0 l with Some (y, r') => Some (y, false, r') | None => None end
  | [] => None
  end.

(** [-MM] and then [-DD], each optional; an absent field is [01]. *)
Definition read_month_day (l : list ascii) : option (Z * Z * list ascii) :=
  match starts "-" l with
  | None => Some (1, 1, l)
  | Some r =>
      match read_digits 2 0 r with
      | None => None
      | Some (mo, r) =>
          match starts "-" r with
          | None => Some (mo, 1, r)
          | Some r => match read_digits 2 0 r with
                      | Some (d, r) => Some (mo, d, r)
                      | None => None
                      end
          end
      end
  end.

(** [HH:mm], [HH:mm:ss] or [HH:mm:ss.sss]. *)
Definition read_time (l : list ascii) : option (Z * Z * Z * Z * list ascii) :=
  match read_digits 2 0 l with
  | None => None
  | Some (h, r) =>
      match starts ":" r with
      | None => None
      | Some r =>
          match read_digits 2 0 r with
          | None => None
          | Some (mi, r) =>
              match starts ":" r with
              | None => Some (h, mi, 0, 0, r)
              | Some r =>
                  match read_digits 2 0 r with
                  | None => None
                  | Some (s, r) =>
                      match starts "." r with
                      | None => Some (h, mi, s, 0, r)
                      | Some r => match read_digits 3 0 r with
                                  | Some (ms, r) => Some (h, mi, s, ms, r)
                                  | None => None
                                  end
                      end
                  end
              end
          end
      end
  end.

(** What follows a time: nothing, [Z], or [+HH:mm] / [-HH:mm]; then the
    end of the string. *)
Definition read_zone (l : list ascii) : option zone :=
  match l with
  | [] => Some ZoneLocal
  | c :: r =>
      if Ascii.eqb c "Z"%char then match r with [] => Some ZoneUTC | _ => None end
      else if Ascii.eqb c "+"%char || Ascii.eqb c "-"%char then
        match read_digits 2 0 r with
        | None => None
        | Some (hh, r) =>
            match starts ":" r with
            | None => None
            | Some r => match read_digits 2 0 r with
                        | Some (mm, []) => Some (ZoneOffset (Ascii.eqb c "-"%char) hh mm)
                        | _ => None
                        end
            end
        end
      else None
  end.

(** The fields of a string of the format, [None] when it does not
    conform. *)
Definition parse_iso (s : string) : option iso_fields :=
  match read_year (list_ascii_of_string s) with
  | None => None
  | Some (y, mz, r) =>
      match read_month_day r with
      | None => None
      | Some (mo, d, r) =>
          match r with
          | [] => Some (mkIso y mz mo d 0 0 0 0 ZoneUTC)
          | c :: r =>
              if Ascii.eqb c "T"%char then
                match read_time r with
                | None => None
                | Some (h, mi, se, ms, r) =>
                    match read_zone r with
                    | Some z => Some (mkIso y mz mo d h mi se ms z)
                    | None => None
                    end
                end
              else None
          end
      end
  end.

(** The element ranges of the format: MM 01-12, DD 01-31, HH 00-24 (24
    only as [24:00], [24:00:00] or [24:00:00.000], the midnight that ends
    the day), mm and ss 00-59, an offset's HH 00-23 and mm 00-59, and no
    [-000000]. *)
Definition iso_in_bounds (f : iso_fields) : bool :=
  negb (f_minus_zero f) &&
  (1 <=? f_month f) && (f_month f <=? 12) && (1 <=? f_day f) && (f_day f <=? 31) &&
  (f_minute f <=? 59) && (f_second f <=? 59) &&
  ((f_hour f <=? 23) ||
   ((f_hour f =? 24) && (f_minute f =? 0) && (f_second f =? 0) && (f_ms f =? 0))) &&
  match f_zone f with ZoneOffset _ hh mm => (hh <=? 23) && (mm <=? 59) | _ => true end.

(** The time value of the fields read as UTC. *)
Definition iso_local_value (f : iso_fields) : Z :=
  make_date (make_day (f_year f) (f_month f - 1) (f_day f))
            (make_time (f_hour f) (f_minute f) (f_second f) (f_ms f)).

(** ** What the host provides *)

(** The parts of [Date] the specification leaves to the host. *)
Class DateEnv : Type := {
  (** [LocalTZA(t, isUTC)]: the offset of local time from UTC, in ms. *)
  local_tza : Z -> bool -> Z;
  (** [Date.parse] on a string that does not conform to the format. *)
  parse_fallback : string -> option Z;
  (** [Number::toString] of the number [m * 10^e]. *)
  number_to_string : Z -> Z -> string;
  (** The locale's text for an hour (0-23) and a minute (0-59) under
      [{hour: '2-digit', minute: '2-digit'}]. *)
  locale_hour_minute : Z -> Z -> string
}.

Section Parse.
Context `{env : DateEnv}.

(** [Date.parse(s)]: [None] is [NaN]. *)
Definition date_parse (s : string) : option Z :=
  match parse_iso s with
  | None => parse_fallback s
  | Some f =>
      if iso_in_bounds f then
        let t := iso_local_value f in
        time_clip (match f_zone f with
                   | ZoneUTC => t
                   | ZoneOffset neg hh mm =>
                       if neg then t + (hh * 60 + mm) * 60000 else t - (hh * 60 + mm) * 60000
                   | ZoneLocal => t - local_tza t false
                   end)
      else None
  end.

(** [TimeClip(ToNumber(v))] for the number [m * 10^e], exact: the
    magnitude is compared before the fraction is dropped. *)
Definition time_clip_number (m e : Z) : option Z :=
  if 0 <=? e then time_clip (m * 10 ^ e)
  else if Z.abs m <=? 8640000000000000 * 10 ^ (- e) then Some (Z.quot m (10 ^ (- e)))
  else None.

(** Whether a parsed object has an own [toString] property.  JSON gives
    no functions, so such an object has no callable [toString] and its
    [valueOf] (inherited) returns the object itself: [ToPrimitive] throws
    a [TypeError] on it. *)
Definition own_to_string (ps : list (string * jsv)) : bool :=
  existsb (fun kv => String.eqb (fst kv) "toString") ps.

(** [ToString] of an element inside [Array.prototype.join]: [null] and
    [undefined] give the empty string, nested arrays are joined. *)
Fixpoint join_element (v : jsv) : exn + string :=
  match v with
  | JUndefined | JNull => inr EmptyString
  | JBool b => inr (if b then "true" else "false")%string
  | JNum m e => inr (number_to_string m e)
  | JStr s => inr s
  | JArr items =>
      sbind ((fix go (l : list jsv) : exn + list string :=
                match l with
                | [] => inr []
                | x :: xs => sbind (join_element x) (fun s => sbind (go xs) (fun ss => inr (s :: ss)))
                end) items)
            (fun ss => inr (String.concat "," ss))
  | JObj ps => if own_to_string ps then inl TypeError else inr "[object Object]"%string
  end.

(** [new Date(value)] with one argument: the time value, or the
    exception [ToPrimitive] throws. *)
Definition date_value (v : jsv) : exn + option Z :=
  match v with
  | JStr s => inr (date_parse s)
  | JNum m e => inr (time_clip_number m e)
  | JBool b => inr (time_clip (if b then 1 else 0))
  | JNull => inr (Some 0)
  | JUndefined => inr None
  | JArr _ => sbind (join_element v) (fun s => inr (date_parse s))
  | JObj ps => if own_to_string ps then inl TypeError else inr (date_parse "[object Object]")
  end.

(** [LocalTime(t)], [HourFromTime], [MinFromTime]. *)
Definition local_time (t : Z) : Z := t + local_tza t true.
Definition hour_from_time (t : Z) : Z := (t / 3600000) mod 24.
Definition min_from_time (t : Z) : Z := (t / 60000) mod 60.

(** [toLocaleTimeString([], {hour: '2-digit', minute: '2-digit'})]: an
    invalid date gives ["Invalid Date"]; a valid one cannot throw with
    these options. *)
Definition to_locale_time_string (tv : option Z) : string :=
  match tv with
  | None => "Invalid Date"
  | Some t => locale_hour_minute (hour_from_time (local_time t)) (min_from_time (local_time t))
  end.

End Parse.

(** ** Decimal fields read back *)

Lemma read_digits_uint u acc rest :
  read_digits (Decimal.nb_digits u) acc
    (list_ascii_of_string (NilEmpty.string_of_uint u) ++ rest) = Some (uval acc u, rest).
Proof.
  revert acc. induction u; intros acc; cbn -[Z.mul Z.add]; rewrite ?IHu, ?Z.add_0_r; reflexivity.
Qed.

Lemma uval_acc u acc : uval acc u = acc * 10 ^ Z.of_nat (Decimal.nb_digits u) + uval 0 u.
Proof.
  revert acc. induction u; intros acc; cbn -[Z.mul Z.add Z.pow Z.of_nat]; [lia|..];
    match goal with |- uval ?a _ = _ * _ + uval ?b _ => rewrite (IHu a), (IHu b) end;
    rewrite Nat2Z.inj_succ, Z.pow_succ_r by lia; lia.
Qed.

Lemma uval_nonneg u acc : 0 <= acc -> 0 <= uval acc u.
Proof. revert acc. induction u; intros acc H; cbn [uval]; auto; apply IHu; lia. Qed.

Lemma uval_of_uint_acc u p : Z.pos (Pos.of_uint_acc u p) = uval (Z.pos p) u.
Proof.
  revert p. induction u; intros p; cbn [Pos.of_uint_acc uval]; [reflexivity|..];
    rewrite IHu; f_equal; lia.
Qed.

Lemma of_uint_uval u : Z.of_uint u = uval 0 u.
Proof.
  unfold Z.of_uint. induction u; cbn [Pos.of_uint uval Z.of_N]; [reflexivity|exact IHu|..];
    rewrite uval_of_uint_acc; f_equal; lia.
Qed.

Lemma string_of_uint_length u : String.length (NilEmpty.string_of_uint u) = Decimal.nb_digits u.
Proof. induction u; simpl; auto. Qed.

(** [Pos.to_uint] writes no leading zero ... *)
Lemma to_uint_head p l : Pos.to_uint p <> Decimal.D0 l.
Proof.
  intros H.
  assert (E : N.to_uint (Pos.of_uint l) = Pos.to_uint p).
  { change (Pos.of_uint l) with (Pos.of_uint (Decimal.D0 l)).
    rewrite <- H, Unsigned.of_to. reflexivity. }
  rewrite Unsigned.to_of, H in E.
  destruct l; [exact (Unsigned.to_uint_nonzero p H)|..];
    apply (f_equal Decimal.nb_digits) in E;
    match type of E with context [Decimal.unorm ?v] =>
      pose proof (nb_digits_unorm v ltac:(discriminate)) end;
    simpl in *; lia.
Qed.

(** ... so a number of [n] digits is at least [10^(n-1)]. *)
Lemma to_uint_lower p :
  10 ^ (Z.of_nat (Decimal.nb_digits (Pos.to_uint p)) - 1) <= Z.pos p.
Proof.
  assert (Hv : Z.pos p = uval 0 (Pos.to_uint p)).
  { rewrite <- of_uint_uval. unfold Z.of_uint. rewrite Unsigned.of_to. reflexivity. }
  pose proof (to_uint_head p). pose proof (Unsigned.to_uint_nonnil p).
  rewrite Hv. destruct (Pos.to_uint p) as [|l|l|l|l|l|l|l|l|l|l];
    [congruence|now destruct (H l)|..];
    cbn -[Z.mul Z.add Z.pow Z.of_nat]; rewrite uval_acc, Nat2Z.inj_succ, Z.sub_1_r, Z.pred_succ;
    pose proof (Z.pow_nonneg 10 (Z.of_nat (Decimal.nb_digits l)));
    pose proof (uval_nonneg l 0); lia.
Qed.

Lemma int_to_string_digits k : 0 <= k -> int_to_string k = NilEmpty.string_of_uint (z_digits k).
Proof.
  intros Hk. destruct k as [|p|p]; [reflexivity| |lia]. unfold int_to_string. simpl.
  destruct (Pos.to_uint p) eqn:E; [exfalso; exact (Unsigned.to_uint_nonnil p E)|reflexivity..].
Qed.

Lemma z_digits_value k : 0 <= k -> uval 0 (z_digits k) = k.
Proof.
  intros Hk. destruct k as [|p|p]; [reflexivity| |lia]. simpl.
  rewrite <- of_uint_uval. unfold Z.of_uint. rewrite Unsigned.of_to. reflexivity.
Qed.

Lemma z_digits_width k w :
  (1 <= w)%nat -> 0 <= k < 10 ^ Z.of_nat w -> (Decimal.nb_digits (z_digits k) <= w)%nat.
Proof.
  intros Hw Hk. destruct k as [|p|p]; [simpl; lia| |lia]. simpl.
  pose proof (to_uint_lower p).
  assert (Z.of_nat (Decimal.nb_digits (Pos.to_uint p)) - 1 < Z.of_nat w); [|lia].
  apply (Z.pow_lt_mono_r_iff 10); lia.
Qed.

Lemma zeros_length n : String.length (String.concat "" (repeat "0"%string n)) = n.
Proof. induction n as [|[|n] IH]; simpl in *; lia. Qed.

Lemma zeros_chars n :
  list_ascii_of_string (String.concat "" (repeat "0"%string n)) = repeat "0"%char n.
Proof. induction n as [|[|n] IH]; [reflexivity|reflexivity|]. simpl in *. now rewrite IH. Qed.

Lemma read_digits_zeros n m l :
  read_digits (n + m) 0 (repeat "0"%char n ++ l) = read_digits m 0 l.
Proof. induction n as [|n IH]; [reflexivity|]. exact IH. Qed.

(** A field that [pad] prints on [w] digits has [w] characters ... *)
Lemma pad_length w k :
  (1 <= w)%nat -> 0 <= k < 10 ^ Z.of_nat w -> String.length (pad w k) = w.
Proof.
  intros Hw Hk. pose proof (z_digits_width k w Hw Hk).
  unfold pad. rewrite int_to_string_digits, string_length_app, zeros_length, string_of_uint_length
    by lia. lia.
Qed.

(** ... and reads back as its value. *)
Lemma pad_read w k rest :
  (1 <= w)%nat -> 0 <= k < 10 ^ Z.of_nat w ->
  read_digits w 0 (list_ascii_of_string (pad w k) ++ rest) = Some (k, rest).
Proof.
  intros Hw Hk. pose proof (z_digits_width k w Hw Hk).
  unfold pad. rewrite int_to_string_digits by lia.
  rewrite list_ascii_of_string_app, zeros_chars, <- app_assoc, string_of_uint_length.
  replace w with ((w - Decimal.nb_digits (z_digits k)) + Decimal.nb_digits (z_digits k))%nat at 1
    by lia.
  rewrite read_digits_zeros, read_digits_uint, z_digits_value by lia. reflexivity.
Qed.

(** ** The calendar *)

(** [days_from_civil] inverts [civil_from_days], whose month and day are
    in range; the year lies in the 400-year era of the day. *)
Lemma civil_from_days_spec z :
  let '(y, m, d) := civil_from_days z in
  days_from_civil y m d = z /\ 1 <= m <= 12 /\ 1 <= d <= 31 /\
  400 * ((z + 719468) / 146097) <= y <= 400 * ((z + 719468) / 146097) + 400.
Proof.
  unfold civil_from_days, days_from_civil.
  set (e := (z + 719468) / 146097).
  set (doe := z + 719468 - e * 146097).
  assert (Hdoe : 0 <= doe < 146097) by (subst doe e; Z.to_euclidean_division_equations; lia).
  set (yoe := (doe - doe / 1460 + doe / 36524 - doe / 146096) / 365).
  assert (Hy : 0 <= yoe < 400) by (subst yoe; Z.to_euclidean_division_equations; lia).
  set (doy := doe - (365 * yoe + yoe / 4 - yoe / 100)).
  assert (Hd : 0 <= doy < 366) by (subst doy yoe; Z.to_euclidean_division_equations; lia).
  assert (Edoy : doy = doe - (365 * yoe + yoe / 4 - yoe / 100)) by reflexivity.
  assert (Edoe : doe = z + 719468 - e * 146097) by reflexivity.
  clearbody yoe doy doe e.
  set (mp := (5 * doy + 2) / 153).
  assert (Hm : 0 <= mp < 12) by (subst mp; Z.to_euclidean_division_equations; lia).
  assert (Hday : 1 <= doy - (153 * mp + 2) / 5 + 1 <= 31)
    by (subst mp; Z.to_euclidean_division_equations; lia).
  clearbody mp.
  destruct (mp <? 10) eqn:E1; [apply Z.ltb_lt in E1|apply Z.ltb_ge in E1].
  - destruct (mp + 3 <=? 2) eqn:E2; [apply Z.leb_le in E2; lia|].
    destruct (2 <? mp + 3) eqn:E3; [|apply Z.ltb_ge in E3; lia].
    split; [|lia]. replace (mp + 3 - 3) with mp by lia.
    Z.to_euclidean_division_equations. lia.
  - destruct (mp - 9 <=? 2) eqn:E2; [|apply Z.leb_gt in E2; lia].
    destruct (2 <? mp - 9) eqn:E3; [apply Z.ltb_lt in E3; lia|].
    split; [|lia]. replace (mp - 9 + 9) with mp by lia.
    replace (yoe + e * 400 + 1 - 1) with (yoe + e * 400) by lia.
    Z.to_euclidean_division_equations. lia.
Qed.

(** The day of the month enters the day count linearly. *)
Lemma days_from_civil_day y m d : days_from_civil y m d = days_from_civil y m 1 + d - 1.
Proof. unfold days_from_civil. lia. Qed.

(** [MakeDay] of a month 1 to 12 written from 1. *)
Lemma make_day_civil y m d : 1 <= m <= 12 -> make_day y (m - 1) d = days_from_civil y m d.
Proof.
  intros Hm. unfold make_day.
  rewrite (Z.div_small (m - 1) 12), (Z.mod_small (m - 1) 12) by lia.
  rewrite (days_from_civil_day y m d).
  replace (y + 0) with y by lia. replace (m - 1 + 1) with m by lia. reflexivity.
Qed.

(** The day count without eras: years before [y'] contribute 365 days and
    the leap days [y'/4 - y'/100 + y'/400]; the year starts in March. *)
Lemma days_from_civil_closed y m :
  days_from_civil y m 1 =
  let y' := if m <=? 2 then y - 1 else y in
  365 * y' + y' / 4 - y' / 100 + y' / 400 + (153 * (if 2 <? m then m - 3 else m + 9) + 2) / 5
  - 719468.
Proof.
  unfold days_from_civil. cbv zeta.
  generalize (if m <=? 2 then y - 1 else y) as y'. intros y'.
  generalize ((153 * (if 2 <? m then m - 3 else m + 9) + 2) / 5) as k. intros k.
  Z.to_euclidean_division_equations. lia.
Qed.

(** The leap days up to [y] exceed those up to [y - 1] by one exactly in
    a leap year. *)
Lemma leap_days_step y :
  (y / 4 - y / 100 + y / 400) - ((y - 1) / 4 - (y - 1) / 100 + (y - 1) / 400) = in_leap_year y.
Proof.
  unfold in_leap_year.
  destruct (y mod 4 =? 0) eqn:E4; destruct (y mod 100 =? 0) eqn:E100;
    destruct (y mod 400 =? 0) eqn:E400; simpl;
    rewrite ?Z.eqb_eq, ?Z.eqb_neq in E4, E100, E400;
    Z.to_euclidean_division_equations; lia.
Qed.

Lemma day_from_year_closed y :
  day_from_year y = 365 * y + ((y - 1) / 4 - (y - 1) / 100 + (y - 1) / 400) - 719527.
Proof. unfold day_from_year. Z.to_euclidean_division_equations. lia. Qed.

(** [MakeDay] computed by eras of 400 years gives, for the first day
    of month [m] (0 to 11) of every year [y], the day ECMA-262 defines
    from [DayFromYear], [InLeapYear] and its table of month starts. *)
Theorem make_day_ecma y m :
  0 <= m < 12 -> make_day y m 1 = day_from_year y + month_start (in_leap_year y) m.
Proof.
  intros Hm. unfold make_day.
  rewrite (Z.div_small m 12), (Z.mod_small m 12), days_from_civil_closed, day_from_year_closed,
    <- leap_days_step by lia.
  assert (Hc : m = 0 \/ m = 1 \/ m = 2 \/ m = 3 \/ m = 4 \/ m = 5 \/ m = 6 \/ m = 7 \/
               m = 8 \/ m = 9 \/ m = 10 \/ m = 11) by lia.
  replace (y + 0) with y by lia.
  destruct (m + 1 <=? 2) eqn:E1; destruct (2 <? m + 1) eqn:E2;
    rewrite ?Z.leb_le, ?Z.leb_gt, ?Z.ltb_lt, ?Z.ltb_ge in E1, E2; try lia;
    repeat (destruct Hc as [Hc|Hc];
            [subst m; cbn [month_start]; Z.to_euclidean_division_equations; lia|]);
    subst m; cbn [month_start]; Z.to_euclidean_division_equations; lia.
Qed.

(** ** The text [toISOString] writes, read back *)

#[local] Arguments pad : simpl never.
Lemma read_digits_cons w acc c l :
  read_digits (S w) acc (c :: l) =
  match digit_val c with Some v => read_digits w (10 * acc + v) l | None => None end.
Proof. reflexivity. Qed.

#[local] Arguments read_digits : simpl never.

Lemma list_ascii_of_string_length s : length (list_ascii_of_string s) = String.length s.
Proof. induction s as [|c s IH]; simpl; [reflexivity|now rewrite IH]. Qed.

(** A digit is neither sign. *)
Lemma digit_not_sign c v :
  digit_val c = Some v -> Ascii.eqb c "+"%char = false /\ Ascii.eqb c "-"%char = false.
Proof.
  intros H. split; apply Ascii.eqb_neq; intros ->; vm_compute in H; discriminate H.
Qed.

Lemma read_year_iso y rest :
  -999999 <= y <= 999999 ->
  read_year (list_ascii_of_string (iso_year y) ++ rest) = Some (y, false, rest).
Proof.
  intros Hy. unfold iso_year.
  destruct ((0 <=? y) && (y <=? 9999)) eqn:E.
  - apply andb_prop in E as [E1 E2]. apply Z.leb_le in E1, E2.
    assert (Hr := pad_read 4 y rest ltac:(lia) ltac:(simpl; lia)).
    assert (Hl := pad_length 4 y ltac:(lia) ltac:(simpl; lia)).
    rewrite <- list_ascii_of_string_length in Hl.
    destruct (list_ascii_of_string (pad 4 y)) as [|c l]; [discriminate Hl|].
    cbn [app] in Hr |- *.
    destruct (digit_val c) as [v|] eqn:Ev; [|rewrite read_digits_cons, Ev in Hr; discriminate Hr].
    destruct (digit_not_sign c v Ev) as [Ep Em].
    cbn [read_year]. rewrite Ep, Em, Hr. reflexivity.
  - apply andb_false_iff in E. rewrite Z.leb_gt, Z.leb_gt in E.
    destruct (y <? 0) eqn:En; simpl; [apply Z.ltb_lt in En|apply Z.ltb_ge in En];
      rewrite pad_read by (simpl; lia); do 3 f_equal; lia.
Qed.

(** The hour, minute, second and millisecond fields of a time value are
    in range. *)
Lemma time_of_day_bounds ms :
  0 <= ms < 86400000 ->
  0 <= ms / 3600000 < 24 /\ 0 <= ms / 60000 mod 60 < 60 /\
  0 <= ms / 1000 mod 60 < 60 /\ 0 <= ms mod 1000 < 1000.
Proof.
  intros Hms.
  repeat split; try apply Z.mod_pos_bound; try lia; Z.to_euclidean_division_equations; lia.
Qed.

(** The fields [parse_iso] finds in the text of a time value. *)
Lemma parse_iso_string t :
  Z.abs t <= 8640000000000000 ->
  let '(y, mo, d) := civil_from_days (t / msPerDay) in
  let ms := t mod msPerDay in
  parse_iso (to_iso_string t) =
  Some (mkIso y false mo d (ms / 3600000) (ms / 60000 mod 60) (ms / 1000 mod 60) (ms mod 1000)
          ZoneUTC).
Proof.
  intros Ht. unfold to_iso_string, msPerDay.
  pose proof (civil_from_days_spec (t / 86400000)) as Hc.
  destruct (civil_from_days (t / 86400000)) as [[y mo] d].
  destruct Hc as (_ & Hmo & Hd & Hy).
  assert (-999999 <= y <= 999999) by (Z.to_euclidean_division_equations; lia).
  set (ms := t mod 86400000).
  assert (0 <= ms < 86400000) by (apply Z.mod_pos_bound; lia).
  pose proof (time_of_day_bounds ms ltac:(lia)).
  unfold parse_iso. rewrite !list_ascii_of_string_app, read_year_iso by lia.
  unfold read_month_day, read_time, read_zone.
  repeat (simpl; rewrite pad_read by (simpl; lia)). reflexivity.
Qed.

(** Years 0 to 9999 are the days from -719528 (0000-01-01) to 2932896
    (9999-12-31). *)
Lemma days_from_civil_year_range y m d :
  1 <= m <= 12 -> 1 <= d <= 31 ->
  (0 <= y <-> -719528 <= days_from_civil y m d) /\
  (y <= 9999 <-> days_from_civil y m d < 2932897).
Proof.
  intros Hm Hd. rewrite days_from_civil_day, days_from_civil_closed. cbv zeta.
  destruct (m <=? 2) eqn:E1; destruct (2 <? m) eqn:E2;
    rewrite ?Z.leb_le, ?Z.leb_gt, ?Z.ltb_lt, ?Z.ltb_ge in E1, E2; try lia;
    Z.to_euclidean_division_equations; lia.
Qed.

(** The length of the text of a year. *)
Lemma iso_year_length y :
  -999999 <= y <= 999999 ->
  String.length (iso_year y) = if (0 <=? y) && (y <=? 9999) then 4%nat else 7%nat.
Proof.
  intros Hy. unfold iso_year. destruct ((0 <=? y) && (y <=? 9999)) eqn:E.
  - apply andb_prop in E as [E1 E2]. apply Z.leb_le in E1, E2. apply pad_length; simpl; lia.
  - rewrite string_length_app, pad_length by (simpl; lia). now destruct (y <? 0).
Qed.

Section RoundTrip.
Context `{env : DateEnv}.

(** [Date.parse] reads the text [Date.prototype.toISOString] writes
    back as the same time value, for every time value (every integer of
    magnitude at most 8.64e15, years -271821 to 275760): the timestamps
    the client writes denote the instants they were written at, in every
    time zone and whatever the host's other formats. *)
Theorem iso_roundtrip t :
  Z.abs t <= 8640000000000000 -> date_parse (to_iso_string t) = Some t.
Proof.
  intros Ht. unfold date_parse.
  pose proof (parse_iso_string t Ht) as Hp.
  pose proof (civil_from_days_spec (t / msPerDay)) as Hc.
  destruct (civil_from_days (t / msPerDay)) as [[y mo] d]. rewrite Hp.
  destruct Hc as (Hdays & Hmo & Hd & _).
  unfold msPerDay in *. set (ms := t mod 86400000).
  assert (0 <= ms < 86400000) by (apply Z.mod_pos_bound; lia).
  pose proof (time_of_day_bounds ms ltac:(lia)).
  unfold iso_in_bounds, iso_local_value. cbn [f_minus_zero f_month f_day f_hour f_minute f_second
    f_ms f_zone f_year negb].
  replace (_ && _) with true
    by (symmetry; rewrite !andb_true_iff, orb_true_iff, !Z.leb_le; intuition lia).
  rewrite make_day_civil, Hdays by lia.
  unfold make_date, make_time, time_clip, msPerDay.
  replace (t / 86400000 * 86400000 + _) with t by (subst ms; Z.to_euclidean_division_equations; lia).
  rewrite (proj2 (Z.leb_le _ _) Ht). reflexivity.
Qed.

End RoundTrip.

(** The ISO text is the year's text and 20 more characters. *)
Lemma to_iso_string_length_year t :
  let '(y, _, _) := civil_from_days (t / 86400000) in
  String.length (to_iso_string t) = (String.length (iso_year y) + 20)%nat.
Proof.
  unfold to_iso_string.
  pose proof (civil_from_days_spec (t / 86400000)) as Hc.
  destruct (civil_from_days (t / 86400000)) as [[y mo] d].
  destruct Hc as (_ & Hmo & Hd & _).
  set (ms := t mod 86400000).
  assert (0 <= ms < 86400000) by (apply Z.mod_pos_bound; lia).
  pose proof (time_of_day_bounds ms ltac:(lia)).
  rewrite !string_length_app, !pad_length by (simpl; lia). cbn [String.length]. lia.
Qed.

(** A time value's year has at most six digits. *)
Lemma civil_year_bound t :
  Z.abs t <= 8640000000000000 ->
  let '(y, _, _) := civil_from_days (t / 86400000) in -999999 <= y <= 999999.
Proof.
  intros Ht. pose proof (civil_from_days_spec (t / 86400000)) as Hc.
  destruct (civil_from_days (t / 86400000)) as [[y mo] d]. destruct Hc as (_ & _ & _ & Hy).
  Z.to_euclidean_division_equations. lia.
Qed.

(** the text [toISOString] writes has 24 characters
    ([YYYY-MM-DDTHH:mm:ss.sssZ]) for the time values of years 0 to 9999
    and 27 ([+YYYYYY] or [-YYYYYY] years) for the others. *)
Theorem to_iso_string_length t :
  Z.abs t <= 8640000000000000 ->
  String.length (to_iso_string t) =
  if (-62167219200000 <=? t) && (t <? 253402300800000) then 24%nat else 27%nat.
Proof.
  intros Ht. pose proof (to_iso_string_length_year t) as Hl. pose proof (civil_year_bound t Ht) as Hb.
  pose proof (civil_from_days_spec (t / 86400000)) as Hc.
  destruct (civil_from_days (t / 86400000)) as [[y mo] d].
  destruct Hc as (Hdays & Hmo & Hd & _).
  destruct (days_from_civil_year_range y mo d Hmo Hd) as [R0 R1]. rewrite Hdays in R0, R1.
  rewrite Hl, iso_year_length by exact Hb.
  destruct ((0 <=? y) && (y <=? 9999)) eqn:E1;
    destruct ((-62167219200000 <=? t) && (t <? 253402300800000)) eqn:E2; try reflexivity;
    exfalso; rewrite ?andb_true_iff, ?andb_false_iff, ?Z.leb_le, ?Z.leb_gt, ?Z.ltb_lt, ?Z.ltb_ge
      in E1, E2; Z.to_euclidean_division_equations; lia.
Qed.

(** The ISO text of a time value is never shorter than 24 characters. *)
Lemma to_iso_string_long t :
  Z.abs t <= 8640000000000000 -> (24 <= String.length (to_iso_string t))%nat.
Proof.
  intros Ht. pose proof (to_iso_string_length_year t) as Hl. pose proof (civil_year_bound t Ht) as Hb.
  destruct (civil_from_days (t / 86400000)) as [[y mo] d].
  rewrite Hl, iso_year_length by exact Hb. destruct (_ && _); lia.
Qed.

(** ** A host for concrete runs: UTC, no other formats, a 24-hour clock *)

Module UtcHost.

#[export] Instance utc : DateEnv := {|
  local_tza := fun _ _ => 0;
  parse_fallback := fun _ => None;
  number_to_string := fun m e => int_to_string (m * 10 ^ e);
  locale_hour_minute := fun h m => (pad 2 h ++ ":" ++ pad 2 m)%string
|}.

Example parse_documented : date_parse "2024-01-01T12:00:00Z"%string = Some 1704110400000.
Proof. vm_compute. reflexivity. Qed.

Example parse_offset : date_parse "2024-01-01T12:00+02:00"%string = Some 1704103200000.
Proof. vm_compute. reflexivity. Qed.

Example parse_date_only : date_parse "2024-03"%string = Some 1709251200000.
Proof. vm_compute. reflexivity. Qed.

Example parse_month_13 : date_parse "2024-13-01"%string = None.
Proof. vm_compute. reflexivity. Qed.

Example parse_end_of_day : date_parse "2024-01-01T24:00Z"%string = Some 1704153600000.
Proof. vm_compute. reflexivity. Qed.

Lemma iso_roundtrip_witness :
  Z.abs 1700000000123 <= 8640000000000000 /\
  date_parse (to_iso_string 1700000000123) = Some 1700000000123.
Proof. split; [lia|apply iso_roundtrip; lia]. Defined.

Lemma to_iso_string_length_witness :
  Z.abs (-62198755200000) <= 8640000000000000 /\
  String.length (to_iso_string (-62198755200000)) = 27%nat.
Proof. split; [lia|apply (to_iso_string_length (-62198755200000)); lia]. Defined.

Lemma make_day_ecma_witness :
  0 <= 1 < 12 /\ make_day 2024 1 1 = day_from_year 2024 + month_start (in_leap_year 2024) 1.
Proof. split; [lia|apply make_day_ecma; lia]. Defined.

End UtcHost.
