(* ===== verification/Json.v ===== *)
(** [JSON.stringify] and [JSON.parse], on the model's 8-bit strings.

    The hook writes frames with [JSON.stringify] (useWebSocket.ts lines
    53-56 and 177) and reads them with [JSON.parse] (line 61).  Both are
    library functions; they are written here from ECMA-404 and ECMA-262
    (QuoteJSONString, SerializeJSONObject, SerializeJSONArray, and the
    JSON grammar) so that the frames the model writes and reads are text,
    as on the wire.

    [stringify] returns [None] where the model leaves the library: a
    number (the code never writes one) or a top-level [undefined].
    [parse_value] and its companions are one mutual fixpoint on a fuel
    argument; [parse] runs them with fuel [3 * length + 3]. *)

From Stdlib Require Import String List Bool ZArith Lia Ascii.
From S2P Require Import Spec2Rocq JsValue JsRuntime.
Import ListNotations.

(** ** Serialisation *)

Definition lower_hex (k : N) : ascii :=
  ascii_of_N (if (k <? 10)%N then 48 + k else 87 + k)%N.

(** One code unit inside a JSON string literal (QuoteJSONString). *)
Definition quote_char (c : ascii) : list ascii :=
  let n := code c in
  if (n =? 8)%N then ["\"; "b"]%char
  else if (n =? 9)%N then ["\"; "t"]%char
  else if (n =? 10)%N then ["\"; "n"]%char
  else if (n =? 12)%N then ["\"; "f"]%char
  else if (n =? 13)%N then ["\"; "r"]%char
  else if (n =? 34)%N then ["\"; "034"]%char
  else if (n =? 92)%N then ["\"; "\"]%char
  else if (n <? 32)%N then
    ["\"; "u"; "0"; "0"; lower_hex (n / 16); lower_hex (n mod 16)]%char
  else [c].

Definition quote (s : string) : list ascii :=
  "034"%char :: flat_map quote_char (list_ascii_of_string s) ++ ["034"%char].

(** All the elements are present. *)
Fixpoint all_some {A} (l : list (option A)) : option (list A) :=
  match l with
  | [] => Some []
  | Some x :: r => option_map (cons x) (all_some r)
  | None :: _ => None
  end.

Fixpoint intercalate (sep : ascii) (parts : list (list ascii)) : list ascii :=
  match parts with
  | [] => []
  | [p] => p
  | p :: r => p ++ sep :: intercalate sep r
  end.

Definition lit_null : list ascii := ["n"; "u"; "l"; "l"]%char.
Definition lit_true : list ascii := ["t"; "r"; "u"; "e"]%char.
Definition lit_false : list ascii := ["f"; "a"; "l"; "s"; "e"]%char.

(** The elements of an array, with [null] for [undefined]
    (SerializeJSONArray). *)
Fixpoint ser_elems (ser : jsv -> option (list ascii)) (l : list jsv)
    : list (option (list ascii)) :=
  match l with
  | [] => []
  | JUndefined :: r => Some lit_null :: ser_elems ser r
  | x :: r => ser x :: ser_elems ser r
  end.

(** The members of an object, without those whose value is [undefined]
    (SerializeJSONObject). *)
Fixpoint ser_members (ser : jsv -> option (list ascii)) (ps : list (string * jsv))
    : list (option (list ascii)) :=
  match ps with
  | [] => []
  | (_, JUndefined) :: r => ser_members ser r
  | (k, x) :: r =>
      option_map (fun t => quote k ++ ":"%char :: t) (ser x) :: ser_members ser r
  end.

(** SerializeJSONProperty: [undefined] and numbers have no text here. *)
Fixpoint ser (v : jsv) : option (list ascii) :=
  match v with
  | JUndefined => None
  | JNull => Some lit_null
  | JBool true => Some lit_true
  | JBool false => Some lit_false
  | JNum _ _ => None
  | JStr s => Some (quote s)
  | JArr l =>
      option_map (fun parts => "["%char :: intercalate ","%char parts ++ ["]"%char])
        (all_some (ser_elems ser l))
  | JObj ps =>
      option_map (fun parts => "{"%char :: intercalate ","%char parts ++ ["}"%char])
        (all_some (ser_members ser ps))
  end.

Definition stringify (v : jsv) : option string :=
  option_map string_of_list_ascii (ser v).

(** ** Parsing *)

Inductive presult (A : Type) : Type :=
| Parsed (a : A) (rest : list ascii)
| Fail
| OutOfFuel.
Arguments Parsed {A}. Arguments Fail {A}. Arguments OutOfFuel {A}.

(** JSON white space: TAB, LF, CR and SPACE. *)
Definition json_ws (c : ascii) : bool :=
  existsb (N.eqb (code c)) [9; 10; 13; 32]%N.

Fixpoint skip_ws (l : list ascii) : list ascii :=
  match l with
  | c :: r => if json_ws c then skip_ws r else l
  | [] => []
  end.

Definition is_digit (c : ascii) : bool := ((48 <=? code c) && (code c <=? 57))%N.

Fixpoint span_digits (l : list ascii) : list ascii * list ascii :=
  match l with
  | c :: r => if is_digit c then let '(d, r') := span_digits r in (c :: d, r')
              else ([], l)
  | [] => ([], [])
  end.

Definition digits_value (d : list ascii) : Z :=
  fold_left (fun acc c => 10 * acc + Z.of_N (code c - 48))%Z d 0%Z.

(** The fraction of a number: [.] and at least one digit, or nothing. *)
Definition parse_frac (l : list ascii) : option (list ascii * list ascii) :=
  match l with
  | c :: r =>
      if Ascii.eqb c "."%char then
        let '(d, r') := span_digits r in
        match d with [] => None | _ => Some (d, r') end
      else Some ([], l)
  | [] => Some ([], [])
  end.

(** The sign of an exponent. *)
Definition parse_sign (l : list ascii) : Z * list ascii :=
  match l with
  | c :: r =>
      if Ascii.eqb c "+"%char then (1%Z, r)
      else if Ascii.eqb c "-"%char then ((-1)%Z, r)
      else (1%Z, l)
  | [] => (1%Z, [])
  end.

(** The exponent of a number: [e] or [E], a sign, digits; or nothing. *)
Definition parse_exp (l : list ascii) : option (Z * list ascii) :=
  match l with
  | c :: r =>
      if (Ascii.eqb c "e" || Ascii.eqb c "E")%char then
        let '(sgn, r2) := parse_sign r in
        let '(d, r3) := span_digits r2 in
        match d with
        | [] => None
        | _ => Some ((sgn * digits_value d)%Z, r3)
        end
      else Some (0%Z, l)
  | [] => Some (0%Z, [])
  end.

(** The integer part: [0], or digits not starting with [0]. *)
Definition parse_int (l : list ascii) : list ascii * list ascii :=
  match l with
  | c :: r => if Ascii.eqb c "0"%char then ([c], r) else span_digits l
  | [] => ([], [])
  end.

(** The minus sign of a number. *)
Definition parse_minus (l : list ascii) : bool * list ascii :=
  match l with
  | c :: r => if Ascii.eqb c "-"%char then (true, r) else (false, l)
  | [] => (false, [])
  end.

(** A number: [-]? int fraction? exponent?, as [m * 10^e]. *)
Definition parse_number (l : list ascii) : option (jsv * list ascii) :=
  let '(neg, l1) := parse_minus l in
  let '(int, l2) := parse_int l1 in
  match int with
  | [] => None
  | _ =>
      match parse_frac l2 with
      | None => None
      | Some (f, l3) =>
          match parse_exp l3 with
          | None => None
          | Some (e, r) =>
              let m := digits_value (int ++ f) in
              Some (JNum (if neg then Z.opp m else m)
                         (e - Z.of_nat (length f))%Z, r)
          end
      end
  end.

(** The one-character escapes after a backslash. *)
Definition simple_escape (e : ascii) : option ascii :=
  match e with
  | "034"%char => Some "034"%char
  | "\"%char => Some "\"%char
  | "/"%char => Some "/"%char
  | "b"%char => Some (ascii_of_N 8)
  | "f"%char => Some (ascii_of_N 12)
  | "n"%char => Some (ascii_of_N 10)
  | "r"%char => Some (ascii_of_N 13)
  | "t"%char => Some (ascii_of_N 9)
  | _ => None
  end.

(** The characters of a string literal after its opening quote, and what
    follows its closing quote.  [\uXXXX] above [00FF] is outside the
    model. *)
Fixpoint parse_chars (l : list ascii) : option (list ascii * list ascii) :=
  match l with
  | [] => None
  | "\"%char :: "u"%char :: a :: b :: c :: d :: r =>
      match hex_byte a b, hex_byte c d with
      | Some 0%N, Some lo =>
          option_map (fun '(s, r') => (ascii_of_N lo :: s, r')) (parse_chars r)
      | _, _ => None
      end
  | "\"%char :: e :: r =>
      match simple_escape e with
      | Some x => option_map (fun '(s, r') => (x :: s, r')) (parse_chars r)
      | None => None
      end
  | c :: r =>
      if Ascii.eqb c "034"%char then Some ([], r)
      else if (code c <? 32)%N then None
      else option_map (fun '(s, r') => (c :: s, r')) (parse_chars r)
  end.

Definition parse_string (l : list ascii) : option (string * list ascii) :=
  option_map (fun '(s, r) => (string_of_list_ascii s, r)) (parse_chars l).

(** CreateDataProperty on a parsed object: a repeated key keeps its first
    position and takes the last value. *)
Fixpoint obj_set (k : string) (v : jsv) (ps : list (string * jsv)) :
    list (string * jsv) :=
  match ps with
  | [] => [(k, v)]
  | (k', v') :: r =>
      if String.eqb k k' then (k', v) :: r else (k', v') :: obj_set k v r
  end.

(** A member's key and its colon. *)
Definition parse_key (l : list ascii) : option (string * list ascii) :=
  match skip_ws l with
  | c :: r =>
      if Ascii.eqb c "034"%char then
        match parse_string r with
        | Some (k, r1) =>
            match skip_ws r1 with
            | d :: r2 => if Ascii.eqb d ":"%char then Some (k, r2) else None
            | [] => None
            end
        | None => None
        end
      else None
  | [] => None
  end.

(** [p] starts [l]: what follows it. *)
Fixpoint strip_prefix (p l : list ascii) : option (list ascii) :=
  match p, l with
  | [], _ => Some l
  | c :: p', d :: l' => if Ascii.eqb c d then strip_prefix p' l' else None
  | _ :: _, [] => None
  end.

(** A value that contains no other value: a literal, a string, a number. *)
Definition parse_atom (l : list ascii) : option (jsv * list ascii) :=
  match l with
  | c :: r =>
      if Ascii.eqb c "034"%char then
        option_map (fun '(s, r') => (JStr s, r')) (parse_string r)
      else match strip_prefix lit_null l with
      | Some r' => Some (JNull, r')
      | None => match strip_prefix lit_true l with
      | Some r' => Some (JBool true, r')
      | None => match strip_prefix lit_false l with
      | Some r' => Some (JBool false, r')
      | None => parse_number l
      end end end
  | [] => None
  end.

Fixpoint parse_value (fuel : nat) (l : list ascii) : presult jsv :=
  match fuel with
  | O => OutOfFuel
  | S f =>
      match skip_ws l with
      | c :: r =>
          if Ascii.eqb c "["%char then parse_array f r
          else if Ascii.eqb c "{"%char then parse_object f r
          else match parse_atom (c :: r) with
               | Some (v, r') => Parsed v r'
               | None => Fail
               end
      | [] => Fail
      end
  end

(** After [\[]. *)
with parse_array (fuel : nat) (l : list ascii) : presult jsv :=
  match fuel with
  | O => OutOfFuel
  | S f =>
      match skip_ws l with
      | c :: r => if Ascii.eqb c "]"%char then Parsed (JArr []) r
                  else parse_items f l []
      | [] => Fail
      end
  end

(** At an element, [acc] holding the elements before it. *)
with parse_items (fuel : nat) (l : list ascii) (acc : list jsv) : presult jsv :=
  match fuel with
  | O => OutOfFuel
  | S f =>
      match parse_value f l with
      | Parsed v r =>
          match skip_ws r with
          | c :: r' =>
              if Ascii.eqb c ","%char then parse_items f r' (acc ++ [v])
              else if Ascii.eqb c "]"%char then Parsed (JArr (acc ++ [v])) r'
              else Fail
          | [] => Fail
          end
      | Fail => Fail
      | OutOfFuel => OutOfFuel
      end
  end

(** After [{]. *)
with parse_object (fuel : nat) (l : list ascii) : presult jsv :=
  match fuel with
  | O => OutOfFuel
  | S f =>
      match skip_ws l with
      | c :: r => if Ascii.eqb c "}"%char then Parsed (JObj []) r
                  else parse_members f l []
      | [] => Fail
      end
  end

(** At a member, [acc] holding the properties read so far. *)
with parse_members (fuel : nat) (l : list ascii) (acc : list (string * jsv))
    : presult jsv :=
  match fuel with
  | O => OutOfFuel
  | S f =>
      match parse_key l with
      | Some (k, r2) =>
          match parse_value f r2 with
          | Parsed v r3 =>
              match skip_ws r3 with
              | c :: r4 =>
                  if Ascii.eqb c ","%char then parse_members f r4 (obj_set k v acc)
                  else if Ascii.eqb c "}"%char then Parsed (JObj (obj_set k v acc)) r4
                  else Fail
              | [] => Fail
              end
          | Fail => Fail
          | OutOfFuel => OutOfFuel
          end
      | None => Fail
      end
  end.

Definition parse_fuel (l : list ascii) : nat := 3 * length l + 3.

(** [JSON.parse(text)]: one value and nothing but white space after it.
    Running out of fuel is reported apart from a syntax error; the theorem
    [parse_never_out_of_fuel] shows it does not happen. *)
Definition parse_text (text : string) : presult jsv :=
  let l := list_ascii_of_string text in
  match parse_value (parse_fuel l) l with
  | Parsed v r => match skip_ws r with [] => Parsed v [] | _ => Fail end
  | Fail => Fail
  | OutOfFuel => OutOfFuel
  end.

Definition json_parse (text : string) : exn + jsv :=
  match parse_text text with
  | Parsed v _ => inr v
  | _ => inl SyntaxError
  end.

Local Open Scope string_scope.

Example json_parse_example :
  json_parse (q "{ 'type': 'message', 'id': 'm1', 'delivered': true, 'n': -1.5e2 }")
  = inr (JObj [("type", JStr "message"); ("id", JStr "m1");
               ("delivered", JBool true); ("n", JNum (-15) 1)]).
Proof. vm_compute. reflexivity. Qed.

Example json_parse_duplicate :
  json_parse (q "{'a':1,'b':2,'a':[null]}")
  = inr (JObj [("a", JArr [JNull]); ("b", JNum 2 0)]).
Proof. vm_compute. reflexivity. Qed.

Example json_parse_trailing_comma : json_parse "[1,]" = inl SyntaxError.
Proof. vm_compute. reflexivity. Qed.

Example stringify_example :
  stringify (JObj [("type", JStr "get_recent_messages"); ("userId", JStr (q "u'1"))])
  = Some (q "{'type':'get_recent_messages','userId':'u\'1'}").
Proof. vm_compute. reflexivity. Qed.

Local Close Scope string_scope.

(** ** The parser's fuel *)

(** One step of each function of the parser. *)
Section Unfold.
Variable f : nat.

Lemma parse_value_S l :
  parse_value (S f) l =
  match skip_ws l with
  | c :: r =>
      if Ascii.eqb c "["%char then parse_array f r
      else if Ascii.eqb c "{"%char then parse_object f r
      else match parse_atom (c :: r) with
           | Some (v, r') => Parsed v r'
           | None => Fail
           end
  | [] => Fail
  end.
Proof. reflexivity. Qed.

Lemma parse_array_S l :
  parse_array (S f) l =
  match skip_ws l with
  | c :: r => if Ascii.eqb c "]"%char then Parsed (JArr []) r
              else parse_items f l []
  | [] => Fail
  end.
Proof. reflexivity. Qed.

Lemma parse_items_S l acc :
  parse_items (S f) l acc =
  match parse_value f l with
  | Parsed v r =>
      match skip_ws r with
      | c :: r' =>
          if Ascii.eqb c ","%char then parse_items f r' (acc ++ [v])
          else if Ascii.eqb c "]"%char then Parsed (JArr (acc ++ [v])) r'
          else Fail
      | [] => Fail
      end
  | Fail => Fail
  | OutOfFuel => OutOfFuel
  end.
Proof. reflexivity. Qed.

Lemma parse_object_S l :
  parse_object (S f) l =
  match skip_ws l with
  | c :: r => if Ascii.eqb c "}"%char then Parsed (JObj []) r
              else parse_members f l []
  | [] => Fail
  end.
Proof. reflexivity. Qed.

Lemma parse_members_S l acc :
  parse_members (S f) l acc =
  match parse_key l with
  | Some (k, r2) =>
      match parse_value f r2 with
      | Parsed v r3 =>
          match skip_ws r3 with
          | c :: r4 =>
              if Ascii.eqb c ","%char then parse_members f r4 (obj_set k v acc)
              else if Ascii.eqb c "}"%char then Parsed (JObj (obj_set k v acc)) r4
              else Fail
          | [] => Fail
          end
      | Fail => Fail
      | OutOfFuel => OutOfFuel
      end
  | None => Fail
  end.
Proof. reflexivity. Qed.
End Unfold.

(** One more unit of fuel changes no result that was not [OutOfFuel]. *)
Lemma parse_fuel_step f :
  (forall l, parse_value f l <> OutOfFuel -> parse_value (S f) l = parse_value f l) /\
  (forall l, parse_array f l <> OutOfFuel -> parse_array (S f) l = parse_array f l) /\
  (forall l acc, parse_items f l acc <> OutOfFuel ->
                 parse_items (S f) l acc = parse_items f l acc) /\
  (forall l, parse_object f l <> OutOfFuel -> parse_object (S f) l = parse_object f l) /\
  (forall l acc, parse_members f l acc <> OutOfFuel ->
                 parse_members (S f) l acc = parse_members f l acc).
Proof.
  induction f as [|f (Hv & Ha & Hi & Ho & Hm)].
  { repeat split; intros; simpl in *; congruence. }
  repeat split.
  - intros l H. rewrite parse_value_S in H |- *. rewrite parse_value_S.
    destruct (skip_ws l) as [|c r]; auto.
    destruct (Ascii.eqb c "["%char); [now apply Ha|].
    destruct (Ascii.eqb c "{"%char); [now apply Ho|reflexivity].
  - intros l H. rewrite parse_array_S in H |- *. rewrite parse_array_S.
    destruct (skip_ws l) as [|c r]; auto.
    destruct (Ascii.eqb c "]"%char); auto.
  - intros l acc H. rewrite parse_items_S in H |- *. rewrite parse_items_S.
    destruct (parse_value f l) as [v r| |] eqn:E; [| |congruence];
      rewrite Hv, E by congruence; [|reflexivity].
    destruct (skip_ws r) as [|c r']; auto.
    destruct (Ascii.eqb c ","%char); auto.
  - intros l H. rewrite parse_object_S in H |- *. rewrite parse_object_S.
    destruct (skip_ws l) as [|c r]; auto.
    destruct (Ascii.eqb c "}"%char); auto.
  - intros l acc H. rewrite parse_members_S in H |- *. rewrite parse_members_S.
    destruct (parse_key l) as [[k r2]|]; auto.
    destruct (parse_value f r2) as [v r| |] eqn:E; [| |congruence];
      rewrite Hv, E by congruence; [|reflexivity].
    destruct (skip_ws r) as [|c r']; auto.
    destruct (Ascii.eqb c ","%char); auto.
Qed.

(** Hence any larger fuel gives the same result. *)
Lemma parse_value_mono f f' l :
  f <= f' -> parse_value f l <> OutOfFuel -> parse_value f' l = parse_value f l.
Proof.
  induction 1 as [|f' Hle IH]; intros H; auto.
  rewrite (proj1 (parse_fuel_step f')); [auto|]. now rewrite IH.
Qed.

(** *** Every function of the parser consumes input *)

Lemma skip_ws_length l : length (skip_ws l) <= length l.
Proof. induction l as [|c l IH]; simpl; [lia|]. destruct (json_ws c); simpl; lia. Qed.

Lemma span_digits_app l d r : span_digits l = (d, r) -> l = d ++ r.
Proof.
  revert d r; induction l as [|c l IH]; simpl; intros d r H.
  - now injection H as <- <-.
  - destruct (is_digit c).
    + destruct (span_digits l) as [d' r'] eqn:E. injection H as <- <-.
      simpl. f_equal. now apply IH.
    + now injection H as <- <-.
Qed.

Lemma parse_frac_length l f r : parse_frac l = Some (f, r) -> length r <= length l.
Proof.
  unfold parse_frac. destruct l as [|c l]; [intros H; injection H as _ <-; simpl; lia|].
  destruct (Ascii.eqb c "."%char); [|intros H; injection H as _ <-; lia].
  destruct (span_digits l) as [d r'] eqn:E. apply span_digits_app in E. subst l.
  destruct d; [discriminate|]. intros H; injection H as _ <-.
  simpl. rewrite length_app. lia.
Qed.

Lemma parse_sign_length l : length (snd (parse_sign l)) <= length l.
Proof.
  unfold parse_sign. destruct l as [|c l]; simpl; [lia|].
  destruct (Ascii.eqb c "+"%char); [simpl; lia|].
  destruct (Ascii.eqb c "-"%char); simpl; lia.
Qed.

Lemma parse_exp_length l e r : parse_exp l = Some (e, r) -> length r <= length l.
Proof.
  unfold parse_exp. destruct l as [|c l]; [intros H; injection H as _ <-; simpl; lia|].
  destruct (_ || _)%bool; [|intros H; injection H as _ <-; lia].
  pose proof (parse_sign_length l) as Hs.
  destruct (parse_sign l) as [sgn r2]. simpl in Hs.
  destruct (span_digits r2) as [d r3] eqn:E. apply span_digits_app in E. subst r2.
  destruct d; [discriminate|]. intros H; injection H as _ <-.
  simpl in *. rewrite length_app in Hs. lia.
Qed.

Lemma parse_int_app l i r : parse_int l = (i, r) -> l = i ++ r.
Proof.
  unfold parse_int. destruct l as [|c l]; [intros H; now injection H as <- <-|].
  destruct (Ascii.eqb c "0"%char); [intros H; now injection H as <- <-|].
  apply span_digits_app.
Qed.

Lemma parse_number_length l v r : parse_number l = Some (v, r) -> length r < length l.
Proof.
  unfold parse_number. intros H.
  assert (Hneg : length (snd (parse_minus l)) <= length l).
  { unfold parse_minus. destruct l as [|c l']; simpl; [lia|].
    destruct (Ascii.eqb c "-"%char); simpl; lia. }
  destruct (parse_minus l) as [neg l1]; simpl in Hneg.
  destruct (parse_int l1) as [int l2] eqn:Ei. apply parse_int_app in Ei. subst l1.
  destruct int as [|d int]; [discriminate|].
  destruct (parse_frac l2) as [[f l3]|] eqn:Ef; [|discriminate].
  destruct (parse_exp l3) as [[e r']|] eqn:Ee; [|discriminate].
  injection H as _ <-.
  apply parse_frac_length in Ef. apply parse_exp_length in Ee.
  simpl in Hneg. rewrite length_app in Hneg. lia.
Qed.

Lemma parse_chars_length l s r : parse_chars l = Some (s, r) -> length r < length l.
Proof.
  remember (length l) as n eqn:Hn. revert l s r Hn.
  induction n as [n IH] using (well_founded_induction lt_wf). intros l s r ->.
  destruct l as [|c l]; [discriminate|].
  assert (Hcont : forall x l' s' r', length l' < length (c :: l) ->
            option_map (fun '(s0, r0) => (x :: s0, r0)) (parse_chars l') = Some (s', r') ->
            length r' < length (c :: l)).
  { intros x l' s' r' Hlt E. destruct (parse_chars l') as [[s0 r0]|] eqn:E0; [|discriminate].
    injection E as _ <-. apply (IH _ Hlt) in E0; [lia|reflexivity]. }
  simpl. (* the escape cases and the plain character case *)
  repeat match goal with
  | |- context [if ?b then _ else _] => destruct b eqn:?
  | |- context [match ?x with _ => _ end] =>
      match x with
      | parse_chars _ => fail 1
      | _ => destruct x eqn:?
      end
  end; intros E; try discriminate;
  try (injection E as _ <-; simpl; lia);
  (eapply Hcont; [|exact E]; simpl; lia).
Qed.

Lemma parse_string_length l s r : parse_string l = Some (s, r) -> length r < length l.
Proof.
  unfold parse_string. destruct (parse_chars l) as [[s0 r0]|] eqn:E; [|discriminate].
  intros H; injection H as _ <-. eapply parse_chars_length; eauto.
Qed.

Lemma strip_prefix_length p l r :
  strip_prefix p l = Some r -> length r + length p = length l.
Proof.
  revert l; induction p as [|c p IH]; intros [|d l]; simpl; intros H;
    try discriminate.
  - injection H as <-. simpl. lia.
  - injection H as <-. simpl. lia.
  - destruct (Ascii.eqb c d); [|discriminate]. apply IH in H. simpl. lia.
Qed.

Lemma parse_atom_length l v r : parse_atom l = Some (v, r) -> length r < length l.
Proof.
  unfold parse_atom. destruct l as [|c l']; [discriminate|].
  destruct (Ascii.eqb c "034"%char).
  { destruct (parse_string l') as [[s r0]|] eqn:E; [|discriminate].
    intros H; injection H as _ <-. apply parse_string_length in E. simpl; lia. }
  destruct (strip_prefix lit_null _) as [r0|] eqn:E1.
  { intros H; injection H as _ <-. apply strip_prefix_length in E1. simpl in *; lia. }
  destruct (strip_prefix lit_true _) as [r0|] eqn:E2.
  { intros H; injection H as _ <-. apply strip_prefix_length in E2. simpl in *; lia. }
  destruct (strip_prefix lit_false _) as [r0|] eqn:E3.
  { intros H; injection H as _ <-. apply strip_prefix_length in E3. simpl in *; lia. }
  apply parse_number_length.
Qed.

Lemma parse_key_length l k r : parse_key l = Some (k, r) -> length r < length l.
Proof.
  unfold parse_key. pose proof (skip_ws_length l) as Hl.
  destruct (skip_ws l) as [|c r0]; [discriminate|].
  destruct (Ascii.eqb c "034"%char); [|discriminate].
  destruct (parse_string r0) as [[k0 r1]|] eqn:E; [|discriminate].
  apply parse_string_length in E. pose proof (skip_ws_length r1) as Hr1.
  destruct (skip_ws r1) as [|d r2]; [discriminate|].
  destruct (Ascii.eqb d ":"%char); [|discriminate].
  intros H; injection H as _ <-. simpl in *. lia.
Qed.

(** The rest after a [Parsed] result is shorter than the input. *)
Lemma parse_consumes f :
  (forall l v r, parse_value f l = Parsed v r -> length r < length l) /\
  (forall l v r, parse_array f l = Parsed v r -> length r < length l) /\
  (forall l acc v r, parse_items f l acc = Parsed v r -> length r < length l) /\
  (forall l v r, parse_object f l = Parsed v r -> length r < length l) /\
  (forall l acc v r, parse_members f l acc = Parsed v r -> length r < length l).
Proof.
  induction f as [|f (Hv & Ha & Hi & Ho & Hm)].
  { repeat split; intros; discriminate. }
  repeat split.
  - intros l v r. rewrite parse_value_S. pose proof (skip_ws_length l) as Hl.
    destruct (skip_ws l) as [|c r0]; [discriminate|].
    destruct (Ascii.eqb c "["%char).
    { intros H. apply Ha in H. simpl in Hl. lia. }
    destruct (Ascii.eqb c "{"%char).
    { intros H. apply Ho in H. simpl in Hl. lia. }
    destruct (parse_atom (c :: r0)) as [[v0 r1]|] eqn:E; [|discriminate].
    intros H; injection H as _ <-. apply parse_atom_length in E. lia.
  - intros l v r. rewrite parse_array_S. pose proof (skip_ws_length l) as Hl.
    destruct (skip_ws l) as [|c r0]; [discriminate|].
    destruct (Ascii.eqb c "]"%char); [|apply Hi].
    intros H; injection H as _ <-. simpl in Hl. lia.
  - intros l acc v r. rewrite parse_items_S.
    destruct (parse_value f l) as [v0 r0| |] eqn:E; try discriminate.
    apply Hv in E. pose proof (skip_ws_length r0) as Hr0.
    destruct (skip_ws r0) as [|c r1]; [discriminate|]. simpl in Hr0.
    destruct (Ascii.eqb c ","%char).
    { intros H. apply Hi in H. lia. }
    destruct (Ascii.eqb c "]"%char); [|discriminate].
    intros H; injection H as _ <-. lia.
  - intros l v r. rewrite parse_object_S. pose proof (skip_ws_length l) as Hl.
    destruct (skip_ws l) as [|c r0]; [discriminate|].
    destruct (Ascii.eqb c "}"%char); [|apply Hm].
    intros H; injection H as _ <-. simpl in Hl. lia.
  - intros l acc v r. rewrite parse_members_S.
    destruct (parse_key l) as [[k r2]|] eqn:Ek; [|discriminate].
    apply parse_key_length in Ek.
    destruct (parse_value f r2) as [v0 r0| |] eqn:E; try discriminate.
    apply Hv in E. pose proof (skip_ws_length r0) as Hr0.
    destruct (skip_ws r0) as [|c r1]; [discriminate|]. simpl in Hr0.
    destruct (Ascii.eqb c ","%char).
    { intros H. apply Hm in H. lia. }
    destruct (Ascii.eqb c "}"%char); [|discriminate].
    intros H; injection H as _ <-. lia.
Qed.

(** *** The fuel [parse_fuel] is enough *)

(** Each call either consumes a character or moves from [parse_array] to
    [parse_items] to [parse_value] on the same input, so three units of
    fuel per character suffice. *)
Lemma parse_enough_fuel n :
  forall l, length l <= n ->
  (forall f, 3 * length l + 1 <= f -> parse_value f l <> OutOfFuel) /\
  (forall f acc, 3 * length l + 2 <= f -> parse_items f l acc <> OutOfFuel) /\
  (forall f, 3 * length l + 3 <= f -> parse_array f l <> OutOfFuel) /\
  (forall f acc, 3 * length l + 2 <= f -> parse_members f l acc <> OutOfFuel) /\
  (forall f, 3 * length l + 3 <= f -> parse_object f l <> OutOfFuel).
Proof.
  induction n as [n IH] using (well_founded_induction lt_wf). intros l Hl.
  assert (IHs : forall r, length r < length l ->
    (forall f, 3 * length r + 1 <= f -> parse_value f r <> OutOfFuel) /\
    (forall f acc, 3 * length r + 2 <= f -> parse_items f r acc <> OutOfFuel) /\
    (forall f, 3 * length r + 3 <= f -> parse_array f r <> OutOfFuel) /\
    (forall f acc, 3 * length r + 2 <= f -> parse_members f r acc <> OutOfFuel) /\
    (forall f, 3 * length r + 3 <= f -> parse_object f r <> OutOfFuel)).
  { intros r Hr. apply (IH (length r)); lia. }
  assert (Hval : forall f, 3 * length l + 1 <= f -> parse_value f l <> OutOfFuel).
  { intros [|f] Hf; [lia|]. rewrite parse_value_S. pose proof (skip_ws_length l) as Hs.
    destruct (skip_ws l) as [|c r0] eqn:E; [discriminate|]. simpl in Hs.
    destruct (IHs r0) as (_ & _ & Ha & _ & Ho); [lia|].
    destruct (Ascii.eqb c "["%char); [apply Ha; lia|].
    destruct (Ascii.eqb c "{"%char); [apply Ho; lia|].
    destruct (parse_atom (c :: r0)) as [[v r1]|]; discriminate. }
  assert (Hitems : forall f acc, 3 * length l + 2 <= f -> parse_items f l acc <> OutOfFuel).
  { intros [|f] acc Hf; [lia|]. rewrite parse_items_S.
    destruct (parse_value f l) as [v r0| |] eqn:E; try discriminate;
      [|exfalso; apply (Hval f); [lia|exact E]].
    apply (proj1 (parse_consumes f)) in E. pose proof (skip_ws_length r0) as Hs.
    destruct (skip_ws r0) as [|c r1]; [discriminate|]. simpl in Hs.
    destruct (Ascii.eqb c ","%char); [destruct (IHs r1) as (_ & Hi & _); [lia|]; apply Hi; lia|].
    destruct (Ascii.eqb c "]"%char); discriminate. }
  assert (Hmembers : forall f acc, 3 * length l + 2 <= f -> parse_members f l acc <> OutOfFuel).
  { intros [|f] acc Hf; [lia|]. rewrite parse_members_S.
    destruct (parse_key l) as [[k r2]|] eqn:Ek; [|discriminate].
    apply parse_key_length in Ek.
    destruct (parse_value f r2) as [v r3| |] eqn:E; try discriminate;
      [|exfalso; exact (proj1 (IHs r2 Ek) f ltac:(lia) E)].
    apply (proj1 (parse_consumes f)) in E. pose proof (skip_ws_length r3) as Hs.
    destruct (skip_ws r3) as [|c r4]; [discriminate|]. simpl in Hs.
    destruct (Ascii.eqb c ","%char); [destruct (IHs r4) as (_ & _ & _ & Hm & _); [lia|]; apply Hm; lia|].
    destruct (Ascii.eqb c "}"%char); discriminate. }
  repeat split; auto.
  - intros [|f] Hf; [lia|]. rewrite parse_array_S.
    destruct (skip_ws l) as [|c r0]; [discriminate|].
    destruct (Ascii.eqb c "]"%char); [discriminate|apply Hitems; lia].
  - intros [|f] Hf; [lia|]. rewrite parse_object_S.
    destruct (skip_ws l) as [|c r0]; [discriminate|].
    destruct (Ascii.eqb c "}"%char); [discriminate|apply Hmembers; lia].
Qed.

(** [JSON.parse] as modelled never runs out of fuel: its outcome is a
    value or a syntax error. *)
Theorem parse_never_out_of_fuel text : parse_text text <> OutOfFuel.
Proof.
  unfold parse_text, parse_fuel.
  set (l := list_ascii_of_string text).
  destruct (parse_enough_fuel (length l) l (le_n _)) as [Hv _].
  specialize (Hv (3 * length l + 3) ltac:(lia)).
  destruct (parse_value _ l) as [v r| |]; [|discriminate|contradiction].
  destruct (skip_ws r); discriminate.
Qed.

(** ** Round trip of the frames the client writes *)

(** Every frame the hook writes is an object whose values are strings. *)
Definition str_member (kv : string * string) : string * jsv := (fst kv, JStr (snd kv)).

Definition str_obj (kvs : list (string * string)) : jsv := JObj (map str_member kvs).

Definition member_text (kv : string * string) : list ascii :=
  quote (fst kv) ++ ":"%char :: quote (snd kv).

(** Every code unit is read back from its quoted form, whatever follows. *)
Lemma parse_chars_quote_char c r :
  parse_chars (quote_char c ++ r) =
  option_map (fun '(s, r') => (c :: s, r')) (parse_chars r).
Proof. destruct c as [[] [] [] [] [] [] [] []]; reflexivity. Qed.

Lemma parse_chars_quoted cs rest :
  parse_chars (flat_map quote_char cs ++ "034"%char :: rest) = Some (cs, rest).
Proof.
  induction cs as [|c cs IH]; [reflexivity|].
  simpl. rewrite <- app_assoc, parse_chars_quote_char, IH. reflexivity.
Qed.

Lemma parse_string_quote s rest :
  parse_string (flat_map quote_char (list_ascii_of_string s) ++ "034"%char :: rest)
  = Some (s, rest).
Proof.
  unfold parse_string. rewrite parse_chars_quoted. simpl.
  now rewrite string_of_list_ascii_of_string.
Qed.

Lemma quote_cons s rest :
  quote s ++ rest = "034"%char :: flat_map quote_char (list_ascii_of_string s) ++ "034"%char :: rest.
Proof. unfold quote. simpl. now rewrite <- app_assoc. Qed.

Lemma parse_value_quote f s rest :
  parse_value (S f) (quote s ++ rest) = Parsed (JStr s) rest.
Proof.
  rewrite parse_value_S, quote_cons. simpl skip_ws. cbv [Ascii.eqb Bool.eqb].
  unfold parse_atom. simpl Ascii.eqb. cbv iota. now rewrite parse_string_quote.
Qed.

Lemma parse_key_member k s rest :
  parse_key (member_text (k, s) ++ rest) = Some (k, quote s ++ rest).
Proof.
  unfold member_text, parse_key. simpl fst; simpl snd.
  rewrite <- app_assoc, quote_cons. simpl skip_ws. simpl Ascii.eqb. cbv iota.
  rewrite parse_string_quote. reflexivity.
Qed.

(** A fresh key is appended by [obj_set]. *)
Lemma obj_set_fresh k v acc :
  ~ In k (map fst acc) -> obj_set k v acc = acc ++ [(k, v)].
Proof.
  induction acc as [|[k' v'] acc IH]; simpl; intros Hk; auto.
  rewrite string_eqb_neq by (intros ->; auto). f_equal. auto.
Qed.

Lemma intercalate_cons sep p q r :
  intercalate sep (p :: q :: r) = p ++ sep :: intercalate sep (q :: r).
Proof. reflexivity. Qed.

(** Two fuels that both suffice give the same result. *)
Lemma parse_value_fuel_irrel f1 f2 l :
  parse_value f1 l <> OutOfFuel -> parse_value f2 l <> OutOfFuel ->
  parse_value f1 l = parse_value f2 l.
Proof.
  intros H1 H2. destruct (Nat.le_ge_cases f1 f2) as [Hle|Hle].
  - symmetry. now apply parse_value_mono.
  - now apply parse_value_mono.
Qed.

(** The members of a flat object are read back one by one. *)
Lemma parse_members_str kvs : forall f acc rest,
  kvs <> [] -> length kvs < f ->
  NoDup (map fst acc ++ map fst kvs) ->
  parse_members f (intercalate ","%char (map member_text kvs) ++ "}"%char :: rest) acc
  = Parsed (JObj (acc ++ map str_member kvs)) rest.
Proof.
  induction kvs as [|[k s] kvs IH]; intros f acc rest Hne Hf Hnd; [congruence|].
  destruct f as [|f]; [simpl in Hf; lia|]. rewrite parse_members_S.
  assert (Hk : ~ In k (map fst acc)).
  { intros Hin. simpl in Hnd. apply NoDup_remove_2 in Hnd.
    apply Hnd, in_or_app. now left. }
  destruct f as [|f]; [simpl in Hf; lia|].
  destruct kvs as [|kv2 kvs].
  - simpl map. cbn [intercalate]. rewrite parse_key_member, parse_value_quote.
    simpl. rewrite obj_set_fresh by exact Hk. reflexivity.
  - simpl map. rewrite intercalate_cons, <- app_assoc, parse_key_member.
    rewrite <- app_comm_cons, parse_value_quote. simpl skip_ws.
    simpl Ascii.eqb. cbv iota. rewrite obj_set_fresh by exact Hk.
    change (map member_text kvs) with (map member_text kvs).
    rewrite (IH (S f)); [| discriminate | simpl in *; lia |].
    + now rewrite <- app_assoc.
    + rewrite map_app, <- app_assoc. exact Hnd.
Qed.

Lemma all_some_map_some {A B} (g : A -> B) l :
  all_some (map (fun x => Some (g x)) l) = Some (map g l).
Proof. induction l as [|x l IH]; simpl; [|rewrite IH]; reflexivity. Qed.

Lemma ser_str_obj kvs :
  ser (str_obj kvs) =
  Some ("{"%char :: intercalate ","%char (map member_text kvs) ++ ["}"%char]).
Proof.
  unfold str_obj. simpl.
  replace (ser_members ser (map str_member kvs))
    with (map (fun kv => Some (member_text kv)) kvs).
  - now rewrite all_some_map_some.
  - induction kvs as [|[k v] kvs IH]; simpl; [reflexivity|]. now rewrite IH.
Qed.

(** An object whose first member starts with a quote goes to
    [parse_members]. *)
Lemma parse_value_obj_open f l :
  (exists l', l = "034"%char :: l') ->
  parse_value (S (S f)) ("{"%char :: l) = parse_members f l [].
Proof. intros [l' ->]. reflexivity. Qed.

Lemma members_text_head kv kvs rest :
  exists l', intercalate ","%char (map member_text (kv :: kvs)) ++ rest = "034"%char :: l'.
Proof.
  destruct kvs as [|kv2 kvs]; simpl map.
  - cbn [intercalate]. unfold member_text. rewrite <- app_assoc, quote_cons. eauto.
  - rewrite intercalate_cons. unfold member_text at 1.
    rewrite <- !app_assoc, quote_cons. eauto.
Qed.

Lemma parse_value_str_obj kvs rest :
  NoDup (map fst kvs) ->
  parse_value (length kvs + 3)
    ("{"%char :: intercalate ","%char (map member_text kvs) ++ "}"%char :: rest)
  = Parsed (str_obj kvs) rest.
Proof.
  intros Hnd. destruct kvs as [|kv kvs]; [reflexivity|].
  replace (length (kv :: kvs) + 3) with (S (S (length (kv :: kvs) + 1))) by lia.
  rewrite parse_value_obj_open by apply members_text_head.
  apply parse_members_str; [discriminate|lia|exact Hnd].
Qed.

(** Every flat object of strings with distinct keys -- the shape of every
    frame the client writes -- is read back by [JSON.parse] from the text
    [JSON.stringify] gives it. *)
Lemma json_parse_stringify_str_obj kvs :
  NoDup (map fst kvs) ->
  exists text, stringify (str_obj kvs) = Some text /\
               json_parse text = inr (str_obj kvs).
Proof.
  intros Hnd. unfold stringify. rewrite ser_str_obj. eexists; split; [reflexivity|].
  unfold json_parse, parse_text. rewrite list_ascii_of_string_of_list_ascii.
  set (t := "{"%char :: _).
  assert (Ht : parse_value (length kvs + 3) (t ++ []) = Parsed (str_obj kvs) []).
  { unfold t. rewrite <- app_comm_cons, <- app_assoc. now apply parse_value_str_obj. }
  rewrite app_nil_r in Ht.
  rewrite (parse_value_fuel_irrel _ (length kvs + 3)); [rewrite Ht; reflexivity| |].
  - destruct (parse_enough_fuel (length t) t (le_n _)) as [Hv _]. apply Hv. unfold parse_fuel. lia.
  - rewrite Ht. discriminate.
Qed.

(** The termination theorem at a text that is not JSON. *)
Lemma parse_never_out_of_fuel_witness : parse_text "[1,{]"%string <> OutOfFuel.
Proof. apply (parse_never_out_of_fuel "[1,{]"%string). Defined.
