(* ===== verification/Chat.v ===== *)
(** The data model of [src/src/types/chat.ts].

    TypeScript's interfaces are erased at run time: the fields of a
    [Message] hold whatever [JSON.parse] produced for the frame, so they
    are modelled as JavaScript values ([jsv]).  [message_typed] is the
    property the interface declares (five strings and a boolean); the
    theorems of [MessageStore] say when the hook establishes it.  The
    fields of a [ConnectionConfig] come from text inputs and are strings.
    [ChatState] is the React state of the hook. *)

From Stdlib Require Import String List Bool ZArith.
From S2P Require Import Spec2Rocq JsValue.
Import ListNotations.

(** [interface Message] (chat.ts, lines 1-8). *)
Record Message : Type := mkMessage {
  id : jsv;
  content : jsv;
  fromId : jsv;
  toId : jsv;
  timestamp : jsv;
  delivered : jsv
}.

(** [interface ConnectionConfig] (chat.ts, lines 10-15). *)
Record ConnectionConfig : Type := mkConfig {
  serverUrl : string;
  jwtToken : string;
  userId : string;
  recipientId : string
}.

(** [interface ChatState] (chat.ts, lines 17-22); [error : string | null]. *)
Record ChatState : Type := mkChatState {
  isConnected : bool;
  isConnecting : bool;
  messages : list Message;
  error : option string
}.

Definition is_string (v : jsv) : bool := match v with JStr _ => true | _ => false end.
Definition is_boolean (v : jsv) : bool := match v with JBool _ => true | _ => false end.

(** The types [interface Message] declares for its fields. *)
Definition message_typed (m : Message) : bool :=
  is_string (id m) && is_string (content m) && is_string (fromId m) &&
  is_string (toId m) && is_string (timestamp m) && is_boolean (delivered m).
