(* ===== verification/MessageStore.v ===== *)
(** The frame reduction of [ws.onmessage] (useWebSocket.ts, lines 59-95).

    A frame is text.  The handler parses it, builds a [Message] from a
    [message] frame and appends it, or builds one [Message] per element of
    a [recent_messages] frame and replaces the log by them; every other
    frame, and every frame on which an exception is thrown (a parse error,
    a property read on [null]), leaves the state as it was, the exception
    being caught and logged.

    [interpret_frame] is the part of the handler before its [setState]
    (lines 60-85), a pure computation that may throw; [apply_effect] is the
    function given to [setState] (lines 73-76 and 87-90); [reduce_frame] is
    the whole handler's effect on the state, catch included.  The receipt
    time [now] stands for [Date.now()] during one run of the handler. *)

From Stdlib Require Import String List Bool ZArith Lia.
From S2P Require Import Spec2Rocq JsValue JsRuntime Json Chat.
Import ListNotations.

Module MessageStore.

(** [{ id: data.id || Date.now().toString(), content: data.content, ...,
    timestamp: data.timestamp || new Date().toISOString(),
    delivered: data.delivered || false }] (lines 64-71; the same object
    literal on [msg] at lines 79-85).  Each read throws on [null] and
    [undefined]. *)
Definition to_message (now : Z) (data : jsv) : exn + Message :=
  i <-? get data "id" ;;
  c <-? get data "content" ;;
  f <-? get data "fromId" ;;
  t <-? get data "toId" ;;
  ts <-? get data "timestamp" ;;
  d <-? get data "delivered" ;;
  inr {| id := js_or i (JStr (int_to_string now));
         content := c;
         fromId := f;
         toId := t;
         timestamp := js_or ts (JStr (to_iso_string now));
         delivered := js_or d (JBool false) |}.

(** What a frame asks of the state. *)
Inductive frame_effect : Type :=
| Append (m : Message)          (** a [message] frame *)
| Replace (ms : list Message)   (** a [recent_messages] frame *)
| Ignore.                       (** any other frame *)

(** Lines 61-85: parse, dispatch on [data.type], build the messages.
    [data.type] is read twice, as the [if] and the [else if] do. *)
Definition interpret_frame (now : Z) (text : string) : exn + frame_effect :=
  data <-? json_parse text ;;
  ty <-? get data "type" ;;
  if strict_eq_str ty "message" then
    m <-? to_message now data ;;
    inr (Append m)
  else
    ty' <-? get data "type" ;;
    if strict_eq_str ty' "recent_messages" then
      ms <-? get data "messages" ;;
      if is_array ms then
        ms' <-? get data "messages" ;;
        match ms' with
        | JArr items =>
            l <-? map_exc (to_message now) items ;;
            inr (Replace l)
        | _ => inr Ignore
        end
      else inr Ignore
    else inr Ignore.

(** [prev => ({ ...prev, messages: [...prev.messages, message] })]
    (lines 73-76). *)
Definition append_message (m : Message) (prev : ChatState) : ChatState :=
  {| isConnected := isConnected prev;
     isConnecting := isConnecting prev;
     messages := messages prev ++ [m];
     error := error prev |}.

(** [prev => ({ ...prev, messages: messages })] (lines 87-90). *)
Definition replace_messages (ms : list Message) (prev : ChatState) : ChatState :=
  {| isConnected := isConnected prev;
     isConnecting := isConnecting prev;
     messages := ms;
     error := error prev |}.

Definition apply_effect (e : frame_effect) (prev : ChatState) : ChatState :=
  match e with
  | Append m => append_message m prev
  | Replace ms => replace_messages ms prev
  | Ignore => prev
  end.

(** The handler's effect on the state: the [catch] of lines 92-94 keeps
    the state when anything throws. *)
Definition reduce_frame (now : Z) (text : string) (prev : ChatState) : ChatState :=
  match interpret_frame now text with
  | inr e => apply_effect e prev
  | inl _ => prev
  end.

(** ** Helper lemmas *)

(** A value on which one property read succeeds is neither [null] nor
    [undefined], so every read on it succeeds. *)
Lemma get_defined data k v k' : get data k = inr v -> exists v', get data k' = inr v'.
Proof. destruct data; simpl; try discriminate; eauto. Qed.

(** The message built from a value that is neither [null] nor
    [undefined]. *)
Definition message_of (now : Z) (data : jsv) : Message :=
  let rd k := match get data k with inr v => v | inl _ => JUndefined end in
  {| id := js_or (rd "id"%string) (JStr (int_to_string now));
     content := rd "content"%string;
     fromId := rd "fromId"%string;
     toId := rd "toId"%string;
     timestamp := js_or (rd "timestamp"%string) (JStr (to_iso_string now));
     delivered := js_or (rd "delivered"%string) (JBool false) |}.

Lemma to_message_defined now data k v :
  get data k = inr v -> to_message now data = inr (message_of now data).
Proof. destruct data; simpl; try discriminate; reflexivity. Qed.

Lemma to_message_nullish now data :
  data = JUndefined \/ data = JNull -> to_message now data = inl TypeError.
Proof. intros [-> | ->]; reflexivity. Qed.

(** A falsy [id] is replaced by the receipt time. *)
Lemma message_of_id_falsy now data v :
  get data "id"%string = inr v -> truthy v = false ->
  id (message_of now data) = JStr (int_to_string now).
Proof. intros Hv Hf. unfold message_of. simpl. rewrite Hv. now rewrite falsy_js_or_r. Qed.

Lemma to_message_inv now data m :
  to_message now data = inr m -> m = message_of now data.
Proof. intros H. destruct data; simpl in H; try discriminate; now injection H as <-. Qed.

Lemma map_to_message_ok now items :
  Forall (fun x => x <> JUndefined /\ x <> JNull) items ->
  map_exc (to_message now) items = inr (map (message_of now) items).
Proof.
  intros Hall. apply map_exc_ok. intros x Hx.
  rewrite Forall_forall in Hall. destruct (Hall x Hx) as [H1 H2].
  destruct x; try contradiction; reflexivity.
Qed.

(** What a [message] frame makes the handler do. *)
Lemma interpret_message_frame now text data :
  json_parse text = inr data -> get data "type"%string = inr (JStr "message") ->
  interpret_frame now text = inr (Append (message_of now data)).
Proof.
  intros Hp Ht. unfold interpret_frame.
  rewrite Hp, sbind_inr, Ht, sbind_inr. simpl strict_eq_str.
  rewrite (to_message_defined now data _ _ Ht). reflexivity.
Qed.

(** ** The two frames that change the state *)

(** C15: a [message] frame appends exactly one message, built from the
    frame, after the log it found, and changes nothing else. *)
Theorem reduce_frame_message now text prev data :
  json_parse text = inr data ->
  get data "type"%string = inr (JStr "message") ->
  reduce_frame now text prev =
  {| isConnected := isConnected prev;
     isConnecting := isConnecting prev;
     messages := messages prev ++ [message_of now data];
     error := error prev |}.
Proof.
  intros Hp Ht. unfold reduce_frame, interpret_frame.
  rewrite Hp, sbind_inr, Ht, sbind_inr. simpl strict_eq_str.
  rewrite (to_message_defined now data _ _ Ht). reflexivity.
Qed.

(** C16: a [recent_messages] frame whose [messages] is an array of values
    none of which is [null] replaces the whole log by exactly one message
    per element, in the array's order. *)
Theorem reduce_frame_recent now text prev data items :
  json_parse text = inr data ->
  get data "type"%string = inr (JStr "recent_messages") ->
  get data "messages"%string = inr (JArr items) ->
  Forall (fun x => x <> JUndefined /\ x <> JNull) items ->
  reduce_frame now text prev =
  {| isConnected := isConnected prev;
     isConnecting := isConnecting prev;
     messages := map (message_of now) items;
     error := error prev |}.
Proof.
  intros Hp Ht Hm Hall. unfold reduce_frame, interpret_frame.
  rewrite Hp, sbind_inr, Ht, sbind_inr. simpl strict_eq_str. cbv iota.
  rewrite sbind_inr. simpl strict_eq_str. cbv iota.
  rewrite Hm, sbind_inr. simpl is_array. cbv iota.
  rewrite sbind_inr, map_to_message_ok by exact Hall. reflexivity.
Qed.

(** C17: A [null] element anywhere in a [recent_messages] array makes the
    [map] throw: the whole frame is dropped and the state is unchanged. *)
Theorem reduce_frame_recent_null now text prev data items :
  json_parse text = inr data ->
  get data "type"%string = inr (JStr "recent_messages") ->
  get data "messages"%string = inr (JArr items) ->
  In JNull items ->
  reduce_frame now text prev = prev.
Proof.
  intros Hp Ht Hm Hin. unfold reduce_frame, interpret_frame.
  rewrite Hp, sbind_inr, Ht, sbind_inr. simpl strict_eq_str. cbv iota.
  rewrite sbind_inr. simpl strict_eq_str. cbv iota.
  rewrite Hm, sbind_inr. simpl is_array. cbv iota. rewrite sbind_inr.
  destruct (map_exc_err (to_message now) items JNull TypeError Hin eq_refl) as [e ->].
  reflexivity.
Qed.

(** ** Every other frame is dropped *)

(** a frame that does not parse, whose [type] cannot be read, or whose
    [type] is neither [message] nor [recent_messages] (or is
    [recent_messages] with a [messages] that is not an array) leaves the
    state unchanged. *)
Theorem reduce_frame_ignored now text prev :
  (forall data, json_parse text = inr data ->
     get data "type"%string <> inr (JStr "message") /\
     (get data "type"%string = inr (JStr "recent_messages") ->
      exists v, get data "messages"%string = inr v /\ is_array v = false)) ->
  reduce_frame now text prev = prev.
Proof.
  intros H. unfold reduce_frame, interpret_frame.
  destruct (json_parse text) as [e|data] eqn:Hp; [reflexivity|].
  destruct (H data eq_refl) as [Hnm Hrec]. rewrite sbind_inr.
  destruct (get data "type"%string) as [e|ty] eqn:Ht; [reflexivity|]. rewrite sbind_inr.
  destruct (strict_eq_str ty "message") eqn:Em.
  { apply strict_eq_str_iff in Em. subst ty. contradiction. }
  rewrite sbind_inr.
  destruct (strict_eq_str ty "recent_messages") eqn:Er; [|reflexivity].
  apply strict_eq_str_iff in Er. subst ty.
  destruct (Hrec eq_refl) as [v [Hv Hna]]. rewrite Hv, sbind_inr, Hna. reflexivity.
Qed.

(** C18: Whatever the frame, the connection flags and the error are kept. *)
Theorem reduce_frame_keeps_flags now text prev :
  isConnected (reduce_frame now text prev) = isConnected prev /\
  isConnecting (reduce_frame now text prev) = isConnecting prev /\
  error (reduce_frame now text prev) = error prev.
Proof.
  unfold reduce_frame. destruct (interpret_frame now text) as [e|[m|ms|]];
    repeat split.
Qed.

(** ** The defaults of a message *)

(** Every message the hook builds has a truthy [id] and a truthy
    [timestamp]. *)
Lemma to_message_id_timestamp now data m :
  to_message now data = inr m ->
  truthy (id m) = true /\ truthy (timestamp m) = true.
Proof.
  intros H. apply to_message_inv in H. subst m. simpl. split; apply js_or_truthy.
  - apply truthy_str, int_to_string_nonempty.
  - apply truthy_str, to_iso_string_nonempty.
Qed.

(** a frame whose [id] is missing (or falsy) gets the decimal text of
    the receipt time, a non-empty string; a missing [timestamp] gets the
    receipt time in ISO 8601; a missing [delivered] gets [false]. *)
Theorem to_message_defaults now data m :
  to_message now data = inr m ->
  (forall v, get data "id"%string = inr v -> truthy v = false ->
     id m = JStr (int_to_string now) /\ nonempty (int_to_string now)) /\
  (forall v, get data "timestamp"%string = inr v -> truthy v = false ->
     timestamp m = JStr (to_iso_string now)) /\
  (forall v, get data "delivered"%string = inr v -> truthy v = false ->
     delivered m = JBool false).
Proof.
  intros H. apply to_message_inv in H. subst m.
  split; [|split]; intros v Hv Hf; unfold message_of; simpl; rewrite Hv;
    rewrite falsy_js_or_r by exact Hf; auto with wsc.
Qed.

(** C38: The ids synthesised at two receipt times are equal exactly when the
    times are: two frames without [id] received in the same millisecond
    get the same id. *)
Theorem synthesized_ids_collide now1 now2 data1 data2 m1 m2 v1 v2 :
  to_message now1 data1 = inr m1 -> to_message now2 data2 = inr m2 ->
  get data1 "id"%string = inr v1 -> truthy v1 = false ->
  get data2 "id"%string = inr v2 -> truthy v2 = false ->
  (id m1 = id m2 <-> now1 = now2).
Proof.
  intros H1 H2 Hv1 Hf1 Hv2 Hf2. apply to_message_inv in H1, H2. subst m1 m2.
  rewrite (message_of_id_falsy now1 data1 v1), (message_of_id_falsy now2 data2 v2) by assumption.
  split; [intros E; injection E as E; now apply int_to_string_inj|now intros ->].
Qed.

(** C39: The message has the types [interface Message] declares exactly when
    the frame's [content], [fromId] and [toId] are strings, and its [id],
    [timestamp] and [delivered] are strings, strings and a boolean or are
    falsy: the hook checks none of this. *)
Theorem message_typed_iff now data m :
  to_message now data = inr m ->
  message_typed m = true <->
  let rd k := match get data k with inr v => v | inl _ => JUndefined end in
  (truthy (rd "id"%string) = false \/ is_string (rd "id"%string) = true) /\
  is_string (rd "content"%string) = true /\ is_string (rd "fromId"%string) = true /\
  is_string (rd "toId"%string) = true /\
  (truthy (rd "timestamp"%string) = false \/ is_string (rd "timestamp"%string) = true) /\
  (truthy (rd "delivered"%string) = false \/ is_boolean (rd "delivered"%string) = true).
Proof.
  intros H. apply to_message_inv in H. subst m. unfold message_typed, message_of.
  cbv zeta. simpl id; simpl content; simpl fromId; simpl toId; simpl timestamp;
    simpl delivered.
  set (i := match get data "id"%string with inr v => v | inl _ => JUndefined end).
  set (t := match get data "timestamp"%string with inr v => v | inl _ => JUndefined end).
  set (d := match get data "delivered"%string with inr v => v | inl _ => JUndefined end).
  unfold js_or. rewrite !Bool.andb_true_iff.
  destruct (truthy i) eqn:Ei, (truthy t) eqn:Et, (truthy d) eqn:Ed; simpl;
    intuition congruence.
Qed.

(** ** Concrete runs *)

Local Open Scope string_scope.

(** The scenario of the spec (section 8): a message frame with no [id],
    [timestamp] or [delivered]. *)
Example reduce_frame_scenario :
  reduce_frame 1700000000123
    (q "{'type':'message','content':'hi','fromId':'u2','toId':'u1'}")
    {| isConnected := true; isConnecting := false; messages := []; error := None |}
  = {| isConnected := true; isConnecting := false;
       messages := [{| id := JStr "1700000000123"; content := JStr "hi";
                       fromId := JStr "u2"; toId := JStr "u1";
                       timestamp := JStr "2023-11-14T22:13:20.123Z";
                       delivered := JBool false |}];
       error := None |}.
Proof. vm_compute. reflexivity. Qed.

Local Close Scope string_scope.

End MessageStore.

(** ** The theorems applied to concrete frames *)

Module FrameWitnesses.
Import MessageStore.
Local Open Scope string_scope.

(** The value a text parses to, [null] for a text that does not parse. *)
Definition parsed (text : string) : jsv :=
  match json_parse text with inr d => d | inl _ => JNull end.

(** The elements of the [messages] array of a parsed frame. *)
Definition items_of (text : string) : list jsv :=
  match get (parsed text) "messages" with inr (JArr l) => l | _ => [] end.

Definition st0 : ChatState := mkChatState true false [] None.

Definition msg_frame : string := q "{'type':'message','content':'hi','fromId':'u2','toId':'u1'}".
Definition recent_frame : string :=
  q "{'type':'recent_messages','messages':[{'id':'a','content':'x'},{'content':'y'}]}".
Definition null_frame : string :=
  q "{'type':'recent_messages','messages':[{'id':'a'},null]}".

Lemma reduce_frame_message_witness :
  reduce_frame 5 msg_frame st0 =
  {| isConnected := true; isConnecting := false;
     messages := [message_of 5 (parsed msg_frame)]; error := None |}.
Proof. apply (reduce_frame_message 5 msg_frame st0); vm_compute; reflexivity. Defined.

Lemma reduce_frame_recent_witness :
  reduce_frame 5 recent_frame st0 =
  {| isConnected := true; isConnecting := false;
     messages := map (message_of 5) (items_of recent_frame); error := None |}.
Proof.
  apply (reduce_frame_recent 5 recent_frame st0 (parsed recent_frame));
    [vm_compute; reflexivity|vm_compute; reflexivity|vm_compute; reflexivity|].
  vm_compute. repeat constructor; discriminate.
Defined.

Lemma reduce_frame_recent_null_witness : reduce_frame 5 null_frame st0 = st0.
Proof.
  apply (reduce_frame_recent_null 5 null_frame st0 (parsed null_frame) (items_of null_frame));
    [vm_compute; reflexivity|vm_compute; reflexivity|vm_compute; reflexivity|].
  vm_compute. right. left. reflexivity.
Defined.

Lemma reduce_frame_ignored_witness : reduce_frame 5 (q "{'type':'typing'}") st0 = st0.
Proof.
  apply reduce_frame_ignored. intros d E. vm_compute in E. injection E as <-.
  split; vm_compute; discriminate.
Defined.

Definition bare : jsv := JObj [("content", JStr "hi")].

Lemma to_message_defaults_witness :
  (forall v, get bare "id" = inr v -> truthy v = false ->
     id (message_of 5 bare) = JStr (int_to_string 5) /\ nonempty (int_to_string 5)) /\
  (forall v, get bare "timestamp" = inr v -> truthy v = false ->
     timestamp (message_of 5 bare) = JStr (to_iso_string 5)) /\
  (forall v, get bare "delivered" = inr v -> truthy v = false ->
     delivered (message_of 5 bare) = JBool false).
Proof. apply (to_message_defaults 5 bare). vm_compute. reflexivity. Defined.

Lemma synthesized_ids_collide_witness :
  id (message_of 5 bare) = id (message_of 5 (JObj [("content", JStr "other")])) <-> 5%Z = 5%Z.
Proof.
  apply (synthesized_ids_collide 5 5 bare (JObj [("content", JStr "other")]) _ _
           JUndefined JUndefined); vm_compute; reflexivity.
Defined.

Lemma message_typed_witness :
  message_typed (message_of 5 bare) = true <->
  let rd k := match get bare k with inr v => v | inl _ => JUndefined end in
  (truthy (rd "id") = false \/ is_string (rd "id") = true) /\
  is_string (rd "content") = true /\ is_string (rd "fromId") = true /\
  is_string (rd "toId") = true /\
  (truthy (rd "timestamp") = false \/ is_string (rd "timestamp") = true) /\
  (truthy (rd "delivered") = false \/ is_boolean (rd "delivered") = true).
Proof. apply (message_typed_iff 5 bare). vm_compute. reflexivity. Defined.

End FrameWitnesses.
