(* ===== verification/Transport.v ===== *)
(** The browser's [WebSocket], as the hook uses it.

    The hook (useWebSocket.ts) creates sockets ([new WebSocket(url)], line
    36), reads their [readyState] (lines 18 and 150), writes frames
    ([send], lines 53 and 177) and closes them ([close], line 190); the
    browser opens and closes them and delivers their events.  This file
    states what the hook may rely on as a class: [WebSocketApi] gives the
    operations, [WebSocketLaws] the laws the HTML standard gives them.  The
    theorems of [Connection] are proved against these laws only.

    [Browser] is a model that implements the class: a list of sockets
    indexed by handle, each with its URL, its [readyState] and the frames
    written to it.  It is not code of the repository. *)

From Stdlib Require Import String List Bool ZArith Lia Ascii EquivDec.
From S2P Require Import Spec2Rocq JsValue JsRuntime.
Import ListNotations.

(** [WebSocket.CONNECTING], [OPEN], [CLOSING], [CLOSED]. *)
Inductive ReadyState : Type := CONNECTING | OPEN | CLOSING | CLOSED.

Definition ready_state_eqb (a b : ReadyState) : bool :=
  match a, b with
  | CONNECTING, CONNECTING | OPEN, OPEN | CLOSING, CLOSING | CLOSED, CLOSED => true
  | _, _ => false
  end.

Lemma ready_state_eqb_spec a b : reflect (a = b) (ready_state_eqb a b).
Proof. destruct a, b; constructor; congruence. Qed.

#[export] Instance ready_state_eq_dec : EqDec ReadyState eq.
Proof. intros a b. destruct (ready_state_eqb_spec a b); [left|right]; auto. Defined.

(** The operations of the sockets' store [T]; a socket is named by a
    handle. *)
Class WebSocketApi (T : Type) : Type := {
  (** [readyState] of a socket; [None] for a handle never given out *)
  ws_state : T -> nat -> option ReadyState;
  (** the frames written to a socket, oldest first *)
  ws_sent : T -> nat -> list string;
  (** the URLs the constructor accepts *)
  ws_url_ok : string -> bool;
  (** [new WebSocket(url)]: a fresh handle, or [None] for a SyntaxError *)
  ws_create : string -> T -> option (nat * T);
  (** [ws.send(data)] *)
  ws_send : nat -> string -> T -> exn + T;
  (** [ws.close(code, reason)] *)
  ws_close : nat -> Z -> string -> T -> T;
  (** the browser establishes the connection *)
  ws_opened : nat -> T -> T;
  (** the browser finishes closing the connection *)
  ws_closed : nat -> T -> T
}.

Section Laws.
Context {T : Type} `{WebSocketApi T}.

(** [t'] differs from [t] at most at socket [h]. *)
Definition only_at (h : nat) (t t' : T) : Prop :=
  forall h', h' <> h -> ws_state t' h' = ws_state t h' /\ ws_sent t' h' = ws_sent t h'.

(** [t'] differs from [t] at most in the state of socket [h]. *)
Definition state_only_at (h : nat) (t t' : T) : Prop :=
  only_at h t t' /\ ws_sent t' h = ws_sent t h.
Lemma only_at_trans h t1 t2 t3 : only_at h t1 t2 -> only_at h t2 t3 -> only_at h t1 t3.
Proof.
  intros H12 H23 h' Hne. destruct (H12 h' Hne), (H23 h' Hne). split; congruence.
Qed.

Lemma only_at_refl h t : only_at h t t.
Proof. intros h' _. auto. Qed.
End Laws.

(** The laws of the HTML standard's WebSocket interface. *)
Class WebSocketLaws (T : Type) `{WebSocketApi T} : Prop := {
  create_spec : forall url t,
    match ws_create url t with
    | None => ws_url_ok url = false
    | Some (h, t') =>
        ws_url_ok url = true /\ ws_state t h = None /\
        ws_state t' h = Some CONNECTING /\ ws_sent t' h = [] /\ only_at h t t'
    end;
  (** [send] throws while CONNECTING ... *)
  send_connecting : forall h d t,
    ws_state t h = Some CONNECTING -> ws_send h d t = inl InvalidStateError;
  (** ... writes the frame while OPEN ... *)
  send_open : forall h d t,
    ws_state t h = Some OPEN ->
    exists t', ws_send h d t = inr t' /\ ws_state t' h = Some OPEN /\
               ws_sent t' h = ws_sent t h ++ [d] /\ only_at h t t';
  (** ... and discards it once closing. *)
  send_closing : forall h d t,
    ws_state t h = Some CLOSING \/ ws_state t h = Some CLOSED -> ws_send h d t = inr t;
  (** [close] starts the closing handshake of a socket not yet closing ... *)
  close_active : forall h c r t,
    ws_state t h = Some CONNECTING \/ ws_state t h = Some OPEN ->
    ws_state (ws_close h c r t) h = Some CLOSING /\ state_only_at h t (ws_close h c r t);
  (** ... and does nothing on one that is. *)
  close_inactive : forall h c r t,
    ws_state t h = Some CLOSING \/ ws_state t h = Some CLOSED -> ws_close h c r t = t;
  opened_spec : forall h t,
    ws_state t h = Some CONNECTING ->
    ws_state (ws_opened h t) h = Some OPEN /\ state_only_at h t (ws_opened h t);
  closed_spec : forall h t,
    ws_state t h <> None ->
    ws_state (ws_closed h t) h = Some CLOSED /\ state_only_at h t (ws_closed h t)
}.

(** ** The browser *)

Module Browser.

Record Socket : Type := mkSocket {
  sk_url : string;
  sk_state : ReadyState;
  sk_sent : list string
}.

Definition set_state (r : ReadyState) (s : Socket) : Socket :=
  {| sk_url := sk_url s; sk_state := r; sk_sent := sk_sent s |}.

Definition push_sent (d : string) (s : Socket) : Socket :=
  {| sk_url := sk_url s; sk_state := sk_state s; sk_sent := sk_sent s ++ [d] |}.

Definition starts_with (p s : string) : bool := String.prefix p s.

(** The WebSocket constructor's URL check: a [ws], [wss], [http] or
    [https] scheme, a non-empty host, and no fragment.  (The URL parser
    rejects more malformed hosts than this.) *)
Definition url_ok (url : string) : bool :=
  let after_scheme :=
    if starts_with "ws://" url then Some (substring 5 (String.length url) url)
    else if starts_with "wss://" url then Some (substring 6 (String.length url) url)
    else if starts_with "http://" url then Some (substring 7 (String.length url) url)
    else if starts_with "https://" url then Some (substring 8 (String.length url) url)
    else None in
  match after_scheme with
  | Some (String c _) =>
      negb (existsb (Ascii.eqb c) ["/"; "?"; "#"]%char) &&
      negb (existsb (Ascii.eqb "#"%char) (list_ascii_of_string url))
  | _ => false
  end.

Definition ready_of (t : list Socket) (h : nat) : option ReadyState :=
  option_map sk_state (nth_error t h).

Definition sent_of (t : list Socket) (h : nat) : list string :=
  match nth_error t h with Some s => sk_sent s | None => [] end.

Definition create (url : string) (t : list Socket) : option (nat * list Socket) :=
  if url_ok url then Some (length t, t ++ [mkSocket url CONNECTING []]) else None.

Definition send (h : nat) (d : string) (t : list Socket) : exn + list Socket :=
  match ready_of t h with
  | Some CONNECTING => inl InvalidStateError
  | Some OPEN => inr (update_nth h (push_sent d) t)
  | _ => inr t
  end.

Definition close (h : nat) (code : Z) (reason : string) (t : list Socket) : list Socket :=
  match ready_of t h with
  | Some CONNECTING | Some OPEN => update_nth h (set_state CLOSING) t
  | _ => t
  end.

Definition opened (h : nat) (t : list Socket) : list Socket :=
  update_nth h (set_state OPEN) t.

Definition closed (h : nat) (t : list Socket) : list Socket :=
  update_nth h (set_state CLOSED) t.

#[export] Instance api : WebSocketApi (list Socket) := {
  ws_state := ready_of; ws_sent := sent_of; ws_url_ok := url_ok;
  ws_create := create; ws_send := send; ws_close := close;
  ws_opened := opened; ws_closed := closed }.

(** *** The browser obeys the laws *)

Lemma ready_of_update h f t :
  ready_of (update_nth h f t) h = option_map (fun s => sk_state (f s)) (nth_error t h).
Proof. unfold ready_of. rewrite nth_error_update_nth_eq. now destruct (nth_error t h). Qed.

Lemma sent_of_update h f t :
  (forall s, sk_sent (f s) = sk_sent s) -> sent_of (update_nth h f t) h = sent_of t h.
Proof.
  intros Hf. unfold sent_of. rewrite nth_error_update_nth_eq.
  destruct (nth_error t h); simpl; auto.
Qed.

Lemma only_at_update h f t : @only_at _ api h t (update_nth h f t).
Proof.
  intros h' Hne. simpl. unfold ready_of, sent_of.
  rewrite nth_error_update_nth_ne by congruence. auto.
Qed.

Lemma ready_of_some t h r : ready_of t h = Some r -> exists s, nth_error t h = Some s /\ sk_state s = r.
Proof. unfold ready_of. destruct (nth_error t h) as [s|]; simpl; [|discriminate]. intros E; injection E; eauto. Qed.

#[export] Instance laws : WebSocketLaws (list Socket).
Proof.
  constructor; simpl.
  - intros url t. unfold create. destruct (url_ok url) eqn:E; [|reflexivity].
    split; [reflexivity|]. split; [|split; [|split]].
    + unfold ready_of. rewrite (proj2 (nth_error_None t (length t))); auto.
    + unfold ready_of. now rewrite nth_error_app_last.
    + unfold sent_of. now rewrite nth_error_app_last.
    + intros k Hne. simpl. unfold ready_of, sent_of.
      destruct (Nat.lt_ge_cases k (length t)) as [Hk|Hk].
      * rewrite nth_error_app_lt by exact Hk. auto.
      * rewrite nth_error_app2 by lia.
        rewrite (proj2 (nth_error_None t k)) by lia.
        destruct (k - length t) as [|[|j]] eqn:Ek; [lia| |]; simpl;
          rewrite ?nth_error_nil; auto.
  - intros h d t E. unfold send. now rewrite E.
  - intros h d t E. unfold send. rewrite E. eexists; split; [reflexivity|].
    split; [|split].
    + rewrite ready_of_update. destruct (ready_of_some _ _ _ E) as (s & -> & <-). reflexivity.
    + unfold sent_of. rewrite nth_error_update_nth_eq.
      destruct (ready_of_some _ _ _ E) as (s & -> & _). reflexivity.
    + apply only_at_update.
  - intros h d t [E|E]; unfold send; now rewrite E.
  - intros h c r t HE. unfold close.
    assert (Hs : exists s, nth_error t h = Some s).
    { destruct HE as [E|E]; destruct (ready_of_some _ _ _ E) as (s & ? & _); eauto. }
    destruct Hs as [s Hs].
    destruct HE as [E|E]; rewrite E; cbv iota;
      (split; [rewrite ready_of_update, Hs; reflexivity|]);
      (split; [apply only_at_update|apply sent_of_update; reflexivity]).
  - intros h c r t [E|E]; unfold close; now rewrite E.
  - intros h t E. destruct (ready_of_some _ _ _ E) as (s & Hs & _). unfold opened.
    split; [rewrite ready_of_update, Hs; reflexivity|].
    split; [apply only_at_update|apply sent_of_update; reflexivity].
  - intros h t E. unfold ready_of in E. destruct (nth_error t h) as [s|] eqn:Hs; [|contradiction].
    unfold closed. split; [rewrite ready_of_update, Hs; reflexivity|].
    split; [apply only_at_update|apply sent_of_update; reflexivity].
Qed.

End Browser.
