(* ===== verification/Connection.v ===== *)
(** The connection manager: the hook [useWebSocket] of
    [src/src/hooks/useWebSocket.ts].

    The hook's state is a React state cell ([ChatState], lines 6-11), two
    refs ([websocketRef], [configRef], lines 13-14), and -- owned by the
    browser -- the sockets it created, each carrying the four callbacks
    [connect] attached to it (lines 39-132), which close over [connect]'s
    [config] argument and that socket.  [World] gathers these, the toasts
    shown (line 15's [toast]), the clock read by [Date.now()], and whether
    the component is still mounted.

    Each function of the hook is a statement of the monad [JsM.M exn World]
    and is composed as the source composes it: [connect] (lines 17-147)
    calls [disconnect] (lines 188-194), updates the state, stores the
    config, creates the socket inside a [try] and attaches the callbacks;
    [sendMessage] (lines 149-186) checks its two guards and writes the
    frame inside a [try]; the callbacks [onopen], [onmessage], [onerror]
    and [onclose] run when the browser delivers an event ([dispatch]).  A
    user action or a browser event is one [step]; [reachable] is the
    closure of [step] from a world with no socket.

    All definitions and theorems are stated for any socket store [T] with
    the operations of [WebSocketApi] and proved from [WebSocketLaws];
    concrete runs use [Browser]. *)

From Stdlib Require Import String List Bool ZArith Lia Ascii.
From S2P Require Import Spec2Rocq JsValue JsRuntime DateTime Json Chat MessageStore Transport.
Import ListNotations.

(** A [toast({ title, description, variant })] call. *)
Record Toast : Type := mkToast {
  title : string;
  description : string;
  destructive : bool
}.

Local Open Scope string_scope.

Definition toast_connected : Toast :=
  mkToast "Connected" "Successfully connected to chat server" false.
Definition toast_connection_error : Toast :=
  mkToast "Connection Error" "Failed to connect to chat server" true.
Definition toast_connection_failed : Toast :=
  mkToast "Connection Failed" "Unable to create WebSocket connection" true.
Definition toast_not_connected : Toast :=
  mkToast "Not Connected" "Please connect to the server first" true.
Definition toast_config_missing : Toast :=
  mkToast "Configuration Missing" "Connection configuration is missing" true.
Definition toast_send_failed : Toast :=
  mkToast "Send Failed" "Failed to send message" true.
Definition toast_disconnected_clean : Toast :=
  mkToast "Disconnected" "Successfully disconnected from chat server" false.

(** [event.reason || 'Unknown reason'] *)
Definition close_reason (reason : string) : string :=
  if String.eqb reason "" then "Unknown reason" else reason.

Definition toast_connection_lost (reason : string) : Toast :=
  mkToast "Disconnected" ("Connection lost: " ++ close_reason reason) true.

(** The connection URL (line 34): the token and the user id travel as
    query parameters. *)
Definition ws_url (config : ConnectionConfig) : string :=
  serverUrl config ++ "?token=" ++ encode_uri_component (jwtToken config) ++
  "&userId=" ++ encode_uri_component (userId config).

(** [JSON.stringify] of an object literal whose values are strings. *)
Definition stringify_frame (kvs : list (string * string)) : string :=
  match stringify (str_obj kvs) with Some s => s | None => "" end.

(** The backlog request of [onopen] (lines 53-56). *)
Definition recent_request (config : ConnectionConfig) : string :=
  stringify_frame [("type", "get_recent_messages"); ("userId", userId config)].

(** The frame of [sendMessage] (lines 169-177). *)
Definition chat_frame (content toId fromId ts : string) : string :=
  stringify_frame [("type", "message"); ("content", content); ("toId", toId);
                   ("fromId", fromId); ("timestamp", ts)].

(** [{ isConnected: false, isConnecting: false, messages: [], error: null }]
    (lines 6-11). *)
Definition initial_state : ChatState := mkChatState false false [] None.

Local Close Scope string_scope.

Section Hook.
Context {T : Type} `{api : WebSocketApi T}.

Record World : Type := mkWorld {
  state : ChatState;
  websocketRef : option nat;
  configRef : option ConnectionConfig;
  sockets : T;
  (** the sockets whose callbacks [connect] attached, with the config
      those callbacks capture *)
  callbacks : list (nat * ConnectionConfig);
  toasts : list Toast;
  clock : Z;
  mounted : bool
}.

(** ** Updating one field of the world *)

Definition upd_state (f : ChatState -> ChatState) (w : World) : World :=
  mkWorld (if mounted w then f (state w) else state w) (websocketRef w) (configRef w)
    (sockets w) (callbacks w) (toasts w) (clock w) (mounted w).
Definition upd_websocketRef (r : option nat) (w : World) : World :=
  mkWorld (state w) r (configRef w) (sockets w) (callbacks w) (toasts w) (clock w) (mounted w).
Definition upd_configRef (c : option ConnectionConfig) (w : World) : World :=
  mkWorld (state w) (websocketRef w) c (sockets w) (callbacks w) (toasts w) (clock w) (mounted w).
Definition upd_sockets (t : T) (w : World) : World :=
  mkWorld (state w) (websocketRef w) (configRef w) t (callbacks w) (toasts w) (clock w) (mounted w).
Definition add_callbacks (h : nat) (c : ConnectionConfig) (w : World) : World :=
  mkWorld (state w) (websocketRef w) (configRef w) (sockets w) ((h, c) :: callbacks w)
    (toasts w) (clock w) (mounted w).
Definition add_toast (t : Toast) (w : World) : World :=
  mkWorld (state w) (websocketRef w) (configRef w) (sockets w) (callbacks w)
    (toasts w ++ [t]) (clock w) (mounted w).
Definition upd_clock (t : Z) (w : World) : World :=
  mkWorld (state w) (websocketRef w) (configRef w) (sockets w) (callbacks w) (toasts w) t
    (mounted w).
Definition unmounted (w : World) : World :=
  mkWorld (state w) (websocketRef w) (configRef w) (sockets w) (callbacks w) (toasts w)
    (clock w) false.

Abbreviation M := (JsM.M exn World).

(** ** The statements the hook is made of *)

(** [setState(f)]: React ignores it once the component is unmounted. *)
Definition setState (f : ChatState -> ChatState) : M unit := JsM.modify (upd_state f).
Definition toast (t : Toast) : M unit := JsM.modify (add_toast t).
Definition set_websocketRef (r : option nat) : M unit := JsM.modify (upd_websocketRef r).
Definition set_configRef (c : option ConnectionConfig) : M unit :=
  JsM.modify (upd_configRef c).
(** [Date.now()] *)
Definition date_now : M Z := JsM.gets clock.

(** [websocketRef.current?.readyState] *)
Definition ready_state_of (r : option nat) : M (option ReadyState) :=
  JsM.gets (fun w => match r with Some h => ws_state (sockets w) h | None => None end).

(** [new WebSocket(url)], which throws a SyntaxError on a bad URL. *)
Definition new_WebSocket (url : string) : M nat :=
  fun w => match ws_create url (sockets w) with
           | Some (h, t') => (inr h, upd_sockets t' w)
           | None => (inl SyntaxError, w)
           end.

Definition ws_send_m (h : nat) (d : string) : M unit :=
  fun w => match ws_send h d (sockets w) with
           | inr t' => (inr tt, upd_sockets t' w)
           | inl e => (inl e, w)
           end.

Definition ws_close_m (h : nat) (code : Z) (reason : string) : M unit :=
  JsM.modify (fun w => upd_sockets (ws_close h code reason (sockets w)) w).

(** [ws.onopen = ...; ws.onmessage = ...; ws.onerror = ...;
    ws.onclose = ...] (lines 39-132): the closures capture [config]. *)
Definition attach (h : nat) (config : ConnectionConfig) : M unit :=
  JsM.modify (add_callbacks h config).

(** ** The functions of the hook *)

(** [disconnect] (lines 188-194). *)
Definition disconnect : M unit :=
  r <- JsM.gets websocketRef ;;
  (match r with
   | Some h => ws_close_m h 1000 "Manual disconnect" ;; set_websocketRef None
   | None => JsM.ret tt
   end) ;;
  set_configRef None.

(** [connect(config)] (lines 17-147). *)
Definition connect (config : ConnectionConfig) : M unit :=
  r <- JsM.gets websocketRef ;;
  rs <- ready_state_of r ;;
  (match rs with Some OPEN => disconnect | _ => JsM.ret tt end) ;;
  setState (fun prev => mkChatState (isConnected prev) true [] None) ;;
  set_configRef (Some config) ;;
  JsM.catch
    (h <- new_WebSocket (ws_url config) ;;
     set_websocketRef (Some h) ;;
     attach h config)
    (fun _ =>
       setState (fun prev => mkChatState (isConnected prev) false (messages prev)
                                (Some "Failed to create WebSocket connection"%string)) ;;
       toast toast_connection_failed).

(** [sendMessage(content, toId)] (lines 149-186). *)
Definition sendMessage (content toId : string) : M unit :=
  r <- JsM.gets websocketRef ;;
  rs <- ready_state_of r ;;
  match r, rs with
  | Some h, Some OPEN =>
      c <- JsM.gets configRef ;;
      match c with
      | None => toast toast_config_missing
      | Some cfg =>
          JsM.catch
            (now <- date_now ;;
             ws_send_m h (chat_frame content toId (userId cfg) (to_iso_string now)))
            (fun _ => toast toast_send_failed)
      end
  | _, _ => toast toast_not_connected
  end.

(** [ws.onopen] (lines 39-57). *)
Definition onopen (h : nat) (config : ConnectionConfig) : M unit :=
  setState (fun prev => mkChatState true false (messages prev) None) ;;
  toast toast_connected ;;
  ws_send_m h (recent_request config).

(** [ws.onmessage] (lines 59-95). *)
Definition onmessage (data : string) : M unit :=
  JsM.catch
    (now <- date_now ;;
     e <- JsM.lift (MessageStore.interpret_frame now data) ;;
     setState (MessageStore.apply_effect e))
    (fun _ => JsM.ret tt).

(** [ws.onerror] (lines 97-110). *)
Definition onerror : M unit :=
  setState (fun prev => mkChatState (isConnected prev) false (messages prev)
                          (Some "Connection error occurred"%string)) ;;
  toast toast_connection_error.

(** [ws.onclose] (lines 112-132). *)
Definition onclose (code : Z) (reason : string) : M unit :=
  setState (fun prev =>
    mkChatState false false (messages prev)
      (if negb (Z.eqb code 1000)
       then Some ("Connection closed: " ++ close_reason reason)%string
       else None)) ;;
  (if negb (Z.eqb code 1000) then toast (toast_connection_lost reason)
   else toast toast_disconnected_clean).

(** The cleanup of [useEffect] (lines 196-200), run at unmount. *)
Definition unmount : M unit :=
  disconnect ;; JsM.modify unmounted.

(** ** Events and steps *)

(** The config captured by the callbacks attached to socket [h]. *)
Fixpoint find_callbacks (h : nat) (cbs : list (nat * ConnectionConfig))
    : option ConnectionConfig :=
  match cbs with
  | [] => None
  | (h', c) :: r => if Nat.eqb h h' then Some c else find_callbacks h r
  end.

(** What the browser may deliver. *)
Inductive event : Type :=
| EvOpen (h : nat)
| EvMessage (h : nat) (data : string)
(** the socket closes; [failed] when the connection failed, which
    fires [error] before [close] *)
| EvClose (h : nat) (failed : bool) (code : Z) (reason : string)
| EvTick (t : Z).

(** Run the callback of socket [h], if one is attached. *)
Definition with_callbacks (h : nat) (k : ConnectionConfig -> M unit) : M unit :=
  fun w => match find_callbacks h (callbacks w) with
           | Some c => k c w
           | None => (inr tt, w)
           end.

(** The browser delivers an event, when the socket's state allows it. *)
Definition dispatch (ev : event) (w : World) : option ((exn + unit) * World) :=
  match ev with
  | EvOpen h =>
      match ws_state (sockets w) h with
      | Some CONNECTING =>
          Some (with_callbacks h (onopen h) (upd_sockets (ws_opened h (sockets w)) w))
      | _ => None
      end
  | EvMessage h data =>
      match ws_state (sockets w) h with
      | Some OPEN => Some (with_callbacks h (fun _ => onmessage data) w)
      | _ => None
      end
  | EvClose h failed code reason =>
      match ws_state (sockets w) h with
      | Some CONNECTING | Some OPEN | Some CLOSING =>
          Some (with_callbacks h
                  (fun _ => (if failed then onerror else JsM.ret tt) ;; onclose code reason)
                  (upd_sockets (ws_closed h (sockets w)) w))
      | _ => None
      end
  | EvTick t => Some (inr tt, upd_clock t w)
  end.

(** A user action or a browser event. *)
Inductive action : Type :=
| Connect (config : ConnectionConfig)
| Disconnect
| Send (content toId : string)
| Unmount
| Env (ev : event).

Definition run_action (a : action) (w : World) : option ((exn + unit) * World) :=
  match a with
  | Connect c => if mounted w then Some (connect c w) else None
  | Disconnect => if mounted w then Some (disconnect w) else None
  | Send c t => if mounted w then Some (sendMessage c t w) else None
  | Unmount => if mounted w then Some (unmount w) else None
  | Env ev => dispatch ev w
  end.

Definition step (w : World) (a : action) (w' : World) : Prop :=
  exists r, run_action a w = Some (r, w').

(** A sequence of actions, for concrete runs. *)
Fixpoint run_actions (acts : list action) (w : World) : option World :=
  match acts with
  | [] => Some w
  | a :: rest =>
      match run_action a w with
      | Some (_, w') => run_actions rest w'
      | None => None
      end
  end.

(** The world when the component mounts, the browser holding no socket of
    the hook. *)
Definition init_world (t0 : T) (now : Z) : World :=
  mkWorld initial_state None None t0 [] [] now true.

Inductive reachable (t0 : T) (now : Z) : World -> Prop :=
| reach_init : reachable t0 now (init_world t0 now)
| reach_step w a w' : reachable t0 now w -> step w a w' -> reachable t0 now w'.
End Hook.

Arguments World T : clear implicits.

(** ** What each function of the hook does *)

Section Runs.
Context {T : Type} `{laws : WebSocketLaws T}.

(** The world after [connect]'s statements before the [try]. *)
Definition connect_prelude (config : ConnectionConfig) (w : World T) : World T :=
  let w1 :=
    match match websocketRef w with Some h => ws_state (sockets w) h | None => None end with
    | Some OPEN => JsM.exec disconnect w
    | _ => w
    end in
  upd_configRef (Some config) (upd_state (fun prev => mkChatState (isConnected prev) true [] None) w1).

(** With no OPEN socket in [websocketRef], [connect] does not call
    [disconnect]. *)
Lemma connect_prelude_no_open config (w : World T) :
  (forall h, websocketRef w = Some h -> ws_state (sockets w) h <> Some OPEN) ->
  connect_prelude config w =
  upd_configRef (Some config) (upd_state (fun prev => mkChatState (isConnected prev) true [] None) w).
Proof.
  intros Hno. unfold connect_prelude. destruct (websocketRef w) as [h|] eqn:Er; [|reflexivity].
  specialize (Hno h eq_refl). destruct (ws_state (sockets w) h) as [[| | |]|]; congruence.
Qed.

Lemma disconnect_run (w : World T) :
  disconnect w =
  (inr tt, upd_configRef None
             (match websocketRef w with
              | Some h => upd_websocketRef None
                            (upd_sockets (ws_close h 1000 "Manual disconnect" (sockets w)) w)
              | None => w
              end)).
Proof. unfold disconnect. jsm_unfold. destruct (websocketRef w); reflexivity. Qed.

Lemma connect_run config (w : World T) :
  connect config w =
  let w2 := connect_prelude config w in
  match ws_create (ws_url config) (sockets w2) with
  | Some (h, t') =>
      (inr tt, add_callbacks h config (upd_websocketRef (Some h) (upd_sockets t' w2)))
  | None =>
      (inr tt, add_toast toast_connection_failed
                 (upd_state (fun prev => mkChatState (isConnected prev) false (messages prev)
                               (Some "Failed to create WebSocket connection"%string)) w2))
  end.
Proof.
  unfold connect, connect_prelude, ready_state_of, setState, set_configRef,
    new_WebSocket, set_websocketRef, attach, toast.
  jsm_unfold. cbv zeta.
  destruct (match websocketRef w with Some h => ws_state (sockets w) h | None => None end)
    as [[| | |]|]; simpl;
    try (rewrite disconnect_run; simpl);
    match goal with |- context [ws_create ?u ?t] => destruct (ws_create u t) as [[h t']|] end;
    reflexivity.
Qed.

Lemma sendMessage_run content toId (w : World T) :
  sendMessage content toId w =
  match websocketRef w with
  | Some h =>
      match ws_state (sockets w) h with
      | Some OPEN =>
          match configRef w with
          | None => (inr tt, add_toast toast_config_missing w)
          | Some cfg =>
              match ws_send h (chat_frame content toId (userId cfg) (to_iso_string (clock w)))
                      (sockets w) with
              | inr t' => (inr tt, upd_sockets t' w)
              | inl _ => (inr tt, add_toast toast_send_failed w)
              end
          end
      | _ => (inr tt, add_toast toast_not_connected w)
      end
  | None => (inr tt, add_toast toast_not_connected w)
  end.
Proof.
  unfold sendMessage, ready_state_of, toast, date_now, ws_send_m. jsm_unfold.
  destruct (websocketRef w) as [h|]; [|reflexivity].
  destruct (ws_state (sockets w) h) as [[| | |]|]; try reflexivity.
  destruct (configRef w) as [cfg|]; [|reflexivity].
  destruct (ws_send _ _ _); reflexivity.
Qed.

Lemma onopen_run h cfg (w : World T) :
  onopen h cfg w =
  let w1 := add_toast toast_connected
              (upd_state (fun prev => mkChatState true false (messages prev) None) w) in
  match ws_send h (recent_request cfg) (sockets w1) with
  | inr t' => (inr tt, upd_sockets t' w1)
  | inl e => (inl e, w1)
  end.
Proof. reflexivity. Qed.

Lemma onmessage_run data (w : World T) :
  onmessage data w =
  (inr tt, match MessageStore.interpret_frame (clock w) data with
           | inr e => upd_state (MessageStore.apply_effect e) w
           | inl _ => w
           end).
Proof.
  unfold onmessage, date_now, setState. jsm_unfold.
  destruct (MessageStore.interpret_frame (clock w) data); reflexivity.
Qed.

Lemma onclose_run code reason (w : World T) :
  onclose code reason w =
  (inr tt, add_toast (if negb (Z.eqb code 1000) then toast_connection_lost reason
                      else toast_disconnected_clean)
             (upd_state (fun prev =>
                mkChatState false false (messages prev)
                  (if negb (Z.eqb code 1000)
                   then Some ("Connection closed: " ++ close_reason reason)%string
                   else None)) w)).
Proof.
  unfold onclose, setState, toast. jsm_unfold. destruct (negb (Z.eqb code 1000)); reflexivity.
Qed.

End Runs.

(** ** The invariant of reachable worlds *)

Section Invariant.
Context {T : Type} `{laws : WebSocketLaws T}.

(** Socket [h], whose callbacks capture [cfg], has written nothing
    while CONNECTING, and its first frame is the backlog request of
    [cfg]. *)
Definition first_frame_ok (t : T) (h : nat) (cfg : ConnectionConfig) : Prop :=
  (ws_state t h = Some CONNECTING -> ws_sent t h = []) /\
  (ws_state t h = Some OPEN -> exists rest, ws_sent t h = recent_request cfg :: rest) /\
  (ws_sent t h = [] \/ exists rest, ws_sent t h = recent_request cfg :: rest).

Record hook_inv (w : World T) : Prop := {
  (** [websocketRef] names a socket of the browser *)
  inv_ref_live : forall h, websocketRef w = Some h -> ws_state (sockets w) h <> None;
  (** a socket in [websocketRef] goes with a config in [configRef] *)
  inv_ref_config : websocketRef w <> None -> configRef w <> None;
  (** every socket of the browser is one the hook attached callbacks to *)
  inv_live_cb : forall h, ws_state (sockets w) h <> None ->
                exists cfg, find_callbacks h (callbacks w) = Some cfg;
  (** and every socket with callbacks writes the backlog request first *)
  inv_cb : forall h cfg, find_callbacks h (callbacks w) = Some cfg ->
           ws_state (sockets w) h <> None /\ first_frame_ok (sockets w) h cfg
}.

(** The invariant reads only the refs, the sockets and the callbacks. *)
Lemma hook_inv_view (w w' : World T) :
  websocketRef w' = websocketRef w -> configRef w' = configRef w ->
  sockets w' = sockets w -> callbacks w' = callbacks w ->
  hook_inv w -> hook_inv w'.
Proof.
  intros E1 E2 E3 E4 [I1 I2 I3 I4].
  constructor; rewrite ?E1, ?E2, ?E3, ?E4; assumption.
Qed.

Lemma hook_inv_upd_state f (w : World T) : hook_inv w -> hook_inv (upd_state f w).
Proof. apply hook_inv_view; reflexivity. Qed.

Lemma hook_inv_add_toast t (w : World T) : hook_inv w -> hook_inv (add_toast t w).
Proof. apply hook_inv_view; reflexivity. Qed.

Lemma hook_inv_upd_clock t (w : World T) : hook_inv w -> hook_inv (upd_clock t w).
Proof. apply hook_inv_view; reflexivity. Qed.

Lemma hook_inv_unmounted (w : World T) : hook_inv w -> hook_inv (unmounted w).
Proof. apply hook_inv_view; reflexivity. Qed.

#[local] Hint Resolve hook_inv_upd_state hook_inv_add_toast hook_inv_upd_clock
  hook_inv_unmounted : wsc.

Lemma first_frame_ok_ext t t' h cfg :
  ws_state t' h = ws_state t h -> ws_sent t' h = ws_sent t h ->
  first_frame_ok t h cfg -> first_frame_ok t' h cfg.
Proof. intros E1 E2. unfold first_frame_ok. now rewrite E1, E2. Qed.

(** A change of the sockets confined to socket [h] keeps the invariant
    when it keeps [h] alive and keeps [h]'s first frame right. *)
Lemma hook_inv_only_at (w : World T) t' h :
  hook_inv w -> only_at h (sockets w) t' ->
  (ws_state t' h <> None <-> ws_state (sockets w) h <> None) ->
  (forall cfg, find_callbacks h (callbacks w) = Some cfg -> first_frame_ok t' h cfg) ->
  hook_inv (upd_sockets t' w).
Proof.
  intros [I1 I2 I3 I4] Hon Hlive Hff. constructor; simpl.
  - intros h0 E. destruct (Nat.eq_dec h0 h) as [->|Hne].
    + apply Hlive, I1, E.
    + rewrite (proj1 (Hon h0 Hne)). now apply I1.
  - exact I2.
  - intros h0 Hl. destruct (Nat.eq_dec h0 h) as [->|Hne].
    + apply I3, Hlive, Hl.
    + rewrite (proj1 (Hon h0 Hne)) in Hl. now apply I3.
  - intros h0 cfg Hcb. destruct (Nat.eq_dec h0 h) as [->|Hne].
    + split; [apply Hlive, (I4 _ _ Hcb)|apply Hff, Hcb].
    + destruct (Hon h0 Hne) as [Es Ed]. rewrite Es.
      split; [apply (I4 _ _ Hcb)|].
      apply (first_frame_ok_ext (sockets w)); auto. apply (I4 _ _ Hcb).
Qed.

(** [close] on a socket of the browser keeps the invariant. *)
Lemma hook_inv_close (w : World T) h c r :
  hook_inv w -> ws_state (sockets w) h <> None ->
  hook_inv (upd_sockets (ws_close h c r (sockets w)) w).
Proof.
  intros I Hl.
  destruct (ws_state (sockets w) h) as [[| | |]|] eqn:Es; [| | | |contradiction].
  1,2: destruct (close_active h c r (sockets w) ltac:(auto)) as (Hc & Hon & Hsent);
    apply (hook_inv_only_at w _ h); auto;
    [rewrite Hc; split; congruence
    |intros cfg Hcb; destruct (inv_cb w I h cfg Hcb) as [_ (_ & _ & F3)];
     repeat split; rewrite ?Hc, ?Hsent; [discriminate|discriminate|exact F3]].
  all: rewrite (close_inactive h c r (sockets w)) by auto;
    apply (hook_inv_view w); auto; destruct w; reflexivity.
Qed.
End Invariant.

Section Preservation.
Context {T : Type} `{laws : WebSocketLaws T}.

#[local] Hint Resolve hook_inv_upd_state hook_inv_add_toast hook_inv_upd_clock
  hook_inv_unmounted : wsc.

(** Changing the refs keeps the invariant when they stay consistent. *)
Lemma hook_inv_set_refs (w w' : World T) :
  hook_inv w -> sockets w' = sockets w -> callbacks w' = callbacks w ->
  (forall h, websocketRef w' = Some h -> ws_state (sockets w) h <> None) ->
  (websocketRef w' <> None -> configRef w' <> None) ->
  hook_inv w'.
Proof.
  intros [I1 I2 I3 I4] Es Ec Hr Hc. constructor; rewrite ?Es, ?Ec; auto.
Qed.

Lemma hook_inv_disconnect (w : World T) : hook_inv w -> hook_inv (JsM.exec disconnect w).
Proof.
  intros I. unfold JsM.exec. rewrite disconnect_run. simpl.
  destruct (websocketRef w) as [h|] eqn:Er.
  - pose proof (hook_inv_close w h 1000 "Manual disconnect" I (inv_ref_live w I h Er)) as I'.
    apply (hook_inv_set_refs _ _ I'); simpl; auto; congruence.
  - apply (hook_inv_set_refs _ _ I); simpl; auto; congruence.
Qed.

Lemma connect_prelude_config config (w : World T) :
  configRef (connect_prelude config w) = Some config.
Proof. reflexivity. Qed.

Lemma hook_inv_connect_prelude config (w : World T) :
  hook_inv w -> hook_inv (connect_prelude config w).
Proof.
  intros I. unfold connect_prelude.
  set (w1 := match _ with Some OPEN => JsM.exec disconnect w | _ => w end).
  assert (I1 : hook_inv w1).
  { unfold w1. destruct (websocketRef w) as [h|];
      [destruct (ws_state (sockets w) h) as [[| | |]|]|]; auto using hook_inv_disconnect. }
  apply (hook_inv_set_refs _ _ I1); auto; [|simpl; congruence].
  intros h Eh. apply (inv_ref_live w1 I1 h Eh).
Qed.

(** Creating a socket and attaching its callbacks keeps the invariant. *)
Lemma hook_inv_create config (w : World T) h t' :
  hook_inv w -> configRef w = Some config ->
  ws_create (ws_url config) (sockets w) = Some (h, t') ->
  hook_inv (add_callbacks h config (upd_websocketRef (Some h) (upd_sockets t' w))).
Proof.
  intros [I1 I2 I3 I4] Ec Hcr. pose proof (create_spec (ws_url config) (sockets w)) as Hs.
  rewrite Hcr in Hs. destruct Hs as (_ & Hfresh & Hconn & Hsent & Hon).
  constructor; simpl.
  - intros h0 E. injection E as <-. congruence.
  - intros _. congruence.
  - intros h0 Hl. destruct (Nat.eqb_spec h0 h) as [->|Hne]; [eauto|].
    rewrite (proj1 (Hon h0 Hne)) in Hl. now apply I3.
  - intros h0 cfg Hcb. destruct (Nat.eqb_spec h0 h) as [->|Hne].
    + injection Hcb as <-. split; [congruence|].
      repeat split; rewrite ?Hconn, ?Hsent; auto; discriminate.
    + destruct (Hon h0 Hne) as [Es Ed]. rewrite Es.
      split; [apply (I4 _ _ Hcb)|].
      apply (first_frame_ok_ext (sockets w)); auto. apply (I4 _ _ Hcb).
Qed.

Lemma hook_inv_connect config (w : World T) :
  hook_inv w -> hook_inv (JsM.exec (connect config) w).
Proof.
  intros I. unfold JsM.exec. rewrite connect_run. cbv zeta.
  pose proof (hook_inv_connect_prelude config w I) as I2.
  destruct (ws_create _ _) as [[h t']|] eqn:Ec; simpl; auto with wsc.
  apply hook_inv_create; auto.
Qed.

Lemma hook_inv_sendMessage content toId (w : World T) :
  hook_inv w -> hook_inv (JsM.exec (sendMessage content toId) w).
Proof.
  intros I. unfold JsM.exec. rewrite sendMessage_run.
  destruct (websocketRef w) as [h|] eqn:Er; [|simpl; auto with wsc].
  destruct (ws_state (sockets w) h) as [[| | |]|] eqn:Es; simpl; auto with wsc.
  destruct (configRef w) as [cfg|]; simpl; auto with wsc.
  destruct (send_open h (chat_frame content toId (userId cfg) (to_iso_string (clock w)))
              (sockets w) Es) as (t' & Hsend & Hopen & Hsent & Hon).
  rewrite Hsend. simpl.
  apply (hook_inv_only_at w t' h I Hon); [rewrite Hopen, Es; split; congruence|].
  intros c Hcb. destruct (inv_cb w I h c Hcb) as [_ (_ & F2 & _)].
  destruct (F2 Es) as [rest Hrest].
  repeat split; rewrite ?Hopen, ?Hsent, ?Hrest; try discriminate;
    [intros _|right]; exists (rest ++ [chat_frame content toId (userId cfg)
                                     (to_iso_string (clock w))]); reflexivity.
Qed.

Lemma hook_inv_unmount (w : World T) : hook_inv w -> hook_inv (JsM.exec unmount w).
Proof.
  intros I. unfold unmount, JsM.exec. jsm_unfold.
  pose proof (hook_inv_disconnect w I) as I'. unfold JsM.exec in I'.
  destruct (disconnect w) as [[e|[]] w']; simpl in *; auto with wsc.
Qed.
End Preservation.

Section Events.
Context {T : Type} `{laws : WebSocketLaws T}.

#[local] Hint Resolve hook_inv_upd_state hook_inv_add_toast hook_inv_upd_clock
  hook_inv_unmounted : wsc.

(** A statement keeps the view when it changes neither the refs nor the
    sockets nor the callbacks. *)
Definition keeps_view {A} (m : JsM.M exn (World T) A) : Prop :=
  forall w, websocketRef (JsM.exec m w) = websocketRef w /\
            configRef (JsM.exec m w) = configRef w /\
            sockets (JsM.exec m w) = sockets w /\
            callbacks (JsM.exec m w) = callbacks w.

Lemma keeps_view_ret {A} (a : A) : keeps_view (JsM.ret a).
Proof. intros w. repeat split. Qed.

Lemma keeps_view_bind {A B} (m : JsM.M exn (World T) A) (k : A -> JsM.M exn (World T) B) :
  keeps_view m -> (forall a, keeps_view (k a)) -> keeps_view (JsM.bind m k).
Proof.
  intros Hm Hk w. specialize (Hm w). unfold keeps_view in Hk.
  unfold JsM.exec, JsM.bind in *.
  destruct (m w) as [[e|a] w1]; simpl in *; [exact Hm|].
  destruct (Hk a w1) as (E1 & E2 & E3 & E4). destruct Hm as (F1 & F2 & F3 & F4).
  repeat split; congruence.
Qed.

Lemma keeps_view_setState f : keeps_view (setState f).
Proof. intros w. repeat split. Qed.

Lemma keeps_view_toast t : keeps_view (toast t).
Proof. intros w. repeat split. Qed.

#[local] Hint Resolve keeps_view_ret keeps_view_bind keeps_view_setState
  keeps_view_toast : wsc.

Lemma keeps_view_onerror : keeps_view onerror.
Proof. unfold onerror. auto with wsc. Qed.

Lemma keeps_view_onclose code reason : keeps_view (onclose code reason).
Proof. unfold onclose. apply keeps_view_bind; auto with wsc. intros _. destruct (negb _); auto with wsc. Qed.

Lemma keeps_view_gets {A} (f : World T -> A) : keeps_view (JsM.gets f).
Proof. intros w. repeat split. Qed.

Lemma keeps_view_lift {A} (r : exn + A) : keeps_view (JsM.lift r).
Proof. intros w. repeat split. Qed.

Lemma keeps_view_catch {A} (m : JsM.M exn (World T) A) (k : exn -> JsM.M exn (World T) A) :
  keeps_view m -> (forall e, keeps_view (k e)) -> keeps_view (JsM.catch m k).
Proof.
  intros Hm Hk w. specialize (Hm w). unfold JsM.exec, JsM.catch in *.
  destruct (m w) as [[e|a] w1]; simpl in *; [|exact Hm].
  destruct (Hk e w1) as (E1 & E2 & E3 & E4). destruct Hm as (F1 & F2 & F3 & F4).
  unfold JsM.exec in *. repeat split; congruence.
Qed.

#[local] Hint Resolve keeps_view_gets keeps_view_lift keeps_view_catch : wsc.

Lemma keeps_view_onmessage data : keeps_view (onmessage data).
Proof. unfold onmessage, date_now. auto 10 with wsc. Qed.

Lemma keeps_view_with_callbacks h k :
  (forall c, keeps_view (k c)) -> keeps_view (with_callbacks h k).
Proof.
  intros Hk w. unfold with_callbacks, JsM.exec.
  destruct (find_callbacks h (callbacks w)); [apply Hk|repeat split].
Qed.

#[local] Hint Resolve keeps_view_onerror keeps_view_onclose keeps_view_onmessage
  keeps_view_with_callbacks : wsc.

Lemma hook_inv_keeps_view {A} (m : JsM.M exn (World T) A) w :
  keeps_view m -> hook_inv w -> hook_inv (JsM.exec m w).
Proof. intros Hm. destruct (Hm w) as (E1 & E2 & E3 & E4). now apply hook_inv_view. Qed.

(** The browser opens socket [h]: its [onopen] writes the backlog
    request on it. *)
Lemma hook_inv_open (w : World T) h r w' :
  hook_inv w -> dispatch (EvOpen h) w = Some (r, w') -> hook_inv w'.
Proof.
  intros I Hd. simpl in Hd.
  destruct (ws_state (sockets w) h) as [[| | |]|] eqn:Es; try discriminate.
  injection Hd as Hd. unfold with_callbacks in Hd. simpl in Hd.
  destruct (opened_spec h (sockets w) Es) as (Ho & Hon1 & Hs1).
  destruct (find_callbacks h (callbacks w)) as [cfg|] eqn:Hcb.
  2: { destruct (inv_live_cb w I h ltac:(congruence)) as [c Hc]. congruence. }
  rewrite onopen_run in Hd. cbv zeta in Hd. simpl in Hd.
  destruct (send_open h (recent_request cfg) _ Ho) as (t2 & Hsend & Ho2 & Hsent2 & Hon2).
  rewrite Hsend in Hd. injection Hd as <- <-.
  apply (hook_inv_view (upd_sockets t2 w)); try reflexivity.
  apply (hook_inv_only_at w t2 h I (only_at_trans _ _ _ _ Hon1 Hon2));
    [rewrite Ho2, Es; split; congruence|].
  intros c Hc. rewrite Hcb in Hc. injection Hc as <-.
  destruct (inv_cb w I h cfg Hcb) as [_ (F1 & _ & _)].
  assert (Hs : ws_sent t2 h = [recent_request cfg]).
  { rewrite Hsent2, Hs1, (F1 Es). reflexivity. }
  repeat split; rewrite ?Ho2, ?Hs; try discriminate; eauto.
Qed.

(** The browser closes socket [h]; its [onerror] and [onclose] touch
    only the React state and the toasts. *)
Lemma hook_inv_close_event (w : World T) h failed code reason r w' :
  hook_inv w -> dispatch (EvClose h failed code reason) w = Some (r, w') -> hook_inv w'.
Proof.
  intros I Hd. simpl in Hd.
  destruct (ws_state (sockets w) h) as [[| | |]|] eqn:Es; try discriminate Hd.
  all: assert (Hl : ws_state (sockets w) h <> None) by congruence; injection Hd as Hd.
  all: clear Es.
  all: destruct (closed_spec h (sockets w) Hl) as (Hc & Hon & Hsent).
  all: replace w' with (JsM.exec (with_callbacks h (fun _ =>
                     (if failed then onerror else JsM.ret tt) ;; onclose code reason))
                     (upd_sockets (ws_closed h (sockets w)) w))
    by (unfold JsM.exec; now rewrite Hd).
  all: apply hook_inv_keeps_view;
    [apply keeps_view_with_callbacks; intros c; apply keeps_view_bind; auto with wsc;
     destruct failed; auto with wsc|].
  all: apply (hook_inv_only_at w _ h I Hon); [rewrite Hc; split; congruence|].
  all: intros c Hcb; destruct (inv_cb w I h c Hcb) as [_ (_ & _ & F3)].
  all: repeat split; rewrite ?Hc, ?Hsent; try discriminate; exact F3.
Qed.

(** Every step keeps the invariant. *)
Lemma hook_inv_step (w : World T) a w' : hook_inv w -> step w a w' -> hook_inv w'.
Proof.
  intros I [r Hr]. destruct a as [c| |c t| |ev]; simpl in Hr.
  - destruct (mounted w); [|discriminate]. injection Hr as Hr.
    replace w' with (JsM.exec (connect c) w) by (unfold JsM.exec; now rewrite Hr).
    now apply hook_inv_connect.
  - destruct (mounted w); [|discriminate]. injection Hr as Hr.
    replace w' with (JsM.exec disconnect w) by (unfold JsM.exec; now rewrite Hr).
    now apply hook_inv_disconnect.
  - destruct (mounted w); [|discriminate]. injection Hr as Hr.
    replace w' with (JsM.exec (sendMessage c t) w) by (unfold JsM.exec; now rewrite Hr).
    now apply hook_inv_sendMessage.
  - destruct (mounted w); [|discriminate]. injection Hr as Hr.
    replace w' with (JsM.exec unmount w) by (unfold JsM.exec; now rewrite Hr).
    now apply hook_inv_unmount.
  - destruct ev as [h|h data|h failed code reason|t].
    + eapply hook_inv_open; eauto.
    + simpl in Hr. destruct (ws_state (sockets w) h) as [[| | |]|]; try discriminate.
      injection Hr as Hr.
      replace w' with (JsM.exec (with_callbacks h (fun _ => onmessage data)) w)
        by (unfold JsM.exec; now rewrite Hr).
      apply hook_inv_keeps_view; auto with wsc.
    + eapply hook_inv_close_event; eauto.
    + simpl in Hr. injection Hr as _ <-. auto with wsc.
Qed.
End Events.

(** ** Where the configs come from *)

Section Provenance.
Context {T : Type} `{laws : WebSocketLaws T}.

(** Every config the hook holds, in [configRef] or captured by the
    callbacks of a socket, satisfies [P]. *)
Definition configs_ok (P : ConnectionConfig -> Prop) (w : World T) : Prop :=
  (forall c, configRef w = Some c -> P c) /\
  (forall h c, find_callbacks h (callbacks w) = Some c -> P c).

(** [w'] holds no config that [w] did not. *)
Definition no_new_config (w w' : World T) : Prop :=
  (configRef w' = None \/ configRef w' = configRef w) /\ callbacks w' = callbacks w.

(** A world with the configs of the other. *)
Ltac same_configs := split; [right; reflexivity|reflexivity].

Lemma configs_ok_no_new P (w w' : World T) :
  configs_ok P w -> no_new_config w w' -> configs_ok P w'.
Proof.
  intros [H1 H2] [Hc Hcb]. split.
  - intros c E. destruct Hc as [Hc|Hc]; rewrite Hc in E; [discriminate|auto].
  - intros h c. rewrite Hcb. apply H2.
Qed.

Lemma keeps_view_no_new {A} (m : JsM.M exn (World T) A) w :
  keeps_view m -> no_new_config w (JsM.exec m w).
Proof. intros Hm. destruct (Hm w) as (_ & E2 & _ & E4). split; [right|]; assumption. Qed.

Lemma no_new_disconnect (w : World T) : no_new_config w (JsM.exec disconnect w).
Proof.
  unfold JsM.exec. rewrite disconnect_run. split; [left; reflexivity|].
  destruct (websocketRef w); reflexivity.
Qed.

Lemma no_new_sendMessage content toId (w : World T) :
  no_new_config w (JsM.exec (sendMessage content toId) w).
Proof.
  unfold JsM.exec. rewrite sendMessage_run.
  destruct (websocketRef w) as [h|]; [|same_configs].
  destruct (ws_state (sockets w) h) as [[| | |]|]; try (same_configs).
  all: destruct (configRef w); [|same_configs].
  all: destruct (ws_send _ _ _); same_configs.
Qed.

Lemma no_new_unmount (w : World T) : no_new_config w (JsM.exec unmount w).
Proof.
  unfold unmount, JsM.exec. jsm_unfold. rewrite disconnect_run. simpl.
  split; [left; reflexivity|]. destruct (websocketRef w); reflexivity.
Qed.

Lemma no_new_dispatch ev (w : World T) r w' :
  dispatch ev w = Some (r, w') -> no_new_config w w'.
Proof.
  destruct ev as [h|h data|h failed code reason|t]; simpl; intros Hd.
  - destruct (ws_state (sockets w) h) as [[| | |]|]; try discriminate.
    injection Hd as Hd. unfold with_callbacks in Hd. simpl in Hd.
    destruct (find_callbacks h (callbacks w)) as [cfg|];
      [|injection Hd as _ <-; same_configs].
    rewrite onopen_run in Hd. cbv zeta in Hd. simpl in Hd.
    destruct (ws_send _ _ _); injection Hd as _ <-; same_configs.
  - destruct (ws_state (sockets w) h) as [[| | |]|]; try discriminate.
    injection Hd as Hd. replace w' with (JsM.exec (with_callbacks h (fun _ => onmessage data)) w)
      by (unfold JsM.exec; now rewrite Hd).
    apply keeps_view_no_new, keeps_view_with_callbacks. intros _. apply keeps_view_onmessage.
  - destruct (ws_state (sockets w) h) as [[| | |]|]; try discriminate; injection Hd as Hd.
    all: replace w' with (JsM.exec (with_callbacks h (fun _ =>
                     (if failed then onerror else JsM.ret tt) ;; onclose code reason))
                     (upd_sockets (ws_closed h (sockets w)) w))
      by (unfold JsM.exec; now rewrite Hd).
    all: apply (keeps_view_no_new _ (upd_sockets (ws_closed h (sockets w)) w)),
           keeps_view_with_callbacks; intros c.
    all: apply keeps_view_bind; [destruct failed; [apply keeps_view_onerror|apply keeps_view_ret]|].
    all: intros _; apply keeps_view_onclose.
  - injection Hd as _ <-. same_configs.
Qed.

(** [connect(config)] holds [config] in [configRef] and attaches it to
    at most one new socket. *)
Lemma connect_config config (w : World T) :
  configRef (JsM.exec (connect config) w) = Some config /\
  (callbacks (JsM.exec (connect config) w) = callbacks w \/
   exists h, callbacks (JsM.exec (connect config) w) = (h, config) :: callbacks w).
Proof.
  assert (Hcb : callbacks (connect_prelude config w) = callbacks w).
  { unfold connect_prelude.
    destruct (match websocketRef w with Some h => ws_state (sockets w) h | None => None end)
      as [[| | |]|]; simpl; try reflexivity.
    unfold JsM.exec. rewrite disconnect_run. destruct (websocketRef w); reflexivity. }
  unfold JsM.exec. rewrite connect_run. cbv zeta.
  destruct (ws_create _ _) as [[h t']|];
    cbn [snd callbacks configRef add_callbacks upd_websocketRef upd_sockets add_toast upd_state];
    rewrite Hcb; eauto.
Qed.

(** A step brings in no config but the one of a [Connect] action. *)
Lemma configs_ok_step P (w : World T) a w' :
  configs_ok P w -> step w a w' -> (forall c, a = Connect c -> P c) -> configs_ok P w'.
Proof.
  intros Hok [r Hr] HP. destruct a as [c| |c t| |ev]; simpl in Hr;
    try (destruct (mounted w); [|discriminate]; injection Hr as Hr;
         replace w' with (snd (r, w')) by reflexivity; rewrite <- Hr).
  - destruct (connect_config c w) as [E1 [E2|[h E2]]]; split; unfold JsM.exec in *;
      try (intros c' Hc; rewrite E1 in Hc; injection Hc as <-; apply HP; reflexivity);
      intros h' c'; rewrite E2; [apply Hok|].
    simpl. destruct (Nat.eqb h' h); [intros E; injection E as <-; apply HP; reflexivity|apply Hok].
  - apply (configs_ok_no_new _ w); [exact Hok|apply no_new_disconnect].
  - apply (configs_ok_no_new _ w); [exact Hok|apply no_new_sendMessage].
  - apply (configs_ok_no_new _ w); [exact Hok|apply no_new_unmount].
  - apply (configs_ok_no_new _ w); [exact Hok|eapply no_new_dispatch; eauto].
Qed.
End Provenance.

(** ** Theorems of the connection manager *)

Section Theorems.
Context {T : Type} `{laws : WebSocketLaws T}.

Lemma hook_inv_init (t0 : T) now :
  (forall h, ws_state t0 h = None) -> hook_inv (init_world t0 now).
Proof.
  intros H0. unfold init_world.
  constructor; simpl; [discriminate|auto|intros h Hl; now rewrite H0 in Hl|discriminate].
Qed.

(** every world reachable from a browser holding no socket satisfies
    the invariant: the refs name live sockets, a socket ref goes with a
    config ref, every socket carries the hook's callbacks, and every
    socket's first frame is the backlog request of its config. *)
Lemma reachable_hook_inv (t0 : T) now w :
  (forall h, ws_state t0 h = None) -> reachable t0 now w -> hook_inv w.
Proof.
  intros H0 R. induction R as [|w a w' R IH Hs].
  - now apply hook_inv_init.
  - eapply hook_inv_step; eauto.
Qed.

(** C1: the first frame the client writes on any socket is the
    [get_recent_messages] request carrying the user id of the config its
    callbacks captured; nothing is written before it. *)
Theorem first_frame_is_backlog_request (t0 : T) now w h cfg :
  (forall h, ws_state t0 h = None) -> reachable t0 now w ->
  find_callbacks h (callbacks w) = Some cfg ->
  ws_sent (sockets w) h = [] \/
  exists rest, ws_sent (sockets w) h = recent_request cfg :: rest.
Proof.
  intros H0 R Hcb. destruct (inv_cb w (reachable_hook_inv t0 now w H0 R) h cfg Hcb)
    as [_ (_ & _ & F3)]. exact F3.
Qed.

(** C2: in every reachable world, the socket [websocketRef] names is
    one the browser holds, it carries the hook's callbacks, and
    [configRef] holds a config. *)
Theorem reachable_ref_live (t0 : T) now w h :
  (forall h, ws_state t0 h = None) -> reachable t0 now w -> websocketRef w = Some h ->
  ws_state (sockets w) h <> None /\ configRef w <> None /\
  exists cfg, find_callbacks h (callbacks w) = Some cfg.
Proof.
  intros H0 R Er. pose proof (reachable_hook_inv t0 now w H0 R) as I.
  pose proof (inv_ref_live w I h Er) as Hl.
  split; [exact Hl|]. split; [apply (inv_ref_config w I); congruence|].
  exact (inv_live_cb w I h Hl).
Qed.

(** C30: [sendMessage]'s "Configuration Missing" branch (lines 159-166) is
    dead: in a reachable world, when [websocketRef] names an OPEN socket,
    [configRef] holds a config, so that toast is never shown. *)
Theorem sendMessage_never_config_missing (t0 : T) now w content toId :
  (forall h, ws_state t0 h = None) -> reachable t0 now w ->
  toasts (JsM.exec (sendMessage content toId) w) <> toasts w ++ [toast_config_missing].
Proof.
  intros H0 R. pose proof (reachable_hook_inv t0 now w H0 R) as I.
  unfold JsM.exec. rewrite sendMessage_run.
  destruct (websocketRef w) as [h|] eqn:Er.
  2: { simpl. intros E. apply app_inv_head in E. discriminate. }
  destruct (ws_state (sockets w) h) as [[| | |]|];
    try (simpl; intros E; apply app_inv_head in E; discriminate).
  destruct (configRef w) as [cfg|] eqn:Ec.
  2: { exfalso. apply (inv_ref_config w I); congruence. }
  destruct (ws_send _ _ _); simpl.
  - intros E. apply app_inv_head in E. discriminate.
  - intros E. apply (f_equal (@length Toast)) in E.
    rewrite length_app in E. simpl in E. lia.
Qed.

(** C4: [sendMessage] with no socket, or with a socket that is not OPEN,
    writes nothing, leaves the state and the refs as they are, and shows
    the "Not Connected" toast. *)
Theorem sendMessage_not_connected content toId (w : World T) :
  (forall h, websocketRef w = Some h -> ws_state (sockets w) h <> Some OPEN) ->
  sendMessage content toId w = (inr tt, add_toast toast_not_connected w).
Proof.
  intros Hn. rewrite sendMessage_run.
  destruct (websocketRef w) as [h|] eqn:Er; [|reflexivity].
  specialize (Hn h eq_refl).
  destruct (ws_state (sockets w) h) as [[| | |]|]; congruence.
Qed.

(** C3: [sendMessage] on an OPEN socket writes exactly one frame, on that
    socket, whose [fromId] is the user id of [configRef]: the caller
    cannot choose the sender.  No other socket, no state, no toast
    changes. *)
Theorem sendMessage_open content toId (w : World T) h cfg :
  websocketRef w = Some h -> ws_state (sockets w) h = Some OPEN ->
  configRef w = Some cfg ->
  exists t', sendMessage content toId w = (inr tt, upd_sockets t' w) /\
    ws_sent t' h = ws_sent (sockets w) h ++
                   [chat_frame content toId (userId cfg) (to_iso_string (clock w))] /\
    ws_state t' h = Some OPEN /\ only_at h (sockets w) t'.
Proof.
  intros Er Es Ec. rewrite sendMessage_run, Er, Es, Ec.
  destruct (send_open h (chat_frame content toId (userId cfg) (to_iso_string (clock w)))
              (sockets w) Es) as (t' & -> & Ho & Hs & Hon).
  eauto.
Qed.

(** C5: no action and no event ever ends in an exception thrown out of the
    hook: every [new WebSocket], [JSON.parse] and [send] that can throw
    is inside a [try], or is a [send] on a socket that was just
    opened. *)
Theorem run_action_no_uncaught (w : World T) a r w' :
  run_action a w = Some (r, w') -> r = inr tt.
Proof.
  intros Hr. destruct a as [c| |c t| |[h|h data|h failed code reason|t]]; simpl in Hr;
    try (destruct (mounted w); [|discriminate]; injection Hr as Hr).
  - rewrite connect_run in Hr. cbv zeta in Hr.
    destruct (ws_create _ _) as [[h t']|]; now injection Hr as <- _.
  - rewrite disconnect_run in Hr. now injection Hr as <- _.
  - rewrite sendMessage_run in Hr. destruct (websocketRef w) as [h|];
      [|now injection Hr as <- _].
    destruct (ws_state _ _) as [[| | |]|]; try (now injection Hr as <- _).
    destruct (configRef w); [|now injection Hr as <- _].
    destruct (ws_send _ _ _); now injection Hr as <- _.
  - unfold unmount in Hr. jsm_unfold. rewrite disconnect_run in Hr. now injection Hr as <- _.
  - destruct (ws_state (sockets w) h) as [[| | |]|] eqn:Es; try discriminate.
    injection Hr as Hr. unfold with_callbacks in Hr. simpl in Hr.
    destruct (find_callbacks h (callbacks w)) as [cfg|]; [|now injection Hr as <- _].
    rewrite onopen_run in Hr. cbv zeta in Hr. simpl in Hr.
    destruct (send_open h (recent_request cfg) _ (proj1 (opened_spec h _ Es)))
      as (t2 & Hs & _).
    rewrite Hs in Hr. now injection Hr as <- _.
  - destruct (ws_state (sockets w) h) as [[| | |]|]; try discriminate.
    injection Hr as Hr. unfold with_callbacks in Hr.
    destruct (find_callbacks h (callbacks w)); [|now injection Hr as <- _].
    rewrite onmessage_run in Hr. now injection Hr as <- _.
  - destruct (ws_state (sockets w) h) as [[| | |]|]; try discriminate;
      injection Hr as Hr; unfold with_callbacks in Hr; simpl in Hr;
      (destruct (find_callbacks h (callbacks w)); [|now injection Hr as <- _]);
      destruct failed; unfold JsM.bind in Hr; simpl in Hr;
      rewrite onclose_run in Hr; now injection Hr as <- _.
  - now injection Hr as <- _.
Qed.

(** [disconnect] is idempotent: a second call changes nothing. *)
Theorem disconnect_idempotent (w : World T) :
  JsM.exec disconnect (JsM.exec disconnect w) = JsM.exec disconnect w.
Proof.
  unfold JsM.exec. rewrite (disconnect_run w). simpl snd.
  destruct (websocketRef w) as [h|] eqn:E; rewrite disconnect_run; simpl;
    rewrite ?E; reflexivity.
Qed.
End Theorems.

Section Lifecycle.
Context {T : Type} `{laws : WebSocketLaws T}.

(** A browser event changes neither the refs nor the callbacks nor
    whether the component is mounted. *)
Lemma dispatch_frame ev (w : World T) r w' :
  dispatch ev w = Some (r, w') ->
  websocketRef w' = websocketRef w /\ callbacks w' = callbacks w /\ mounted w' = mounted w.
Proof.
  destruct ev as [h|h data|h failed code reason|t]; simpl; intros Hd.
  - destruct (ws_state (sockets w) h) as [[| | |]|]; try discriminate.
    injection Hd as Hd. unfold with_callbacks in Hd. simpl in Hd.
    destruct (find_callbacks h (callbacks w)) as [cfg|]; [|injection Hd as _ <-; auto].
    rewrite onopen_run in Hd. cbv zeta in Hd. simpl in Hd.
    destruct (ws_send _ _ _); injection Hd as _ <-; auto.
  - destruct (ws_state (sockets w) h) as [[| | |]|]; try discriminate.
    injection Hd as Hd. unfold with_callbacks in Hd.
    destruct (find_callbacks h (callbacks w)); [|injection Hd as _ <-; auto].
    rewrite onmessage_run in Hd. injection Hd as _ <-.
    destruct (MessageStore.interpret_frame _ _); auto.
  - destruct (ws_state (sockets w) h) as [[| | |]|]; try discriminate;
      injection Hd as Hd; unfold with_callbacks in Hd; simpl in Hd;
      (destruct (find_callbacks h (callbacks w)); [|injection Hd as _ <-; auto]);
      destruct failed; unfold JsM.bind in Hd; simpl in Hd;
      rewrite onclose_run in Hd; injection Hd as _ <-; auto.
  - injection Hd as _ <-. auto.
Qed.

(** The effect of a close event on the state of a mounted hook whose
    socket carries callbacks. *)
Lemma dispatch_close_state (w : World T) h failed code reason r w' cfg :
  mounted w = true -> find_callbacks h (callbacks w) = Some cfg ->
  dispatch (EvClose h failed code reason) w = Some (r, w') ->
  state w' = mkChatState false false (messages (state w))
               (if negb (Z.eqb code 1000)
                then Some ("Connection closed: " ++ close_reason reason)%string
                else None) /\
  ws_state (sockets w') h = Some CLOSED.
Proof.
  intros Hm Hcb Hd. simpl in Hd.
  destruct (ws_state (sockets w) h) as [[| | |]|] eqn:Es; try discriminate;
    injection Hd as Hd; unfold with_callbacks in Hd; simpl in Hd; rewrite Hcb in Hd;
    (destruct failed; unfold JsM.bind in Hd; simpl in Hd;
     rewrite onclose_run in Hd; injection Hd as _ <-; simpl; rewrite Hm;
     (split; [reflexivity|]); apply closed_spec; congruence).
Qed.

(** C8: a close event with code 1000 -- whether or not the connection
    failed first -- leaves the hook disconnected with no error. *)
Theorem close_1000_clears_error (w : World T) h failed reason r w' cfg :
  mounted w = true -> find_callbacks h (callbacks w) = Some cfg ->
  dispatch (EvClose h failed 1000 reason) w = Some (r, w') ->
  isConnected (state w') = false /\ isConnecting (state w') = false /\
  error (state w') = None.
Proof.
  intros Hm Hcb Hd. destruct (dispatch_close_state w h failed 1000 reason r w' cfg Hm Hcb Hd)
    as [-> _]. repeat split.
Qed.

(** C7: a close event with any other code leaves the hook disconnected
    with an error that carries the close reason, or "Unknown reason" when
    the reason is empty. *)
Theorem close_abnormal_error (w : World T) h failed code reason r w' cfg :
  mounted w = true -> find_callbacks h (callbacks w) = Some cfg -> code <> 1000%Z ->
  dispatch (EvClose h failed code reason) w = Some (r, w') ->
  isConnected (state w') = false /\ isConnecting (state w') = false /\
  error (state w') =
    Some ("Connection closed: " ++
          (if String.eqb reason "" then "Unknown reason" else reason))%string.
Proof.
  intros Hm Hcb Hc Hd. destruct (dispatch_close_state w h failed code reason r w' cfg Hm Hcb Hd)
    as [-> _]. simpl. apply Z.eqb_neq in Hc. rewrite Hc. repeat split.
Qed.

(** C6: when the browser opens a socket, [onopen] marks the hook
    connected, clears the error, and writes the backlog request of the
    config its callbacks captured as the next frame of that socket. *)
Theorem open_event_requests_backlog (w : World T) h cfg r w' :
  mounted w = true -> find_callbacks h (callbacks w) = Some cfg ->
  dispatch (EvOpen h) w = Some (r, w') ->
  isConnected (state w') = true /\ isConnecting (state w') = false /\
  error (state w') = None /\ messages (state w') = messages (state w) /\
  ws_state (sockets w') h = Some OPEN /\
  ws_sent (sockets w') h = ws_sent (sockets w) h ++ [recent_request cfg].
Proof.
  intros Hm Hcb Hd. simpl in Hd.
  destruct (ws_state (sockets w) h) as [[| | |]|] eqn:Es; try discriminate.
  injection Hd as Hd. unfold with_callbacks in Hd. simpl in Hd. rewrite Hcb in Hd.
  rewrite onopen_run in Hd. cbv zeta in Hd. simpl in Hd.
  destruct (opened_spec h (sockets w) Es) as (Ho & _ & Hs1).
  destruct (send_open h (recent_request cfg) _ Ho) as (t2 & Hs & Ho2 & Hsent2 & _).
  rewrite Hs in Hd. injection Hd as _ <-. simpl. rewrite Hm.
  repeat split; auto. now rewrite Hsent2, Hs1.
Qed.

(** C9: [connect] on a world whose socket is OPEN closes that socket
    first (it is CLOSING afterwards), then, when the URL is accepted,
    references a fresh CONNECTING socket whose callbacks capture the new
    config; the log is emptied, the error cleared, [isConnecting] set. *)
Theorem connect_replaces_open_socket (w : World T) config h0 :
  websocketRef w = Some h0 -> ws_state (sockets w) h0 = Some OPEN ->
  ws_url_ok (ws_url config) = true ->
  exists h, let w' := JsM.exec (connect config) w in
    h <> h0 /\ websocketRef w' = Some h /\ configRef w' = Some config /\
    ws_state (sockets w') h = Some CONNECTING /\
    ws_state (sockets w') h0 = Some CLOSING /\
    find_callbacks h (callbacks w') = Some config /\
    (mounted w = true ->
     messages (state w') = [] /\ error (state w') = None /\ isConnecting (state w') = true).
Proof.
  intros Er Eo Hurl.
  assert (Hp : connect_prelude config w =
    upd_configRef (Some config)
      (upd_state (fun prev => mkChatState (isConnected prev) true [] None)
         (upd_configRef None (upd_websocketRef None
            (upd_sockets (ws_close h0 1000 "Manual disconnect" (sockets w)) w))))).
  { unfold connect_prelude. rewrite Er, Eo. unfold JsM.exec. rewrite disconnect_run, Er.
    reflexivity. }
  unfold JsM.exec. rewrite connect_run. cbv zeta. rewrite Hp.
  set (t1 := ws_close h0 1000 "Manual disconnect" (sockets w)).
  pose proof (create_spec (ws_url config) t1) as Hc. simpl.
  destruct (ws_create (ws_url config) t1) as [[h t']|] eqn:Ecr; [|congruence].
  destruct Hc as (_ & Hfresh & Hconn & _ & Hon).
  destruct (close_active h0 1000 "Manual disconnect" (sockets w) ltac:(auto)) as (Hcl & _).
  assert (Hne : h <> h0) by (intros ->; unfold t1 in Hfresh; congruence).
  exists h. simpl.
  split; [exact Hne|]. split; [reflexivity|]. split; [reflexivity|].
  split; [exact Hconn|].
  split; [rewrite (proj1 (Hon h0 (not_eq_sym Hne))); exact Hcl|].
  split; [now rewrite Nat.eqb_refl|].
  intros Hm. rewrite Hm. repeat split.
Qed.

(** C10: a URL the [WebSocket] constructor rejects makes [connect] catch
    the SyntaxError: no socket is created or referenced, [isConnecting]
    is reset, and the error and the "Connection Failed" toast are
    shown. *)
Theorem connect_bad_url (w : World T) config :
  mounted w = true -> ws_url_ok (ws_url config) = false ->
  (forall h, websocketRef w = Some h -> ws_state (sockets w) h <> Some OPEN) ->
  let w' := JsM.exec (connect config) w in
  sockets w' = sockets w /\ websocketRef w' = websocketRef w /\
  isConnecting (state w') = false /\ messages (state w') = [] /\
  error (state w') = Some "Failed to create WebSocket connection"%string /\
  toasts w' = toasts w ++ [toast_connection_failed].
Proof.
  intros Hm Hurl Hno. unfold JsM.exec. rewrite connect_run. cbv zeta.
  rewrite (connect_prelude_no_open config w Hno). pose proof (create_spec (ws_url config) (sockets w)) as Hc. simpl in *.
  destruct (ws_create (ws_url config) (sockets w)) as [[h t']|].
  - destruct Hc as (Hok & _). congruence.
  - simpl. rewrite Hm. repeat split.
Qed.

(** C11: the unmount cleanup closes the socket the hook references and
    clears both refs. *)
Theorem unmount_closes_current (w : World T) h :
  websocketRef w = Some h ->
  (ws_state (sockets w) h = Some CONNECTING \/ ws_state (sockets w) h = Some OPEN) ->
  let w' := JsM.exec unmount w in
  ws_state (sockets w') h = Some CLOSING /\ websocketRef w' = None /\
  configRef w' = None /\ mounted w' = false.
Proof.
  intros Er Hs. unfold unmount, JsM.exec. jsm_unfold. rewrite disconnect_run, Er. simpl.
  repeat split. apply close_active, Hs.
Qed.
End Lifecycle.

(** ** The frames the hook writes *)

Lemma stringify_frame_parses kvs :
  NoDup (map fst kvs) -> json_parse (stringify_frame kvs) = inr (str_obj kvs).
Proof.
  intros Hnd. unfold stringify_frame.
  destruct (json_parse_stringify_str_obj kvs Hnd) as (text & -> & H). exact H.
Qed.

(** The frame [sendMessage] writes is read back by [JSON.parse] as the
    envelope [{type: "message", content, toId, fromId, timestamp}], whatever
    the strings it carries (quotes, backslashes and control characters
    included). *)
Theorem chat_frame_roundtrip content toId fromId ts :
  json_parse (chat_frame content toId fromId ts) =
  inr (str_obj [("type", "message"); ("content", content); ("toId", toId);
                ("fromId", fromId); ("timestamp", ts)])%string.
Proof. apply stringify_frame_parses. repeat constructor; simpl; intuition discriminate. Qed.

(** The backlog request is read back as [{type: "get_recent_messages",
    userId}]. *)
Lemma recent_request_roundtrip config :
  json_parse (recent_request config) =
  inr (str_obj [("type", "get_recent_messages"); ("userId", userId config)])%string.
Proof. apply stringify_frame_parses. repeat constructor; simpl; intuition discriminate. Qed.

(** ** The connection URL *)

(** The query string of [ws_url] read back. *)
Lemma ws_url_query config :
  forallb (fun c => negb (Ascii.eqb c "?"%char)) (list_ascii_of_string (serverUrl config)) = true ->
  split_at "?"%char (list_ascii_of_string (ws_url config)) =
  (list_ascii_of_string (serverUrl config),
   Some (list_ascii_of_string "token=" ++ flat_map encode_char (list_ascii_of_string (jwtToken config)) ++
         list_ascii_of_string "&userId=" ++ flat_map encode_char (list_ascii_of_string (userId config)))).
Proof.
  intros Hq. unfold ws_url, encode_uri_component.
  rewrite !list_ascii_of_string_app, !list_ascii_of_string_of_list_ascii.
  rewrite split_at_app by exact Hq. simpl. now rewrite app_nil_r.
Qed.

(** C21: when [serverUrl] has no query string of its own, a server reading
    the connection URL finds the token and the user id of the config,
    whatever characters they hold: [encodeURIComponent] escapes every
    delimiter. *)
Theorem ws_url_params config :
  forallb (fun c => negb (Ascii.eqb c "?"%char)) (list_ascii_of_string (serverUrl config)) = true ->
  query_param (ws_url config) "token" = Some (jwtToken config) /\
  query_param (ws_url config) "userId" = Some (userId config).
Proof.
  intros Hq. unfold query_param. rewrite ws_url_query by exact Hq.
  set (et := flat_map encode_char (list_ascii_of_string (jwtToken config))).
  set (eu := flat_map encode_char (list_ascii_of_string (userId config))).
  assert (Ht : forall d, query_delim d = true -> forallb (fun c => negb (Ascii.eqb c d)) et = true)
    by (intros; now apply encode_chars_no).
  assert (Hu : forall d, query_delim d = true -> forallb (fun c => negb (Ascii.eqb c d)) eu = true)
    by (intros; now apply encode_chars_no).
  assert (Hamp : split_at "&"%char (list_ascii_of_string "token=" ++ et ++
                   list_ascii_of_string "&userId=" ++ eu) =
                 (list_ascii_of_string "token=" ++ et, Some (list_ascii_of_string "userId=" ++ eu))).
  { rewrite app_assoc, split_at_app; [simpl; now rewrite app_nil_r|].
    rewrite forallb_app, Ht; reflexivity. }
  assert (Hamp2 : split_at "&"%char (list_ascii_of_string "userId=" ++ eu) =
                  (list_ascii_of_string "userId=" ++ eu, None)).
  { apply split_at_none. rewrite forallb_app, Hu; reflexivity. }
  split.
  - rewrite (find_param_hit _ _ _ _ _ (list_ascii_of_string "token") et Hamp);
      [|reflexivity|reflexivity].
    unfold et. rewrite decode_encode_chars. simpl. now rewrite string_of_list_ascii_of_string.
  - rewrite (find_param_skip _ _ _ _ _ (list_ascii_of_string "token") (Some et) Hamp);
      [|reflexivity|discriminate].
    simpl length. rewrite (find_param_hit _ _ _ _ _ (list_ascii_of_string "userId") eu Hamp2);
      [|reflexivity|reflexivity].
    unfold eu. rewrite decode_encode_chars. simpl. now rewrite string_of_list_ascii_of_string.
Qed.

(** ** Runs of the hook in the browser model *)

Lemma run_actions_reachable {T} `{WebSocketApi T} (t0 : T) now acts w w' :
  reachable t0 now w -> run_actions acts w = Some w' -> reachable t0 now w'.
Proof.
  revert w. induction acts as [|a acts IH]; simpl; intros w R Hr.
  - now injection Hr as <-.
  - destruct (run_action a w) as [[r w1]|] eqn:Ea; [|discriminate].
    apply (IH w1); [|exact Hr]. apply (reach_step _ _ w a w1 R). exists r. exact Ea.
Qed.

(** ** The outgoing frame on the wire *)

Section WireFormat.
Context {T : Type} `{laws : WebSocketLaws T} `{env : DateEnv}.

(** The ISO text of a time value is in the Date Time String Format. *)
Lemma to_iso_string_iso t : (Z.abs t <= 8640000000000000)%Z -> parse_iso (to_iso_string t) <> None.
Proof.
  intros Ht. pose proof (parse_iso_string t Ht) as Hp.
  destruct (civil_from_days _) as [[y mo] d]. rewrite Hp. discriminate.
Qed.

(** [sendMessage] on an OPEN socket with a config appends the chat frame
    to that socket's output. *)
Lemma sendMessage_writes content toId (w : World T) h cfg :
  websocketRef w = Some h -> ws_state (sockets w) h = Some OPEN -> configRef w = Some cfg ->
  exists t', sendMessage content toId w = (inr tt, upd_sockets t' w) /\
    ws_sent t' h = ws_sent (sockets w) h ++
                   [chat_frame content toId (userId cfg) (to_iso_string (clock w))].
Proof.
  intros Er Es Ec. rewrite sendMessage_run, Er, Es, Ec.
  destruct (send_open h (chat_frame content toId (userId cfg) (to_iso_string (clock w)))
              (sockets w) Es) as (t' & -> & _ & Hs & _).
  eauto.
Qed.

(** C20: the frame [sendMessage] writes on an OPEN socket is the envelope
    of the specification's outgoing format (section 6): read by
    [JSON.parse] it is the object with the keys type, content, toId,
    fromId and timestamp, in that order, holding "message", the content
    and recipient given, the user id of [configRef], and a timestamp in
    ECMAScript's Date Time String Format that [Date.parse] reads back, in
    every time zone, as the clock at the send. *)
Theorem sent_frame_wire_format content toId (w : World T) h cfg :
  websocketRef w = Some h -> ws_state (sockets w) h = Some OPEN -> configRef w = Some cfg ->
  (Z.abs (clock w) <= 8640000000000000)%Z ->
  exists t' frame ts, sendMessage content toId w = (inr tt, upd_sockets t' w) /\
    ws_sent t' h = ws_sent (sockets w) h ++ [frame] /\
    json_parse frame = inr (str_obj [("type", "message"); ("content", content); ("toId", toId);
                                     ("fromId", userId cfg); ("timestamp", ts)])%string /\
    parse_iso ts <> None /\ date_parse ts = Some (clock w).
Proof.
  intros Er Es Ec Hc. destruct (sendMessage_writes content toId w h cfg Er Es Ec) as (t' & -> & Hs).
  exists t', (chat_frame content toId (userId cfg) (to_iso_string (clock w))), (to_iso_string (clock w)).
  repeat split; [exact Hs|apply chat_frame_roundtrip|apply to_iso_string_iso, Hc|apply iso_roundtrip, Hc].
Qed.

End WireFormat.

Module Runs.
Import Browser.
Local Open Scope string_scope.

Definition cfg1 : ConnectionConfig := mkConfig "ws://x" "t" "u1" "u2".
Definition cfg2 : ConnectionConfig := mkConfig "ws://x" "t2" "u3" "u2".
Definition start : World (list Socket) := init_world [] 1700000000000%Z.

(** C31: connecting again while connected makes both flags true at once,
    where the spec says at most one of them is: [connect] sets
    [isConnecting] and leaves [isConnected] as it was (line 22-27). *)
Theorem both_flags_reachable :
  exists w, reachable [] 1700000000000%Z w /\
            isConnected (state w) = true /\ isConnecting (state w) = true.
Proof.
  eexists. split.
  - apply (run_actions_reachable _ _ [Connect cfg1; Env (EvOpen 0); Connect cfg1] start);
      [constructor|vm_compute; reflexivity].
  - split; vm_compute; reflexivity.
Qed.

(** C33: [connect] while the socket is still CONNECTING does not close it
    (line 18 only tests OPEN): the socket leaks.  The unmount cleanup does
    not close it either, since [websocketRef] no longer names it; when the
    browser opens it later, its [onopen] still writes the backlog request
    of the first config. *)
Theorem leaked_socket_survives_unmount :
  exists w, reachable [] 1700000000000%Z w /\ mounted w = false /\
    websocketRef w = None /\ ws_state (sockets w) 0 = Some CONNECTING /\
    exists w', step w (Env (EvOpen 0)) w' /\
               ws_sent (sockets w') 0 = [recent_request cfg1].
Proof.
  eexists. split.
  - apply (run_actions_reachable _ _ [Connect cfg1; Connect cfg2; Unmount] start);
      [constructor|vm_compute; reflexivity].
  - split; [vm_compute; reflexivity|]. split; [vm_compute; reflexivity|].
    split; [vm_compute; reflexivity|].
    eexists. split; [eexists; vm_compute; reflexivity|vm_compute; reflexivity].
Qed.

(** C34: the callbacks of a replaced socket still update the shared state.
    After a reconnect, the old socket's close event (code 1006, no reason)
    clears [isConnecting] and sets an error while the new socket, the one
    [websocketRef] names, is still CONNECTING. *)
Theorem stale_close_clobbers_new_connection :
  exists w, reachable [] 1700000000000%Z w /\
    websocketRef w = Some 1 /\ ws_state (sockets w) 1 = Some CONNECTING /\
    isConnecting (state w) = false /\ isConnected (state w) = false /\
    error (state w) = Some "Connection closed: Unknown reason".
Proof.
  eexists. split.
  - apply (run_actions_reachable _ _
      [Connect cfg1; Env (EvOpen 0); Connect cfg2; Env (EvClose 0 false 1006 "")] start);
      [constructor|vm_compute; reflexivity].
  - repeat split; vm_compute; reflexivity.
Qed.

(** C35: a leaked socket of an earlier config feeds the log of the new
    session: after [connect(cfg1)] and [connect(cfg2)] before the first
    socket opened, the first socket's frames are appended to the log the
    user of [cfg2] sees. *)
Theorem leaked_socket_feeds_new_session :
  exists w, reachable [] 1700000000000%Z w /\
    configRef w = Some cfg2 /\ websocketRef w = Some 1 /\
    isConnected (state w) = true /\
    messages (state w) =
      [{| id := JStr "m1"; content := JStr "for u1"; fromId := JStr "u2";
          toId := JStr "u1"; timestamp := JStr "2023-11-14T22:13:20.000Z";
          delivered := JBool false |}].
Proof.
  eexists. split.
  - apply (run_actions_reachable _ _
      [Connect cfg1; Connect cfg2; Env (EvOpen 0);
       Env (EvMessage 0 (q "{'type':'message','id':'m1','content':'for u1','fromId':'u2','toId':'u1'}"))]
      start); [constructor|vm_compute; reflexivity].
  - repeat split; vm_compute; reflexivity.
Qed.

(** a [serverUrl] that already has a query string hides the token: the
    URL becomes [ws://x/chat?v=1?token=t&userId=u1], whose first
    parameter is [v] with value [1?token=t], so a server reading the
    [token] parameter finds none. *)
Theorem server_url_query_hides_token :
  query_param (ws_url (mkConfig "ws://x/chat?v=1" "t" "u1" "u2")) "token" = None /\
  query_param (ws_url (mkConfig "ws://x/chat?v=1" "t" "u1" "u2")) "v" = Some "1?token=t".
Proof. split; vm_compute; reflexivity. Qed.

(** C32: [sendMessage] tests the socket's [readyState], not
    [isConnected]: after a reconnect, the replaced socket's late close
    event (code 1000, from the manual disconnect) clears [isConnected]
    while the new socket is OPEN, and a send still writes on it. *)
Theorem send_while_disconnected_writes :
  exists w, reachable [] 1700000000000%Z w /\ isConnected (state w) = false /\
    exists w', step w (Send "hi" "u2") w' /\
      ws_sent (sockets w') 1 =
        (ws_sent (sockets w) 1 ++ [chat_frame "hi" "u2" "u3" "2023-11-14T22:13:20.000Z"])%list.
Proof.
  eexists. split.
  - apply (run_actions_reachable _ _
      [Connect cfg1; Env (EvOpen 0); Connect cfg2; Env (EvOpen 1);
       Env (EvClose 0 false 1000 "Manual disconnect")] start);
      [constructor|vm_compute; reflexivity].
  - split; [vm_compute; reflexivity|].
    eexists. split; [eexists; vm_compute; reflexivity|vm_compute; reflexivity].
Qed.

(** A config whose URL the [WebSocket] constructor rejects. *)
Definition cfg_bad : ConnectionConfig := mkConfig "bad" "t3" "u3" "u2".

(** C36: [connect] with a rejected URL while the previous socket is still
    CONNECTING sets [configRef] to the new config but leaves
    [websocketRef] on the old socket.  Once that socket opens, the frames
    [sendMessage] writes on it, authenticated as [u1], carry
    [fromId = "u3"]. *)
Theorem stale_config_signs_frames :
  exists w, reachable [] 1700000000000%Z w /\
    websocketRef w = Some 0 /\ find_callbacks 0 (callbacks w) = Some cfg1 /\
    configRef w = Some cfg_bad /\
    ws_sent (sockets w) 0 =
      [recent_request cfg1; chat_frame "hi" "u2" "u3" "2023-11-14T22:13:20.000Z"].
Proof.
  eexists. split.
  - apply (run_actions_reachable _ _
      [Connect cfg1; Connect cfg_bad; Env (EvOpen 0); Send "hi" "u2"] start);
      [constructor|vm_compute; reflexivity].
  - repeat split; vm_compute; reflexivity.
Qed.

End Runs.

(** ** The theorems applied to runs of the browser model *)

Module RunWitnesses.
Import Browser Runs.
Local Open Scope string_scope.

(** The world after a run from [start]. *)
Definition after (acts : list action) : World (list Socket) :=
  match run_actions acts start with Some w => w | None => start end.

Definition w_connecting : World (list Socket) := after [Connect cfg1].
Definition w_open : World (list Socket) := after [Connect cfg1; Env (EvOpen 0)].

Lemma after_reachable acts :
  run_actions acts start <> None -> reachable [] 1700000000000%Z (after acts).
Proof.
  unfold after. destruct (run_actions acts start) as [w|] eqn:E; [|contradiction].
  intros _. apply (run_actions_reachable _ _ acts start); [constructor|exact E].
Qed.

Lemma empty_browser : forall h, @ws_state _ api [] h = None.
Proof. intros [|h]; reflexivity. Qed.

Lemma reachable_ref_live_witness :
  ws_state (sockets w_open) 0 <> None /\ configRef w_open <> None /\
  exists cfg, find_callbacks 0 (callbacks w_open) = Some cfg.
Proof.
  apply (reachable_ref_live [] 1700000000000%Z w_open 0);
    [exact empty_browser|apply after_reachable; vm_compute; discriminate|reflexivity].
Defined.

Lemma first_frame_witness :
  ws_sent (sockets w_open) 0 = [] \/
  exists rest, ws_sent (sockets w_open) 0 = recent_request cfg1 :: rest.
Proof.
  apply (first_frame_is_backlog_request [] 1700000000000%Z w_open 0 cfg1);
    [exact empty_browser|apply after_reachable; vm_compute; discriminate|reflexivity].
Defined.

Lemma config_missing_witness :
  toasts (JsM.exec (sendMessage "hi" "u2") w_open) <> (toasts w_open ++ [toast_config_missing])%list.
Proof.
  apply (sendMessage_never_config_missing [] 1700000000000%Z w_open);
    [exact empty_browser|apply after_reachable; vm_compute; discriminate].
Defined.

Lemma no_uncaught_witness :
  fst (sendMessage "hi" "u2" w_connecting) = inr tt.
Proof.
  apply (run_action_no_uncaught w_connecting (Send "hi" "u2") _
           (snd (sendMessage "hi" "u2" w_connecting))).
  vm_compute. reflexivity.
Defined.

Lemma sendMessage_open_witness :
  exists t', sendMessage "hi" "u2" w_open = (inr tt, upd_sockets t' w_open) /\
    ws_sent t' 0 = (ws_sent (sockets w_open) 0 ++
                   [chat_frame "hi" "u2" (userId cfg1) (to_iso_string (clock w_open))])%list /\
    ws_state t' 0 = Some OPEN /\ only_at 0 (sockets w_open) t'.
Proof. apply sendMessage_open; vm_compute; reflexivity. Defined.

Lemma sent_frame_wire_format_witness :
  exists t' frame ts, sendMessage "hi" "u2" w_open = (inr tt, upd_sockets t' w_open) /\
    ws_sent t' 0 = (ws_sent (sockets w_open) 0 ++ [frame])%list /\
    json_parse frame = inr (str_obj [("type", "message"); ("content", "hi"); ("toId", "u2");
                                     ("fromId", userId cfg1); ("timestamp", ts)]) /\
    parse_iso ts <> None /\ date_parse (env := UtcHost.utc) ts = Some (clock w_open).
Proof.
  apply (sent_frame_wire_format (env := UtcHost.utc)); vm_compute; [reflexivity ..|discriminate].
Defined.

Lemma not_connected_witness :
  sendMessage "hi" "u2" w_connecting = (inr tt, add_toast toast_not_connected w_connecting).
Proof.
  apply sendMessage_not_connected. intros h E. vm_compute in E. injection E as <-.
  vm_compute. discriminate.
Defined.

Lemma open_event_witness :
  isConnected (state w_open) = true /\ isConnecting (state w_open) = false /\
  error (state w_open) = None /\ messages (state w_open) = messages (state w_connecting) /\
  ws_state (sockets w_open) 0 = Some OPEN /\
  ws_sent (sockets w_open) 0 = (ws_sent (sockets w_connecting) 0 ++ [recent_request cfg1])%list.
Proof.
  apply (open_event_requests_backlog w_connecting 0 cfg1 (inr tt)); vm_compute; reflexivity.
Defined.

Definition w_lost : World (list Socket) :=
  after [Connect cfg1; Env (EvOpen 0); Env (EvClose 0 false 1006 "")].
Definition w_closed : World (list Socket) :=
  after [Connect cfg1; Env (EvOpen 0); Env (EvClose 0 true 1000 "bye")].

Lemma close_abnormal_witness :
  isConnected (state w_lost) = false /\ isConnecting (state w_lost) = false /\
  error (state w_lost) =
    Some ("Connection closed: " ++ (if String.eqb "" "" then "Unknown reason" else "")).
Proof.
  apply (close_abnormal_error w_open 0 false 1006 "" (inr tt) w_lost cfg1);
    [vm_compute; reflexivity|vm_compute; reflexivity|discriminate|vm_compute; reflexivity].
Defined.

Lemma close_1000_witness :
  isConnected (state w_closed) = false /\ isConnecting (state w_closed) = false /\
  error (state w_closed) = None.
Proof.
  apply (close_1000_clears_error w_open 0 true "bye" (inr tt) w_closed cfg1);
    vm_compute; reflexivity.
Defined.

Lemma connect_replaces_witness :
  exists h, let w' := JsM.exec (connect cfg2) w_open in
    h <> 0 /\ websocketRef w' = Some h /\ configRef w' = Some cfg2 /\
    ws_state (sockets w') h = Some CONNECTING /\
    ws_state (sockets w') 0 = Some CLOSING /\
    find_callbacks h (callbacks w') = Some cfg2 /\
    (mounted w_open = true ->
     messages (state w') = [] /\ error (state w') = None /\ isConnecting (state w') = true).
Proof. apply connect_replaces_open_socket; vm_compute; reflexivity. Defined.

Lemma connect_bad_url_witness :
  let w' := JsM.exec (connect cfg_bad) start in
  sockets w' = sockets start /\ websocketRef w' = websocketRef start /\
  isConnecting (state w') = false /\ messages (state w') = [] /\
  error (state w') = Some "Failed to create WebSocket connection" /\
  toasts w' = (toasts start ++ [toast_connection_failed])%list.
Proof.
  apply connect_bad_url; [reflexivity|vm_compute; reflexivity|intros h E; discriminate].
Defined.

Lemma unmount_witness :
  let w' := JsM.exec unmount w_open in
  ws_state (sockets w') 0 = Some CLOSING /\ websocketRef w' = None /\
  configRef w' = None /\ mounted w' = false.
Proof.
  apply unmount_closes_current; [vm_compute; reflexivity|right; vm_compute; reflexivity].
Defined.

(** A token and a user id full of delimiters. *)
Definition cfg_odd : ConnectionConfig := mkConfig "wss://h/chat" "a&b=c?d#" "u 1%" "r".

Lemma ws_url_params_witness :
  query_param (ws_url cfg_odd) "token" = Some "a&b=c?d#" /\
  query_param (ws_url cfg_odd) "userId" = Some "u 1%".
Proof. apply (ws_url_params cfg_odd). vm_compute. reflexivity. Defined.

End RunWitnesses.
