(* ===== verification/App.v ===== *)
(** The components: [ConnectionPanel.tsx], [ChatInterface.tsx] and the page
    [ChatTester.tsx] that wires them to the hook.

    The page owns the hook's world, the form of the connection panel (its
    [config] state, ConnectionPanel.tsx lines 26-31) and the text input of
    the chat panel ([messageInput], ChatInterface.tsx line 25).  The chat
    panel is rendered only while [isConnected] (ChatTester.tsx line 38), so
    its input is reset whenever it is not.  A [ui_action] is what the user
    can do on the rendered page: edit a field of the form while it is
    enabled, press Connect or Disconnect when the button is shown and
    enabled, type and send a message, leave the page; a browser event is
    passed to the hook. *)

From Stdlib Require Import String List Bool ZArith Lia Ascii.
From S2P Require Import Spec2Rocq JsValue JsRuntime Json Chat MessageStore Transport Connection.
Import ListNotations.

Local Open Scope string_scope.

(** The literals [ChatTester] passes to [ChatInterface] (lines 41-42). *)
Definition current_user_literal : string := "your-user-id".
Definition recipient_literal : string := "recipient-id".

Local Close Scope string_scope.

(** [!s] on a string: the empty string is falsy. *)
Definition filled (s : string) : bool := negb (String.eqb s EmptyString).

(** [!config.serverUrl || !config.jwtToken || !config.userId ||
    !config.recipientId] is false. *)
Definition fields_filled (c : ConnectionConfig) : bool :=
  filled (serverUrl c) && filled (jwtToken c) && filled (userId c) && filled (recipientId c).

Inductive Badge : Type := BadgeConnecting | BadgeConnected | BadgeDisconnected.

(** [getStatusBadge] (ConnectionPanel.tsx, lines 40-65). *)
Definition getStatusBadge (isConnected isConnecting : bool) : Badge :=
  if isConnecting then BadgeConnecting
  else if isConnected then BadgeConnected
  else BadgeDisconnected.

(** The Connect button is rendered when not connected and enabled when
    every field is filled and no connection is in progress (lines
    138-141). *)
Definition connect_enabled (form : ConnectionConfig) (st : ChatState) : bool :=
  negb (isConnected st) && fields_filled form && negb (isConnecting st).

(** The inputs of the form are disabled while connected or connecting
    (lines 89, 101, 113, 124). *)
Definition form_enabled (st : ChatState) : bool :=
  negb (isConnected st || isConnecting st).

(** [currentUserId={state.isConnected ? "your-user-id" : ""}]
    (ChatTester.tsx line 41). *)
Definition currentUserId (st : ChatState) : string :=
  if isConnected st then current_user_literal else EmptyString.

(** [message.fromId === currentUserId] (ChatInterface.tsx line 86): the
    message is drawn as the user's own. *)
Definition isCurrentUser (m : Message) (current : string) : bool :=
  strict_eq_str (fromId m) current.

(** The statement completed with [true]. *)
Definition sumbool_of_sum_bool {E} (r : E + bool) : bool :=
  match r with inr b => b | inl _ => false end.

Section Page.
Context {T : Type} `{api : WebSocketApi T}.

(** The page's state: the hook's world, [ConnectionPanel]'s [config]
    state and [ChatInterface]'s [messageInput] state
    ([useState('')], ChatInterface.tsx line 25). *)
Record Page : Type := mkPage {
  hook : World T;
  form : ConnectionConfig;
  messageInput : string
}.

(** [handleConnect] (ConnectionPanel.tsx lines 33-38), calling
    [ChatTester]'s [handleConnect] (lines 9-11), which calls [connect]. *)
Definition handleConnect (form : ConnectionConfig) : JsM.M exn (World T) unit :=
  if fields_filled form then connect form else JsM.ret tt.

(** [handleSendMessage] (ChatInterface.tsx lines 29-34), calling
    [ChatTester]'s [handleSendMessage] (lines 13-15) with the
    [recipientId] prop, the literal ["recipient-id"]. *)
(** The result tells whether it went past its guard, after which the
    component clears its input ([setMessageInput('')], line 33). *)
Definition handleSendMessage (input : string) (isConnected : bool)
    : JsM.M exn (World T) bool :=
  if negb (filled (trim input)) || negb isConnected then JsM.ret false
  else sendMessage (trim input) recipient_literal ;; JsM.ret true.

(** [handleKeyPress] (ChatInterface.tsx lines 36-41): whether the key
    calls [handleSendMessage] ([e.key === 'Enter' && !e.shiftKey]). *)
Definition handleKeyPress (key : string) (shift : bool) : bool :=
  String.eqb key "Enter"%string && negb shift.

Inductive field : Type := FServerUrl | FJwtToken | FUserId | FRecipientId.

(** [setConfig(prev => ({ ...prev, <field>: value }))] (lines 87, 99,
    111, 122). *)
Definition set_field (f : field) (v : string) (c : ConnectionConfig) : ConnectionConfig :=
  match f with
  | FServerUrl => mkConfig v (jwtToken c) (userId c) (recipientId c)
  | FJwtToken => mkConfig (serverUrl c) v (userId c) (recipientId c)
  | FUserId => mkConfig (serverUrl c) (jwtToken c) v (recipientId c)
  | FRecipientId => mkConfig (serverUrl c) (jwtToken c) (userId c) v
  end.

Inductive ui_action : Type :=
| Edit (f : field) (v : string)
| ClickConnect
| ClickDisconnect
| TypeMessage (s : string)
| ClickSend                        (** the Send button *)
| KeyPress (key : string) (shift : bool)  (** a key pressed in the message input *)
| Leave
| Browser (ev : event).

(** The chat panel is not rendered while disconnected: its input is
    dropped. *)
(** The Send button is enabled unless [!messageInput.trim() ||
    !isConnected] (ChatInterface.tsx line 140). *)
Definition send_enabled (input : string) (st : ChatState) : bool :=
  negb (negb (filled (trim input)) || negb (isConnected st)).

Definition rerender (p : Page) : Page :=
  if isConnected (state (hook p)) then p
  else mkPage (hook p) (form p) EmptyString.

(** [handleSendMessage] run on the page's input; the input is cleared
    when it went past its guard. *)
Definition send_input (p : Page) : option Page :=
  let '(r, w') := handleSendMessage (messageInput p) (isConnected (state (hook p))) (hook p) in
  Some (rerender (mkPage w' (form p) (if sumbool_of_sum_bool r then EmptyString else messageInput p))).

Definition with_hook (p : Page) (r : option ((exn + unit) * World T)) : option Page :=
  match r with
  | Some (_, w') => Some (rerender (mkPage w' (form p) (messageInput p)))
  | None => None
  end.

Definition page_step (a : ui_action) (p : Page) : option Page :=
  let st := state (hook p) in
  match a with
  | Edit f v =>
      if form_enabled st then Some (mkPage (hook p) (set_field f v (form p)) (messageInput p))
      else None
  | ClickConnect =>
      if connect_enabled (form p) st && mounted (hook p)
      then with_hook p (Some (handleConnect (form p) (hook p))) else None
  | ClickDisconnect =>
      if isConnected st && mounted (hook p)
      then with_hook p (Some (disconnect (hook p))) else None
  | TypeMessage s =>
      if isConnected st then Some (mkPage (hook p) (form p) s) else None
  | ClickSend =>
      if isConnected st && mounted (hook p) && send_enabled (messageInput p) st
      then send_input p else None
  | KeyPress key shift =>
      if isConnected st && mounted (hook p)
      then if handleKeyPress key shift then send_input p else Some p
      else None
  | Leave => if mounted (hook p) then with_hook p (run_action Unmount (hook p)) else None
  | Browser ev => with_hook p (run_action (Env ev) (hook p))
  end.

(** The form's initial value (ConnectionPanel.tsx lines 26-31). *)
Definition initial_form : ConnectionConfig :=
  mkConfig "ws://localhost:8080/ws/chat"%string EmptyString EmptyString EmptyString.

(** The page when first rendered: each state at its initial value. *)
Definition init_page (t0 : T) (now : Z) : Page :=
  mkPage (init_world t0 now) initial_form EmptyString.
End Page.

Arguments Page T : clear implicits.

(** ** Reachable pages *)

Section PageRuns.
Context {T : Type} `{api : WebSocketApi T}.

Inductive page_reachable (t0 : T) (now : Z) : Page T -> Prop :=
| page_init : page_reachable t0 now (init_page t0 now)
| page_next a p p' : page_reachable t0 now p -> page_step a p = Some p' ->
                     page_reachable t0 now p'.
End PageRuns.

(** ** What the page does *)

Section PageTheorems.
Context {T : Type} `{laws : WebSocketLaws T}.

Lemma rerender_hook (p : Page T) : hook (rerender p) = hook p.
Proof. unfold rerender. now destruct (isConnected _). Qed.

Lemma with_hook_hook (p p' : Page T) m :
  with_hook p (Some m) = Some p' -> hook p' = snd m.
Proof. destruct m. simpl. intros E. injection E as <-. now rewrite rerender_hook. Qed.

(** A statement run on the hook's world as one of its actions. *)
Lemma step_of_run a (w w' : World T) r :
  run_action a w = Some (r, w') -> step w a w'.
Proof. intros E. now exists r. Qed.

(** [send_input] either leaves the hook's world alone or runs
    [sendMessage] on it. *)
Lemma send_input_hook (p p' : Page T) :
  send_input p = Some p' ->
  hook p' = hook p \/
  exists r, sendMessage (trim (messageInput p)) recipient_literal (hook p) = (r, hook p').
Proof.
  unfold send_input, handleSendMessage. destruct (negb _ || negb _); intros Hs.
  - simpl in Hs. injection Hs as <-. left. now rewrite rerender_hook.
  - unfold JsM.bind in Hs. right.
    destruct (sendMessage (trim (messageInput p)) recipient_literal (hook p)) as [r w'].
    exists r. destruct r; injection Hs as <-; now rewrite rerender_hook.
Qed.

Lemma send_input_step (p p' : Page T) :
  mounted (hook p) = true -> send_input p = Some p' ->
  hook p' = hook p \/ step (hook p) (Send (trim (messageInput p)) recipient_literal) (hook p').
Proof.
  intros Em Hs. destruct (send_input_hook p p' Hs) as [Hh|[r Er]]; [now left|right].
  apply (step_of_run _ _ _ r). simpl. now rewrite Em, Er.
Qed.

(** A page step is a step of the hook, one whose [connect] has every
    field of the form filled, or leaves the hook's world as it is. *)
Lemma page_step_hook a (p p' : Page T) :
  page_step a p = Some p' ->
  hook p' = hook p \/
  exists act, step (hook p) act (hook p') /\
              (forall c, act = Connect c -> fields_filled c = true).
Proof.
  destruct a as [f v| | |s| |key shift| |ev]; unfold page_step; cbv beta iota zeta; intros Hs.
  - destruct (form_enabled _); [|discriminate]. injection Hs as <-. now left.
  - destruct (connect_enabled _ _ && mounted _) eqn:E; [|discriminate].
    apply andb_prop in E as [Ec Em]. unfold connect_enabled in Ec.
    apply with_hook_hook in Hs. unfold handleConnect in Hs.
    destruct (fields_filled (form p)) eqn:Ef; [|left; exact Hs].
    right. exists (Connect (form p)). split; [|intros c E; injection E as <-; exact Ef].
    apply (step_of_run _ _ _ (fst (connect (form p) (hook p)))). simpl. rewrite Em, Hs.
    now destruct (connect _ _).
  - destruct (isConnected _ && mounted _) eqn:E; [|discriminate].
    apply andb_prop in E as [_ Em]. apply with_hook_hook in Hs.
    right. exists Disconnect. split; [|discriminate].
    apply (step_of_run _ _ _ (fst (disconnect (hook p)))). simpl. rewrite Em, Hs.
    now destruct (disconnect _).
  - destruct (isConnected _); [|discriminate]. injection Hs as <-. now left.
  - destruct (isConnected _ && mounted _ && _) eqn:E; [|discriminate].
    apply andb_prop in E as [E _]. apply andb_prop in E as [_ Em].
    destruct (send_input_step p p' Em Hs) as [Hh|Hst]; [now left|right].
    eexists. split; [exact Hst|discriminate].
  - destruct (isConnected _ && mounted _) eqn:E; [|discriminate].
    apply andb_prop in E as [_ Em].
    destruct (handleKeyPress key shift); [|injection Hs as <-; now left].
    destruct (send_input_step p p' Em Hs) as [Hh|Hst]; [now left|right].
    eexists. split; [exact Hst|discriminate].
  - destruct (mounted _) eqn:Em; [|discriminate].
    destruct (run_action Unmount (hook p)) as [[r w]|] eqn:E; [|discriminate].
    apply with_hook_hook in Hs. simpl in Hs. subst. right. exists Unmount.
    split; [eapply step_of_run; eauto|discriminate].
  - destruct (run_action (Env ev) (hook p)) as [[r w]|] eqn:E; [|discriminate].
    apply with_hook_hook in Hs. simpl in Hs. subst. right. exists (Env ev).
    split; [eapply step_of_run; eauto|discriminate].
Qed.
(** The page drives the hook only through the hook's own actions:
    every world a reachable page holds is a reachable world of the
    hook, so every theorem proved of [reachable] holds of the page. *)
Theorem page_reachable_hook (t0 : T) now (p : Page T) :
  page_reachable t0 now p -> reachable t0 now (hook p).
Proof.
  induction 1 as [|a p p' R IH Hs]; [constructor|].
  destruct (page_step_hook a p p' Hs) as [E|(act & Hst & _)];
    [now rewrite E|exact (reach_step _ _ _ _ _ IH Hst)].
Qed.

(** The four fields of a config are non-empty strings. *)
Definition config_complete (c : ConnectionConfig) : Prop :=
  serverUrl c <> EmptyString /\ jwtToken c <> EmptyString /\
  userId c <> EmptyString /\ recipientId c <> EmptyString.

(** [ConnectionPanel]'s guard passes exactly on complete configs. *)
Lemma fields_filled_spec c : fields_filled c = true <-> config_complete c.
Proof.
  unfold fields_filled, filled, config_complete.
  rewrite !andb_true_iff, !negb_true_iff, !String.eqb_neq. tauto.
Qed.

(** C23: the connection panel's guards hold for every config the hook
    ever holds: the one in [configRef] and the one each socket's
    callbacks captured have a non-empty server URL, token, user id and
    recipient, so no socket is opened with an empty token or user id. *)
Theorem page_configs_filled (t0 : T) now (p : Page T) :
  page_reachable t0 now p ->
  (forall c, configRef (hook p) = Some c -> config_complete c) /\
  (forall h c, find_callbacks h (callbacks (hook p)) = Some c -> config_complete c).
Proof.
  induction 1 as [|a p p' R IH Hs]; [split; simpl; discriminate|].
  destruct (page_step_hook a p p' Hs) as [E|(act & Hst & Hc)]; [now rewrite E|].
  apply (configs_ok_step _ _ act _ IH Hst). intros c Ha. apply fields_filled_spec, Hc, Ha.
Qed.

(** C24: clicking Send with text on an OPEN socket writes one frame
    addressed to the literal ["recipient-id"], whatever recipient the
    form holds, signed with the user id of [configRef], and clears the
    input. *)
Theorem page_send_addresses_literal (p p' : Page T) h cfg :
  mounted (hook p) = true -> isConnected (state (hook p)) = true ->
  websocketRef (hook p) = Some h -> ws_state (sockets (hook p)) h = Some OPEN ->
  configRef (hook p) = Some cfg -> filled (trim (messageInput p)) = true ->
  page_step ClickSend p = Some p' ->
  ws_sent (sockets (hook p')) h =
    ws_sent (sockets (hook p)) h ++
      [chat_frame (trim (messageInput p)) "recipient-id" (userId cfg)
         (to_iso_string (clock (hook p)))] /\
  messageInput p' = EmptyString.
Proof.
  intros Hm Hc Er Es Ec Hf Hs. unfold page_step, send_enabled, send_input in Hs.
  rewrite Hc, Hm, Hf in Hs. simpl andb in Hs. cbv iota in Hs.
  unfold handleSendMessage in Hs. rewrite ?Hf, ?Hc in Hs. cbn -[sendMessage] in Hs.
  unfold JsM.bind in Hs.
  rewrite sendMessage_run, Er, Es, Ec in Hs.
  destruct (send_open h (chat_frame (trim (messageInput p)) recipient_literal (userId cfg)
              (to_iso_string (clock (hook p)))) (sockets (hook p)) Es)
    as (t' & Hsend & _ & Hsent & _).
  rewrite Hsend in Hs. simpl in Hs. unfold rerender in Hs. simpl in Hs. rewrite Hc in Hs.
  injection Hs as <-. simpl. split; [exact Hsent|reflexivity].
Qed.

(** A key press in the message input ([handleKeyPress],
    ChatInterface.tsx lines 36-41) on a mounted, connected page. *)
Lemma keypress_step (p : Page T) key shift :
  mounted (hook p) = true -> isConnected (state (hook p)) = true ->
  page_step (KeyPress key shift) p =
  if handleKeyPress key shift then
    (if send_enabled (messageInput p) (state (hook p)) then page_step ClickSend p else Some p)
  else Some p.
Proof.
  intros Hm Hc. unfold page_step. rewrite Hc, Hm. simpl andb.
  destruct (handleKeyPress key shift); [|reflexivity].
  destruct (send_enabled (messageInput p) (state (hook p))) eqn:Ee; [reflexivity|].
  unfold send_enabled in Ee. apply negb_false_iff in Ee.
  unfold send_input, handleSendMessage. rewrite Ee. simpl.
  unfold rerender. simpl. rewrite Hc. now destruct p.
Qed.

(** C25: in the message input of a mounted, connected page, Enter without
    Shift does what clicking Send does when Send can be clicked, and
    nothing when the button is disabled (blank input).  Every other key,
    Shift+Enter included, leaves the page as it is: no frame, no new
    line in the input, although the hint under the input (line 148)
    says "Shift+Enter for new line". *)
Theorem enter_key_equiv_send (p : Page T) key shift :
  mounted (hook p) = true -> isConnected (state (hook p)) = true ->
  page_step (KeyPress "Enter" false) p =
    match page_step ClickSend p with Some p' => Some p' | None => Some p end /\
  ((key <> "Enter")%string \/ shift = true -> page_step (KeyPress key shift) p = Some p).
Proof.
  intros Hm Hc. rewrite !keypress_step by assumption. split.
  - simpl. unfold page_step. rewrite Hc, Hm. simpl andb.
    destruct (send_enabled (messageInput p) (state (hook p))); [|reflexivity].
    unfold send_input. now destruct (handleSendMessage _ _ _).
  - intros Hk. unfold handleKeyPress.
    destruct Hk as [Hk | Hs]; [now rewrite (proj2 (String.eqb_neq _ _) Hk)|subst; now rewrite andb_false_r].
Qed.

(** The chat panel draws a message as the user's own only when its
    [fromId] is the literal ["your-user-id"] ([currentUserId], line
    41), not the user id of the connection. *)
Theorem isCurrentUser_literal (st : ChatState) (m : Message) :
  isConnected st = true ->
  (isCurrentUser m (currentUserId st) = true <-> fromId m = JStr "your-user-id").
Proof.
  intros Hc. unfold isCurrentUser, currentUserId. rewrite Hc. apply strict_eq_str_iff.
Qed.
End PageTheorems.

(** ** The theorems applied to runs of the page *)

Module PageWitnesses.
Import Browser Runs RunWitnesses.
Local Open Scope string_scope.

(** The page after the user filled the form of [cfg1] and pressed
    Connect, and the browser opened the socket. *)
Definition page_steps (acts : list ui_action) (p : Page (list Socket)) : Page (list Socket) :=
  fold_left (fun p a => match page_step a p with Some p' => p' | None => p end) acts p.

Definition filled_acts : list ui_action :=
  [Edit FJwtToken "t"; Edit FUserId "u1"; Edit FRecipientId "u2"].

Definition p_open : Page (list Socket) :=
  page_steps (filled_acts ++ [ClickConnect; Browser (EvOpen 0); TypeMessage "  hi "])
    (init_page [] 1700000000000%Z).

(** The steps of [page_steps] are steps of the page. *)
Lemma page_steps_reachable acts p :
  page_reachable [] 1700000000000%Z p -> page_reachable [] 1700000000000%Z (page_steps acts p).
Proof.
  revert p. induction acts as [|a acts IH]; simpl; intros p R; [exact R|].
  apply IH. destruct (page_step a p) as [p'|] eqn:E; [|exact R].
  exact (page_next _ _ a p p' R E).
Qed.

Lemma p_open_reachable : page_reachable [] 1700000000000%Z p_open.
Proof. apply page_steps_reachable. constructor. Qed.

Lemma page_configs_filled_witness :
  (forall c, configRef (hook p_open) = Some c -> config_complete c) /\
  (forall h c, find_callbacks h (callbacks (hook p_open)) = Some c -> config_complete c).
Proof. apply (page_configs_filled [] 1700000000000%Z). exact p_open_reachable. Defined.

Definition p_sent : Page (list Socket) := page_steps [ClickSend] p_open.

Lemma page_send_witness :
  ws_sent (sockets (hook p_sent)) 0 =
    (ws_sent (sockets (hook p_open)) 0 ++
      [chat_frame (trim (messageInput p_open)) "recipient-id" (userId (form p_open))
         (to_iso_string (clock (hook p_open)))])%list /\
  messageInput p_sent = EmptyString.
Proof.
  apply (page_send_addresses_literal p_open p_sent 0 (form p_open)); vm_compute; reflexivity.
Defined.

Lemma enter_key_equiv_witness :
  page_step (KeyPress "Enter" false) p_open =
    match page_step ClickSend p_open with Some p' => Some p' | None => Some p_open end /\
  page_step (KeyPress "Enter" true) p_open = Some p_open.
Proof.
  destruct (enter_key_equiv_send p_open "Enter" true) as [E1 E2]; [vm_compute; reflexivity..|].
  split; [exact E1|apply E2; right; reflexivity].
Defined.

End PageWitnesses.
