(* ===== verification/Lifecycle.v ===== *)
(** The connection lifecycle of the specification, and the hook as the page
    drives it.

    The specification (section 4.1) describes the connection manager as a
    machine with four states, [Idle], [Connecting], [Connected] and
    [Error]: [connect] restarts at [Connecting] from any state, an open
    transport moves [Connecting] to [Connected], and a close moves
    [Connecting] or [Connected] to [Idle] (clean close) or [Error].
    [ConnSpec] states that machine; [phase] reads its state off the
    hook's [ChatState] flags and error, as [getStatusBadge] does
    (ConnectionPanel.tsx, lines 40-65).

    The hook alone does not refine the machine ([Connection.Runs] shows
    both flags true at once, and stale callbacks of replaced sockets
    moving the flags).  The page does, under one condition on the
    environment: the browser delivers events only for the socket the hook
    created last ([from_latest]), which is what the specification's
    single-transport ownership (section 5) assumes.  The theorems show
    that every such step of the page moves [phase] along the machine, that
    the two flags are never both true, and that from [Idle] or [Error] the
    user can always reach [Connected]. *)

From Stdlib Require Import String List Bool ZArith Lia Relations.
From S2P Require Import Spec2Rocq JsValue JsRuntime Json Chat MessageStore Transport Connection App.
Import ListNotations.

(** ** The machine of the specification *)

Module ConnSpec.

Inductive Phase : Type := Idle | Connecting | Connected | Error.

(** What moves the machine: a [connect] call, the transport opening, the
    transport closing, or nothing that concerns the connection. *)
Inductive Label : Type := LConnect | LOpen | LClose | LNone.

(** The transitions of section 4.1.  A [connect] restarts at
    [Connecting] from any state, and may end in [Error] at once when the
    transport cannot be created ("[Connecting] -> [Error] on open
    failure"); an open moves [Connecting] to [Connected]; a close moves
    [Connecting] or [Connected] to [Idle] or [Error]; anything else leaves
    the state as it is. *)
Inductive spec_move : Label -> Phase -> Phase -> Prop :=
| move_connect p : spec_move LConnect p Connecting
| move_connect_fail p : spec_move LConnect p Error
| move_open : spec_move LOpen Connecting Connected
| move_close p : p = Connecting \/ p = Connected -> spec_move LClose p Idle
| move_fail p : p = Connecting \/ p = Connected -> spec_move LClose p Error
| move_none p : spec_move LNone p p.

End ConnSpec.

Import ConnSpec.

#[export] Hint Resolve move_connect move_connect_fail move_open move_none : wsc.

(** The phase the hook's state shows: [isConnecting] first, then
    [isConnected], then whether an error is set. *)
Definition phase (st : ChatState) : Phase :=
  if isConnecting st then Connecting
  else if isConnected st then Connected
  else match error st with Some _ => Error | None => Idle end.

Section Discipline.
Context {T : Type} `{api : WebSocketApi T}.

(** The socket [connect] created last: callbacks are attached newest
    first. *)
Definition latest (w : World T) : option nat :=
  match callbacks w with (h, _) :: _ => Some h | [] => None end.

Arguments latest : simpl never.

(** The socket an event concerns. *)
Definition event_socket (ev : event) : option nat :=
  match ev with
  | EvOpen h | EvMessage h _ | EvClose h _ _ _ => Some h
  | EvTick _ => None
  end.

(** The browser delivers events only for the latest socket. *)
Definition from_latest (a : ui_action) (p : Page T) : Prop :=
  match a with
  | Browser ev =>
      match event_socket ev with Some h => latest (hook p) = Some h | None => True end
  | _ => True
  end.

Inductive dreach (t0 : T) (now : Z) : Page T -> Prop :=
| dreach_init : dreach t0 now (init_page t0 now)
| dreach_step a p p' : dreach t0 now p -> from_latest a p -> page_step a p = Some p' ->
                       dreach t0 now p'.

(** What the flags say about the latest socket, while mounted. *)
Definition life_inv (w : World T) : Prop :=
  mounted w = true ->
  (websocketRef w = None \/ websocketRef w = latest w) /\
  match latest w with
  | None => isConnecting (state w) = false /\ isConnected (state w) = false
  | Some h =>
      match ws_state (sockets w) h with
      | Some CONNECTING =>
          isConnecting (state w) = true /\ isConnected (state w) = false /\ websocketRef w = Some h
      | Some OPEN =>
          isConnecting (state w) = false /\ isConnected (state w) = true /\ websocketRef w = Some h
      | Some CLOSING =>
          isConnecting (state w) = false /\ isConnected (state w) = true /\ websocketRef w = None
      | Some CLOSED => isConnecting (state w) = false /\ isConnected (state w) = false
      | None => False
      end
  end.
End Discipline.

(** ** The invariant along the hook's functions *)

Section LifeHook.
Context {T : Type} `{laws : WebSocketLaws T}.

Lemma latest_same (w w' : World T) : callbacks w' = callbacks w -> latest w' = latest w.
Proof. unfold latest. now intros ->. Qed.

Lemma latest_find (w : World T) h :
  latest w = Some h -> exists cfg, find_callbacks h (callbacks w) = Some cfg.
Proof.
  unfold latest. destruct (callbacks w) as [|[h' c] r]; [discriminate|].
  intros E. injection E as <-. exists c. simpl. now rewrite Nat.eqb_refl.
Qed.

(** With both flags down, [websocketRef] names no OPEN socket. *)
Lemma life_no_open (w : World T) :
  life_inv w -> mounted w = true ->
  isConnected (state w) = false -> isConnecting (state w) = false ->
  forall h, websocketRef w = Some h -> ws_state (sockets w) h <> Some OPEN.
Proof.
  intros I Hm Hc Hg h Eh. destruct (I Hm) as [[E|E] Hl]; rewrite E in Eh; [discriminate|].
  rewrite Eh in Hl. destruct (ws_state (sockets w) h) as [[| | |]|]; intuition congruence.
Qed.

(** [connect] from a state with both flags down: a fresh CONNECTING
    socket, or [Error] when the URL is rejected. *)
Lemma life_connect config (w : World T) :
  life_inv w -> mounted w = true ->
  isConnected (state w) = false -> isConnecting (state w) = false ->
  life_inv (JsM.exec (connect config) w) /\
  spec_move LConnect (phase (state w)) (phase (state (JsM.exec (connect config) w))).
Proof.
  intros I Hm Hc Hg. pose proof (life_no_open w I Hm Hc Hg) as Hno.
  destruct (I Hm) as [Href Hl].
  unfold JsM.exec. rewrite connect_run. cbv zeta. rewrite (connect_prelude_no_open config w Hno).
  pose proof (create_spec (ws_url config) (sockets w)) as Hcr. simpl sockets.
  destruct (ws_create (ws_url config) (sockets w)) as [[h t']|].
  - destruct Hcr as (_ & _ & Hconn & _ & _). simpl. rewrite Hm. split.
    + intros _. unfold latest. simpl. rewrite Hconn, Hm. auto.
    + unfold phase. simpl. auto with wsc.
  - simpl. rewrite Hm. simpl. split.
    + intros _. rewrite (latest_same w) by reflexivity. simpl. rewrite Hm. simpl. split; [exact Href|].
      destruct (latest w) as [h|]; [|auto].
      destruct (ws_state (sockets w) h) as [[| | |]|]; intuition congruence.
    + unfold phase. simpl. rewrite Hc. apply move_connect_fail.
Qed.

(** [disconnect] while connected closes the latest socket and leaves the
    state alone. *)
Lemma life_disconnect (w : World T) :
  life_inv w -> mounted w = true -> isConnected (state w) = true ->
  life_inv (JsM.exec disconnect w) /\ state (JsM.exec disconnect w) = state w.
Proof.
  intros I Hm Hc. destruct (I Hm) as [Href Hl].
  unfold JsM.exec. rewrite disconnect_run.
  destruct (latest w) as [h|] eqn:El; [|intuition congruence].
  destruct (ws_state (sockets w) h) as [[| | |]|] eqn:Es; try (intuition congruence).
  - destruct Hl as (Hg & _ & Er). rewrite Er. split; [|reflexivity].
    intros _. simpl. rewrite (latest_same w), El by reflexivity. split; [now left|].
    destruct (close_active h 1000 "Manual disconnect" (sockets w) ltac:(auto)) as [-> _]. auto.
  - destruct Hl as (Hg & _ & Er). rewrite Er. split; [|reflexivity].
    intros _. simpl. rewrite (latest_same w), El, Es by reflexivity. auto.
Qed.
(** The invariant reads the refs, the callbacks, the sockets, the two
    flags and whether the component is mounted. *)
Lemma life_inv_ext (w w' : World T) :
  websocketRef w' = websocketRef w -> callbacks w' = callbacks w -> sockets w' = sockets w ->
  isConnected (state w') = isConnected (state w) ->
  isConnecting (state w') = isConnecting (state w) -> mounted w' = mounted w ->
  life_inv w -> life_inv w'.
Proof.
  intros E1 E2 E3 E4 E5 E6 I Hm. rewrite E6 in Hm. unfold life_inv in I.
  rewrite (latest_same w w' E2), E1, E3, E4, E5. now apply I.
Qed.

(** A change of the sockets that keeps the latest socket's state. *)
Lemma life_inv_sockets (w : World T) t' :
  (forall h, latest w = Some h -> ws_state t' h = ws_state (sockets w) h) ->
  life_inv w -> life_inv (upd_sockets t' w).
Proof.
  intros Ht I Hm. destruct (I Hm) as [Href Hl].
  rewrite (latest_same w) by reflexivity. split; [exact Href|].
  destruct (latest w) as [h|]; [simpl; now rewrite (Ht h eq_refl)|exact Hl].
Qed.

Lemma phase_ext st st' :
  isConnected st' = isConnected st -> isConnecting st' = isConnecting st ->
  error st' = error st -> phase st' = phase st.
Proof. intros E1 E2 E3. unfold phase. now rewrite E1, E2, E3. Qed.

Lemma apply_effect_flags e st :
  isConnected (MessageStore.apply_effect e st) = isConnected st /\
  isConnecting (MessageStore.apply_effect e st) = isConnecting st /\
  error (MessageStore.apply_effect e st) = error st.
Proof. destruct e; repeat split. Qed.

(** [sendMessage] touches no flag, and writes only on an OPEN socket,
    which stays OPEN. *)
Lemma life_send content toId (w : World T) :
  life_inv w ->
  life_inv (JsM.exec (sendMessage content toId) w) /\
  state (JsM.exec (sendMessage content toId) w) = state w.
Proof.
  intros I. unfold JsM.exec. rewrite sendMessage_run.
  assert (Ht : forall t, life_inv (add_toast t w)) by (intros t; apply (life_inv_ext w); auto).
  destruct (websocketRef w) as [h|] eqn:Er; [|split; [apply Ht|reflexivity]].
  destruct (ws_state (sockets w) h) as [[| | |]|] eqn:Es; try (split; [apply Ht|reflexivity]).
  destruct (configRef w) as [cfg|]; [|split; [apply Ht|reflexivity]].
  destruct (send_open h (chat_frame content toId (userId cfg) (to_iso_string (clock w)))
              (sockets w) Es) as (t' & -> & Ho & _ & Hon).
  split; [|reflexivity]. apply life_inv_sockets; [|exact I].
  intros h' _. destruct (Nat.eq_dec h' h) as [->|Hne]; [congruence|apply (Hon h' Hne)].
Qed.
(** The browser opens the latest socket: [Connecting] becomes
    [Connected]. *)
Lemma life_open (w : World T) h r w' :
  life_inv w -> latest w = Some h -> dispatch (EvOpen h) w = Some (r, w') ->
  life_inv w' /\ (mounted w' = true -> spec_move LOpen (phase (state w)) (phase (state w'))).
Proof.
  intros I El Hd. destruct (latest_find w h El) as [cfg Hcb].
  simpl in Hd. destruct (ws_state (sockets w) h) as [[| | |]|] eqn:Es; try discriminate.
  injection Hd as Hd. unfold with_callbacks in Hd. simpl in Hd. rewrite Hcb in Hd.
  rewrite onopen_run in Hd. cbv zeta in Hd. simpl in Hd.
  destruct (opened_spec h (sockets w) Es) as (Ho & _).
  destruct (send_open h (recent_request cfg) _ Ho) as (t2 & Hs & Ho2 & _).
  rewrite Hs in Hd. injection Hd as _ <-. simpl.
  destruct (mounted w) eqn:Hm; [|split; [intros E; simpl in E; congruence|intros E; discriminate E]].
  destruct (I Hm) as [_ Hl]. rewrite El, Es in Hl. destruct Hl as (Hg & Hc & Er).
  split.
  - intros _. rewrite (latest_same w), El by reflexivity. simpl. rewrite Ho2, Hm. auto.
  - intros _. unfold phase. simpl. rewrite Hg. auto with wsc.
Qed.

(** The browser closes the latest socket: [Connecting] or [Connected]
    becomes [Idle] (code 1000) or [Error]. *)
Lemma life_close (w : World T) h failed code reason r w' :
  life_inv w -> latest w = Some h -> dispatch (EvClose h failed code reason) w = Some (r, w') ->
  life_inv w' /\ (mounted w' = true -> spec_move LClose (phase (state w)) (phase (state w'))).
Proof.
  intros I El Hd. destruct (latest_find w h El) as [cfg Hcb].
  destruct (dispatch_frame _ _ _ _ Hd) as (E1 & E2 & E3).
  destruct (mounted w) eqn:Hm; [|split; [intros E; congruence|congruence]].
  destruct (dispatch_close_state w h failed code reason r w' cfg Hm Hcb Hd) as [Hst Hcl].
  destruct (I Hm) as [Href Hl]. rewrite El in Hl.
  assert (Hp : phase (state w) = Connecting \/ phase (state w) = Connected).
  { simpl in Hd. unfold phase.
    destruct (ws_state (sockets w) h) as [[| | |]|]; try discriminate;
      destruct Hl as (Hg & Hc & _); rewrite Hg; try rewrite Hc; intuition. }
  split.
  - intros _. rewrite E1, (latest_same w w' E2), El, Hcl, Hst. rewrite El in Href. split; [exact Href|auto].
  - intros _. rewrite Hst. unfold phase at 2. simpl.
    destruct (negb (code =? 1000)%Z); [apply move_fail|apply move_close]; exact Hp.
Qed.

(** The label of a browser event. *)
Definition ev_label (ev : event) : Label :=
  match ev with EvOpen _ => LOpen | EvClose _ _ _ _ => LClose | _ => LNone end.

(** Every event the browser delivers for the latest socket, or a tick of
    the clock. *)
Lemma life_dispatch ev (w : World T) r w' :
  life_inv w -> (forall h, event_socket ev = Some h -> latest w = Some h) ->
  dispatch ev w = Some (r, w') ->
  life_inv w' /\ (mounted w' = true -> spec_move (ev_label ev) (phase (state w)) (phase (state w'))).
Proof.
  intros I Hl Hd. destruct ev as [h|h data|h failed code reason|t].
  - exact (life_open w h r w' I (Hl h eq_refl) Hd).
  - simpl in Hd. destruct (ws_state (sockets w) h) as [[| | |]|]; try discriminate.
    injection Hd as Hd. unfold with_callbacks in Hd.
    destruct (find_callbacks h (callbacks w)); [|injection Hd as _ <-; auto with wsc].
    rewrite onmessage_run in Hd. injection Hd as _ <-.
    destruct (MessageStore.interpret_frame _ _) as [|e]; [auto with wsc|].
    assert (F : isConnected (state (upd_state (MessageStore.apply_effect e) w)) = isConnected (state w) /\
                isConnecting (state (upd_state (MessageStore.apply_effect e) w)) = isConnecting (state w) /\
                error (state (upd_state (MessageStore.apply_effect e) w)) = error (state w)).
    { simpl. destruct (mounted w); [apply apply_effect_flags|auto]. }
    destruct F as (F1 & F2 & F3).
    split; [apply (life_inv_ext w)|intros; rewrite (phase_ext _ _ F1 F2 F3)]; auto with wsc.
  - exact (life_close w h failed code reason r w' I (Hl h eq_refl) Hd).
  - simpl in Hd. injection Hd as _ <-. split; [apply (life_inv_ext w)|]; auto with wsc.
Qed.
End LifeHook.


(** ** The page moves the phase along the machine *)

Section LifePage.
Context {T : Type} `{laws : WebSocketLaws T}.

Lemma life_init (t0 : T) now : life_inv (hook (init_page t0 now)).
Proof. intros _. split; [now left|]. unfold latest. simpl. auto. Qed.

Lemma unmount_unmounted (w : World T) : mounted (JsM.exec unmount w) = false.
Proof. unfold unmount, JsM.exec. jsm_unfold. rewrite disconnect_run. reflexivity. Qed.

(** A page step that leaves the hook's world as it was. *)
Lemma life_same (w w' : World T) :
  w' = w -> life_inv w -> life_inv w' /\ (mounted w' = true -> spec_move LNone (phase (state w)) (phase (state w'))).
Proof. intros -> I. auto with wsc. Qed.

(** A step of the hook that keeps the state. *)
Lemma life_same_state (w w' : World T) :
  life_inv w' -> state w' = state w ->
  life_inv w' /\ (mounted w' = true -> spec_move LNone (phase (state w)) (phase (state w'))).
Proof. intros I E. rewrite E. auto with wsc. Qed.

Lemma life_send_input (p p' : Page T) :
  life_inv (hook p) -> send_input p = Some p' ->
  life_inv (hook p') /\
  (mounted (hook p') = true -> spec_move LNone (phase (state (hook p))) (phase (state (hook p')))).
Proof.
  intros I Hs. destruct (send_input_hook p p' Hs) as [Hh|[r Er]]; [now apply life_same|].
  destruct (life_send (trim (messageInput p)) recipient_literal (hook p) I) as [I' Est].
  unfold JsM.exec in I', Est. rewrite Er in I', Est. simpl in I', Est.
  now apply life_same_state.
Qed.

(** The label of a page action: pressing Connect, which always calls
    [connect] (the button is enabled only with every field filled), and
    the events of the transport. *)
Definition label_of (a : ui_action) : Label :=
  match a with ClickConnect => LConnect | Browser ev => ev_label ev | _ => LNone end.

Lemma life_page_step a (p p' : Page T) :
  life_inv (hook p) -> from_latest a p -> page_step a p = Some p' ->
  life_inv (hook p') /\
  (mounted (hook p') = true -> spec_move (label_of a) (phase (state (hook p))) (phase (state (hook p')))).
Proof.
  intros I Hl. destruct a as [f v| | |s| |key shift| |ev]; unfold page_step; cbv beta iota zeta;
    intros Hs.
  - destruct (form_enabled _); [|discriminate]. injection Hs as <-. now apply life_same.
  - destruct (connect_enabled _ _ && mounted _) eqn:E; [|discriminate].
    apply andb_prop in E as [Ec Em]. unfold connect_enabled in Ec.
    apply andb_prop in Ec as [Ec Eg]. apply andb_prop in Ec as [Ec Ef].
    apply negb_true_iff in Ec, Eg.
    apply with_hook_hook in Hs. rewrite Hs. unfold handleConnect. rewrite Ef.
    destruct (life_connect (form p) (hook p) I Em Ec Eg) as [I' Hsp]. split; auto.
  - destruct (isConnected _ && mounted _) eqn:E; [|discriminate].
    apply andb_prop in E as [Ec Em]. apply with_hook_hook in Hs. rewrite Hs.
    destruct (life_disconnect (hook p) I Em Ec) as [I' Est]. now apply life_same_state.
  - destruct (isConnected _); [|discriminate]. injection Hs as <-. now apply life_same.
  - destruct (_ && _ && _); [|discriminate]. exact (life_send_input p p' I Hs).
  - destruct (_ && _); [|discriminate].
    destruct (handleKeyPress key shift); [exact (life_send_input p p' I Hs)|].
    injection Hs as <-. now apply life_same.
  - destruct (mounted _) eqn:Em; [|discriminate]. simpl in Hs. rewrite Em in Hs.
    apply with_hook_hook in Hs. rewrite Hs. simpl.
    pose proof (unmount_unmounted (hook p)) as Hu. unfold JsM.exec in Hu.
    split; intros E; congruence.
  - destruct (run_action (Env ev) (hook p)) as [[r w]|] eqn:E; [|discriminate].
    apply with_hook_hook in Hs. rewrite Hs. simpl.
    apply (life_dispatch ev (hook p) r); [exact I| |exact E].
    intros h Eh. simpl in Hl. now rewrite Eh in Hl.
Qed.

Lemma dreach_life (t0 : T) now p : dreach t0 now p -> life_inv (hook p).
Proof.
  induction 1 as [|a p p' R IH Hl Hs]; [apply life_init|].
  exact (proj1 (life_page_step a p p' IH Hl Hs)).
Qed.
End LifePage.

(** ** What the page guarantees *)

Section LifeTheorems.
Context {T : Type} `{laws : WebSocketLaws T}.

(** C12: under the single-socket discipline, every step of the page moves
    the phase its state shows by the transition of the specification's
    machine that the step's label allows: pressing Connect goes to
    [Connecting] (or [Error] when the socket cannot be created), an open
    event from [Connecting] to [Connected], a close event from
    [Connecting] or [Connected] to [Idle] or [Error], and every other step
    (messages, sends, edits, Disconnect before its close event) keeps the
    phase. *)
Theorem page_refines_lifecycle (t0 : T) now a (p p' : Page T) :
  dreach t0 now p -> from_latest a p -> page_step a p = Some p' ->
  mounted (hook p') = true ->
  spec_move (label_of a) (phase (state (hook p))) (phase (state (hook p'))).
Proof.
  intros R Hl Hs Hm. exact (proj2 (life_page_step a p p' (dreach_life t0 now p R) Hl Hs) Hm).
Qed.

(** C13: under the same discipline, [isConnected] and [isConnecting] are
    never both true while the page is mounted, as the specification's
    section 3 requires. *)
Theorem page_flags_exclusive (t0 : T) now (p : Page T) :
  dreach t0 now p -> mounted (hook p) = true ->
  isConnected (state (hook p)) = false \/ isConnecting (state (hook p)) = false.
Proof.
  intros R Hm. destruct (dreach_life t0 now p R Hm) as [_ Hl].
  destruct (latest (hook p)) as [h|]; [|intuition].
  destruct (ws_state (sockets (hook p)) h) as [[| | |]|]; intuition.
Qed.
(** Pressing Connect with both flags down and an accepted URL attaches
    the form's config to a fresh CONNECTING socket. *)
Lemma click_connect_fresh (p : Page T) :
  life_inv (hook p) -> mounted (hook p) = true ->
  isConnected (state (hook p)) = false -> isConnecting (state (hook p)) = false ->
  fields_filled (form p) = true -> ws_url_ok (ws_url (form p)) = true ->
  exists h p1, page_step ClickConnect p = Some p1 /\ latest (hook p1) = Some h /\
    find_callbacks h (callbacks (hook p1)) = Some (form p) /\
    ws_state (sockets (hook p1)) h = Some CONNECTING /\ mounted (hook p1) = true.
Proof.
  intros I Hm Hc Hg Hf Hu. pose proof (life_no_open (hook p) I Hm Hc Hg) as Hno.
  pose proof (create_spec (ws_url (form p)) (sockets (hook p))) as Hcr.
  destruct (ws_create (ws_url (form p)) (sockets (hook p))) as [[h t']|] eqn:Ecr; [|congruence].
  destruct Hcr as (_ & _ & Hconn & _ & _).
  unfold page_step, connect_enabled. rewrite Hc, Hg, Hf, Hm. simpl.
  unfold handleConnect. rewrite Hf, connect_run. cbv zeta.
  rewrite (connect_prelude_no_open _ _ Hno). simpl sockets. rewrite Ecr.
  eexists h, _. split; [reflexivity|]. rewrite rerender_hook. simpl.
  split; [reflexivity|]. rewrite Nat.eqb_refl. auto.
Qed.

(** C14: from [Idle] or [Error], with the form filled and a URL the
    constructor accepts, the user can always reach [Connected]: pressing
    Connect and the browser opening the new socket get there. *)
Theorem page_can_connect (t0 : T) now (p : Page T) :
  dreach t0 now p -> mounted (hook p) = true ->
  phase (state (hook p)) = Idle \/ phase (state (hook p)) = Error ->
  fields_filled (form p) = true -> ws_url_ok (ws_url (form p)) = true ->
  exists h p1 p2, page_step ClickConnect p = Some p1 /\ from_latest (Browser (EvOpen h)) p1 /\
    page_step (Browser (EvOpen h)) p1 = Some p2 /\ phase (state (hook p2)) = Connected.
Proof.
  intros R Hm Hp Hf Hu. pose proof (dreach_life t0 now p R) as I.
  assert (Hfl : isConnected (state (hook p)) = false /\ isConnecting (state (hook p)) = false).
  { unfold phase in Hp. destruct (isConnecting _), (isConnected _);
      try (destruct Hp as [E|E]; discriminate E); auto. }
  destruct Hfl as [Hc Hg].
  destruct (click_connect_fresh p I Hm Hc Hg Hf Hu) as (h & p1 & Hs1 & El & Hcb & Hconn & Hm1).
  destruct (opened_spec h _ Hconn) as (Ho & _).
  destruct (send_open h (recent_request (form p)) _ Ho) as (t2 & Hs2 & _).
  exists h, p1. eexists. split; [exact Hs1|]. split; [exact El|].
  unfold page_step, run_action. simpl. rewrite Hconn. unfold with_callbacks. simpl. rewrite Hcb.
  rewrite onopen_run. cbv zeta. simpl. rewrite Hs2. split; [reflexivity|].
  rewrite rerender_hook. simpl. rewrite Hm1. reflexivity.
Qed.
End LifeTheorems.


(** ** The theorems applied to runs of the page in the browser model *)

Module LifeWitnesses.
Import Browser Runs PageWitnesses.
Local Open Scope string_scope.

(** [from_latest], decided. *)
Definition from_latest_b (a : ui_action) (p : Page (list Socket)) : bool :=
  match a with
  | Browser ev =>
      match event_socket ev, latest (hook p) with
      | Some h, Some h' => Nat.eqb h h'
      | Some _, None => false
      | None, _ => true
      end
  | _ => true
  end.

(** A run of the page in which every event comes from the latest socket. *)
Fixpoint drun (acts : list ui_action) (p : Page (list Socket)) : option (Page (list Socket)) :=
  match acts with
  | [] => Some p
  | a :: rest =>
      if from_latest_b a p then
        match page_step a p with Some p' => drun rest p' | None => None end
      else None
  end.

Lemma from_latest_b_ok a p : from_latest_b a p = true -> from_latest a p.
Proof.
  destruct a as [| | | | | | |ev]; simpl; auto. destruct (event_socket ev) as [h|]; auto.
  destruct (latest (hook p)) as [h'|]; [|discriminate]. intros E. apply Nat.eqb_eq in E. now subst.
Qed.

Lemma drun_reach acts p p' :
  dreach [] 1700000000000%Z p -> drun acts p = Some p' -> dreach [] 1700000000000%Z p'.
Proof.
  revert p. induction acts as [|a acts IH]; simpl; intros p R E; [now injection E as <-|].
  destruct (from_latest_b a p) eqn:Ef; [|discriminate].
  destruct (page_step a p) as [p1|] eqn:Es; [|discriminate].
  apply (IH p1); [|exact E]. exact (dreach_step _ _ a p p1 R (from_latest_b_ok a p Ef) Es).
Qed.

Definition after_page (acts : list ui_action) : Page (list Socket) :=
  let p0 := init_page [] 1700000000000%Z in
  match drun acts p0 with Some p => p | None => p0 end.

Definition connect_acts : list ui_action := filled_acts ++ [ClickConnect; Browser (EvOpen 0)].
Definition d_open : Page (list Socket) := after_page connect_acts.
Definition d_lost : Page (list Socket) :=
  after_page (connect_acts ++ [Browser (EvClose 0 false 1006 "")]).

Lemma after_page_reach acts :
  drun acts (init_page [] 1700000000000%Z) <> None ->
  dreach [] 1700000000000%Z (after_page acts).
Proof.
  unfold after_page. destruct (drun acts _) as [p|] eqn:E; [|contradiction].
  intros _. exact (drun_reach acts _ p (dreach_init _ _) E).
Qed.

Lemma page_refines_lifecycle_witness :
  spec_move LClose (phase (state (hook d_open))) (phase (state (hook d_lost))).
Proof.
  apply (page_refines_lifecycle [] 1700000000000%Z (Browser (EvClose 0 false 1006 "")) d_open d_lost);
    [apply after_page_reach; vm_compute; discriminate
    |vm_compute; reflexivity|vm_compute; reflexivity|vm_compute; reflexivity].
Defined.

Lemma page_flags_exclusive_witness :
  isConnected (state (hook d_open)) = false \/ isConnecting (state (hook d_open)) = false.
Proof.
  apply (page_flags_exclusive [] 1700000000000%Z d_open);
    [apply after_page_reach; vm_compute; discriminate|vm_compute; reflexivity].
Defined.

Lemma page_can_connect_witness :
  exists h p1 p2, page_step ClickConnect d_lost = Some p1 /\ from_latest (Browser (EvOpen h)) p1 /\
    page_step (Browser (EvOpen h)) p1 = Some p2 /\ phase (state (hook p2)) = Connected.
Proof.
  apply (page_can_connect [] 1700000000000%Z d_lost);
    [apply after_page_reach; vm_compute; discriminate|vm_compute; reflexivity
    |right; vm_compute; reflexivity|vm_compute; reflexivity|vm_compute; reflexivity].
Defined.

End LifeWitnesses.
