(* ===== verification/MessageLog.v ===== *)
(** The order of the message log.

    The specification says the log is "an ordered sequence of Message
    (append-order = arrival-order)".  In the code the log is
    [state.messages], changed by three [setState] updaters of
    useWebSocket.ts: [connect] empties it (line 22), a [message] frame
    appends one message at the end (lines 73-76), a [recent_messages]
    frame replaces it as a whole (lines 87-90); every other updater
    spreads [prev] and keeps it.

    [run_action_log] shows that each step of the hook changes the log in
    one of these ways only, [page_log_step] lifts it to the page, and
    [log_arrival_order] follows a run of the page: as long as the user
    does not connect again and no [recent_messages] frame arrives, the log
    found at the start stays a prefix of the log, and what follows it is
    the messages of the run's [message] frames in the order they arrived
    (some frames adding nothing, when they are dropped or come while the
    page is unmounted). *)

From Stdlib Require Import String List Bool ZArith Lia.
From S2P Require Import Spec2Rocq JsValue JsRuntime Json Chat MessageStore Transport Connection App.
Import ListNotations.

(** How the log may change in one step: kept, emptied (by a connect),
    extended by the message of a [message] frame, or replaced by the
    messages of a [recent_messages] frame. *)
Definition log_change (clears : Prop) (frame : option string) (l l' : list Message) : Prop :=
  l' = l \/ (clears /\ l' = []) \/
  (exists data now m, frame = Some data /\
     MessageStore.interpret_frame now data = inr (MessageStore.Append m) /\ l' = l ++ [m]) \/
  (exists data now ms, frame = Some data /\
     MessageStore.interpret_frame now data = inr (MessageStore.Replace ms) /\ l' = ms).

(** The hook's actions that may empty the log, and the frame an action
    carries. *)
Definition act_clears (a : action) : Prop := match a with Connect _ => True | _ => False end.
Definition act_frame (a : action) : option string :=
  match a with Env (EvMessage _ data) => Some data | _ => None end.

(** The same for the page's actions. *)
Definition ui_frame (a : ui_action) : option string :=
  match a with Browser (EvMessage _ data) => Some data | _ => None end.

(** The actions after which the log need not extend the one before: a
    new connection, a [recent_messages] frame. *)
Definition resets (a : ui_action) : Prop :=
  a = ClickConnect \/
  exists h data now ms, a = Browser (EvMessage h data) /\
    MessageStore.interpret_frame now data = inr (MessageStore.Replace ms).

(** [appended_by acts s]: [s] is, in order, the messages built by some of
    the [message] frames of [acts]. *)
Inductive appended_by : list ui_action -> list Message -> Prop :=
| appended_nil : appended_by [] []
| appended_skip a acts s : appended_by acts s -> appended_by (a :: acts) s
| appended_take h data now m acts s :
    MessageStore.interpret_frame now data = inr (MessageStore.Append m) ->
    appended_by acts s -> appended_by (Browser (EvMessage h data) :: acts) (m :: s).

Section Log.
Context {T : Type} `{laws : WebSocketLaws T}.

Definition log (w : World T) : list Message := messages (state w).

(** A run of the page through a list of actions, each of them possible. *)
Inductive page_run : Page T -> list ui_action -> Page T -> Prop :=
| page_run_nil p : page_run p [] p
| page_run_cons p a p1 acts p2 :
    page_step a p = Some p1 -> page_run p1 acts p2 -> page_run p (a :: acts) p2.

Lemma log_keep clears frame l : log_change clears frame l l.
Proof. now left. Qed.

Lemma log_upd_state f (w : World T) :
  log (upd_state f w) = if mounted w then messages (f (state w)) else log w.
Proof. unfold log, upd_state. simpl. now destruct (mounted w). Qed.

Lemma disconnect_state (w : World T) :
  state (JsM.exec disconnect w) = state w /\ mounted (JsM.exec disconnect w) = mounted w.
Proof. unfold JsM.exec. rewrite disconnect_run. simpl. now destruct (websocketRef w). Qed.

(** [connect] empties the log of a mounted hook, whether or not the
    socket can be created. *)
Lemma connect_log c (w : World T) :
  mounted w = true -> log (JsM.exec (connect c) w) = [].
Proof.
  intros Hm. unfold JsM.exec. rewrite connect_run. cbv zeta.
  assert (Hp : log (connect_prelude c w) = [] /\ mounted (connect_prelude c w) = true).
  { assert (Hclear : forall w1 : World T, mounted w1 = true ->
            log (upd_configRef (Some c)
                   (upd_state (fun prev => mkChatState (isConnected prev) true [] None) w1)) = [] /\
            mounted (upd_configRef (Some c)
                   (upd_state (fun prev => mkChatState (isConnected prev) true [] None) w1)) = true)
      by (intros w1 H1; unfold log; simpl; rewrite H1; split; reflexivity).
    unfold connect_prelude.
    destruct (match websocketRef w with Some h => ws_state (sockets w) h | None => None end)
      as [[| | |]|]; apply Hclear; try exact Hm.
    destruct (disconnect_state w) as [_ Hd]. congruence. }
  destruct Hp as [Hl Hm'].
  revert Hl Hm'. generalize (connect_prelude c w) as w2. intros w2 Hl Hm'.
  unfold log in *. destruct (ws_create _ _) as [[h t']|]; simpl; [exact Hl|].
  rewrite Hm'. exact Hl.
Qed.

(** What one action of the hook does to the log. *)
Lemma run_action_log act (w w' : World T) r :
  run_action act w = Some (r, w') -> log_change (act_clears act) (act_frame act) (log w) (log w').
Proof.
  destruct act as [c| |c t| |[h|h data|h failed code reason|t]]; simpl; intros E.
  - destruct (mounted w) eqn:Em; [|discriminate]. injection E as E.
    right; left. split; [exact I|].
    change w' with (snd (r, w')). rewrite <- E. exact (connect_log c w Em).
  - destruct (mounted w); [|discriminate]. injection E as E.
    rewrite disconnect_run in E. injection E as _ <-. left.
    unfold log. now destruct (websocketRef w).
  - destruct (mounted w); [|discriminate]. injection E as E.
    rewrite sendMessage_run in E. left.
    destruct (websocketRef w) as [h|]; [|injection E as _ <-; reflexivity].
    destruct (ws_state (sockets w) h) as [[| | |]|]; try (injection E as _ <-; reflexivity).
    destruct (configRef w); [|injection E as _ <-; reflexivity].
    destruct (ws_send _ _ _); injection E as _ <-; reflexivity.
  - destruct (mounted w); [|discriminate]. injection E as E. left.
    unfold unmount in E. jsm_unfold. rewrite disconnect_run in E. injection E as _ <-.
    unfold log. now destruct (websocketRef w).
  - destruct (ws_state (sockets w) h) as [[| | |]|]; try discriminate.
    injection E as E. left. unfold with_callbacks in E. simpl in E.
    destruct (find_callbacks h (callbacks w)); [|injection E as _ <-; reflexivity].
    rewrite onopen_run in E. cbv zeta in E.
    destruct (ws_send _ _ _); injection E as _ <-; unfold log; simpl; now destruct (mounted w).
  - destruct (ws_state (sockets w) h) as [[| | |]|]; try discriminate.
    injection E as E. unfold with_callbacks in E.
    destruct (find_callbacks h (callbacks w)); [|injection E as _ <-; now left].
    rewrite onmessage_run in E. injection E as _ <-.
    destruct (MessageStore.interpret_frame (clock w) data) as [e|[m|ms|]] eqn:Ef; [now left|..];
      rewrite log_upd_state; destruct (mounted w); try now left.
    + right; right; left. exists data, (clock w), m. repeat split; assumption.
    + right; right; right. exists data, (clock w), ms. repeat split; assumption.
  - destruct (ws_state (sockets w) h) as [[| | |]|]; try discriminate;
      injection E as E; unfold with_callbacks in E; simpl in E;
      (destruct (find_callbacks h (callbacks w)); [|injection E as _ <-; now left]);
      left; destruct failed; unfold onerror, onclose, setState, toast in E; jsm_unfold;
      simpl in E; destruct (negb (code =? 1000)%Z); injection E as _ <-;
      unfold log; simpl; now destruct (mounted w).
  - injection E as _ <-. now left.
Qed.

(** An action that neither clears nor carries a frame keeps the log. *)
Lemma log_change_quiet (c : Prop) l l' : ~ c -> log_change c None l l' -> l' = l.
Proof. intros Hc [Hk|[[Hk _]|[(? & ? & ? & [=] & _)|(? & ? & ? & [=] & _)]]]; tauto. Qed.

(** [send_input] keeps the log of a mounted hook. *)
Lemma send_input_log (p p' : Page T) :
  mounted (hook p) = true -> send_input p = Some p' -> log (hook p') = log (hook p).
Proof.
  intros Em Hs. destruct (send_input_hook p p' Hs) as [->|[r Er]]; [reflexivity|].
  apply (log_change_quiet False); [tauto|].
  apply (run_action_log (Send (trim (messageInput p)) recipient_literal) _ _ r).
  simpl. now rewrite Em, Er.
Qed.

(** What one step of the page does to the log. *)
Lemma page_log_step a (p p' : Page T) :
  page_step a p = Some p' ->
  log_change (a = ClickConnect) (ui_frame a) (log (hook p)) (log (hook p')).
Proof.
  destruct a as [f v| | |s| |key shift| |ev]; unfold page_step; cbv beta iota zeta; intros Hs.
  - destruct (form_enabled _); [|discriminate]. injection Hs as <-. now left.
  - destruct (connect_enabled _ _ && mounted _) eqn:Ec; [|discriminate].
    apply andb_prop in Ec as [_ Em]. rewrite (with_hook_hook _ _ _ Hs).
    unfold handleConnect. destruct (fields_filled (form p)); [|now left].
    right; left. split; [reflexivity|]. exact (connect_log _ _ Em).
  - destruct (isConnected _ && mounted _); [|discriminate].
    rewrite (with_hook_hook _ _ _ Hs). left. apply (f_equal messages), (disconnect_state (hook p)).
  - destruct (isConnected _); [|discriminate]. injection Hs as <-. now left.
  - destruct (isConnected _ && mounted _ && _) eqn:Ec; [|discriminate].
    apply andb_prop in Ec as [Ec _]. apply andb_prop in Ec as [_ Em].
    left. exact (send_input_log p p' Em Hs).
  - destruct (isConnected _ && mounted _) eqn:Ec; [|discriminate].
    apply andb_prop in Ec as [_ Em]. left.
    destruct (handleKeyPress key shift); [exact (send_input_log p p' Em Hs)|].
    now injection Hs as <-.
  - destruct (mounted (hook p)); [|discriminate].
    destruct (run_action Unmount (hook p)) as [[r w']|] eqn:Er; [|discriminate].
    simpl in Hs. injection Hs as <-. rewrite rerender_hook. simpl. left.
    apply (log_change_quiet False); [tauto|]. exact (run_action_log _ _ _ _ Er).
  - destruct (run_action (Env ev) (hook p)) as [[r w']|] eqn:Er; [|discriminate].
    simpl in Hs. injection Hs as <-. rewrite rerender_hook. simpl.
    destruct (run_action_log _ _ _ _ Er) as [Hk|[[[] _]|Hk]]; [now left|right; right; exact Hk].
Qed.

(** C19: along any run of the page in which the user does not connect
    again and no [recent_messages] frame arrives, the log found at the
    start is never reordered, changed or cut: it stays a prefix of the
    log, and what follows it is, in arrival order, the messages built by
    some of the run's [message] frames (a message is appended at the end
    when its frame arrives, never inserted before an earlier one). *)
Theorem log_arrival_order (p p' : Page T) acts :
  page_run p acts p' -> Forall (fun a => ~ resets a) acts ->
  exists suffix, log (hook p') = log (hook p) ++ suffix /\ appended_by acts suffix.
Proof.
  induction 1 as [p|p a p1 acts p2 Hs Hrun IH]; intros Hall.
  - exists []. split; [now rewrite app_nil_r|constructor].
  - inversion Hall as [|? ? Hna Hrest]; subst. destruct (IH Hrest) as (s & Hl & Hab).
    destruct (page_log_step a p p1 Hs)
      as [E|[[Ec _]|[(data & now & m & Hf & Hi & E)|(data & now & ms & Hf & Hi & E)]]].
    + exists s. rewrite Hl, E. split; [reflexivity|now constructor].
    + exfalso. apply Hna. now left.
    + destruct a; simpl in Hf; try discriminate Hf. destruct ev; simpl in Hf; try discriminate Hf.
      injection Hf as <-. exists (m :: s). rewrite Hl, E, <- app_assoc.
      split; [reflexivity|]. econstructor; eassumption.
    + exfalso. destruct a; simpl in Hf; try discriminate Hf. destruct ev; simpl in Hf; try discriminate Hf.
      injection Hf as <-. apply Hna. right. do 4 eexists. split; [reflexivity|eassumption].
Qed.

End Log.

(** ** A concrete run *)

Module MessageLogRuns.
Import Browser Runs PageWitnesses.
Local Open Scope string_scope.

Definition frame_a : string := q "{'type':'message','id':'a','content':'first','fromId':'u2','toId':'u1'}".
Definition frame_b : string := q "{'type':'message','id':'b','content':'second','fromId':'u2','toId':'u1'}".
Definition two_frames : list ui_action :=
  [Browser (EvMessage 0 frame_a); Browser (EvMessage 0 frame_b)].

(** A [message] frame is never a reset. *)
Lemma message_frame_no_reset h text data :
  json_parse text = inr data -> get data "type" = inr (JStr "message") ->
  ~ resets (Browser (EvMessage h text)).
Proof.
  intros Hp Ht [E|(h' & d & now & ms & E & Hi)]; [discriminate|].
  injection E as <- <-. rewrite (MessageStore.interpret_message_frame now text data Hp Ht) in Hi.
  discriminate.
Qed.

Lemma two_frames_run : page_run p_open two_frames (page_steps two_frames p_open).
Proof.
  apply (page_run_cons _ _ (page_steps [Browser (EvMessage 0 frame_a)] p_open));
    [vm_compute; reflexivity|].
  apply page_run_cons with (p1 := page_steps two_frames p_open); [vm_compute; reflexivity|].
  apply page_run_nil.
Qed.

Lemma two_frames_quiet : Forall (fun a => ~ resets a) two_frames.
Proof.
  repeat constructor; eapply message_frame_no_reset; vm_compute; reflexivity.
Qed.

Lemma log_arrival_order_witness :
  exists suffix, log (hook (page_steps two_frames p_open)) = (log (hook p_open) ++ suffix)%list /\
                 appended_by two_frames suffix.
Proof. exact (log_arrival_order _ _ _ two_frames_run two_frames_quiet). Defined.

End MessageLogRuns.
