(* ===== verification/View.v ===== *)
(** What the page renders: the connection panel (ConnectionPanel.tsx,
    lines 67-166), the chat panel (ChatInterface.tsx, lines 59-146), and
    the page that shows the second only while connected (ChatTester.tsx,
    lines 29-46).

    A view keeps what the user sees and can use: the badge, the field
    values and whether they are disabled, the error, which button is
    shown and whether it is enabled, the message bubbles (their React
    [key], alignment, sender, pending clock, timestamp and content), the
    counter and the input's placeholder.  Styling, icons and layout are
    left out, and a bubble keeps the raw [timestamp]: [formatTimestamp]
    ([toLocaleTimeString]) depends on the locale.

    The theorems show that the guards of [App.page_step] are exactly the
    controls the view renders enabled, and that the view can hold two
    bubbles with the same React key. *)

From Stdlib Require Import String List Bool ZArith Lia.
From S2P Require Import Spec2Rocq JsValue JsRuntime Json Chat MessageStore Transport Connection App Lifecycle.
Import ListNotations.

(** ** The connection panel *)

Inductive ConnectLabel : Type := LabelConnect | LabelConnecting.

(** The button of lines 137-165. *)
Inductive ActionButton : Type :=
| ConnectButton (enabled : bool) (label : ConnectLabel)
| DisconnectButton.

Record PanelView : Type := mkPanelView {
  pv_badge : Badge;
  pv_config : ConnectionConfig;
  pv_inputs_disabled : bool;
  pv_error : option string;
  pv_button : ActionButton
}.

(** [{error && <p>{error}</p>}] (lines 129-133): [null] and the empty
    string show nothing. *)
Definition shown_error (error : option string) : option string :=
  match error with Some e => if filled e then Some e else None | None => None end.

(** The render of [ConnectionPanel] from its [config] state and its props. *)
Definition panel_view (config : ConnectionConfig) (isConnected isConnecting : bool)
    (error : option string) : PanelView :=
  {| pv_badge := getStatusBadge isConnected isConnecting;
     pv_config := config;
     pv_inputs_disabled := isConnected || isConnecting;
     pv_error := shown_error error;
     pv_button :=
       if negb isConnected then
         ConnectButton
           (negb (negb (filled (serverUrl config)) || negb (filled (jwtToken config)) ||
                  negb (filled (userId config)) || negb (filled (recipientId config)) ||
                  isConnecting))
           (if isConnecting then LabelConnecting else LabelConnect)
       else DisconnectButton |}.

(** ** The chat panel *)

(** One message of the list (lines 85-121). *)
Record Bubble : Type := mkBubble {
  b_key : jsv;          (** [key={message.id}] *)
  b_own : bool;         (** [justify-end] and the sent colours *)
  b_sender : jsv;       (** ['You'] or [message.fromId] *)
  b_pending : bool;     (** the clock of [!message.delivered && isCurrentUser] *)
  b_timestamp : jsv;    (** shown through [formatTimestamp] *)
  b_content : jsv
}.

Definition bubble (currentUserId : string) (m : Message) : Bubble :=
  let own := isCurrentUser m currentUserId in
  {| b_key := id m;
     b_own := own;
     b_sender := if own then JStr "You" else fromId m;
     b_pending := negb (truthy (delivered m)) && own;
     b_timestamp := timestamp m;
     b_content := content m |}.

Record ChatView : Type := mkChatView {
  cv_title : string;            (** [Chat with {recipientId}] *)
  cv_count : nat;               (** [{messages.length} messages] *)
  cv_badge_default : bool;      (** the counter's variant *)
  cv_empty : bool;              (** "No messages yet" *)
  cv_bubbles : list Bubble;
  cv_placeholder : string;
  cv_input_disabled : bool;
  cv_send_disabled : bool
}.

Local Open Scope string_scope.

(** The render of [ChatInterface] from its props and its [messageInput]
    state. *)
Definition chat_view (messages : list Message) (currentUserId recipientId : string)
    (isConnected : bool) (messageInput : string) : ChatView :=
  {| cv_title := recipientId;
     cv_count := length messages;
     cv_badge_default := isConnected;
     cv_empty := Nat.eqb (length messages) 0;
     cv_bubbles := map (bubble currentUserId) messages;
     cv_placeholder := if isConnected then "Type your message..." else "Connect to start chatting";
     cv_input_disabled := negb isConnected;
     cv_send_disabled := negb (filled (trim messageInput)) || negb isConnected |}.

Local Close Scope string_scope.

(** ** The page *)

Record PageView : Type := mkPageView {
  v_panel : PanelView;
  v_chat : option ChatView
}.

Section PageView.
Context {T : Type} `{api : WebSocketApi T}.

(** [ChatTester]'s render: the panel always, the chat panel while
    [state.isConnected], with the literal props of lines 41-42. *)
Definition page_view (p : Page T) : PageView :=
  let st := state (hook p) in
  {| v_panel := panel_view (form p) (isConnected st) (isConnecting st) (error st);
     v_chat := if isConnected st
               then Some (chat_view (messages st) (currentUserId st) recipient_literal
                            (isConnected st) (messageInput p))
               else None |}.

(** Whether the view offers the control an action uses. *)
Definition enabled_in_view (v : PageView) (a : ui_action) : bool :=
  match a with
  | Edit _ _ => negb (pv_inputs_disabled (v_panel v))
  | ClickConnect => match pv_button (v_panel v) with ConnectButton en _ => en | _ => false end
  | ClickDisconnect => match pv_button (v_panel v) with DisconnectButton => true | _ => false end
  | TypeMessage _ | KeyPress _ _ =>
      match v_chat v with Some c => negb (cv_input_disabled c) | None => false end
  | ClickSend => match v_chat v with Some c => negb (cv_send_disabled c) | None => false end
  | Leave | Browser _ => true
  end.
End PageView.

(** ** The page's actions are the view's enabled controls *)

Section ViewTheorems.
Context {T : Type} `{api : WebSocketApi T}.

Lemma with_hook_some (p : Page T) m : with_hook p (Some m) <> None.
Proof. destruct m. discriminate. Qed.

Lemma send_input_some (p : Page T) : send_input p <> None.
Proof. unfold send_input. destruct (handleSendMessage _ _ _). discriminate. Qed.

(** An option that is [Some] exactly when a boolean holds. *)
Lemma some_iff {A} (b : bool) (x : option A) :
  x <> None -> ((if b then x else None) <> None <-> b = true).
Proof. intros Hx. destruct b; split; congruence. Qed.

(** With the page mounted, a user action is possible in the model
    exactly when the rendered view offers its control enabled: the form
    fields while neither connected nor connecting, the Connect button
    when every field is filled and no connection is in progress, the
    Disconnect button while connected, the message input while the chat
    panel is shown, the Send button when the trimmed input is non-empty. *)
Theorem page_step_matches_view (p : Page T) a :
  mounted (hook p) = true -> (forall ev, a <> Browser ev) ->
  (page_step a p <> None <-> enabled_in_view (page_view p) a = true).
Proof.
  intros Hm Hb. destruct a as [f v| | |s| |key shift| |ev];
    unfold page_step, page_view, enabled_in_view; cbv beta iota zeta; simpl; rewrite ?Hm.
  - unfold form_enabled. apply some_iff. discriminate.
  - unfold connect_enabled, fields_filled. rewrite andb_true_r.
    destruct (isConnected _); simpl; [split; congruence|].
    rewrite <- (negb_involutive (filled (serverUrl (form p)) && _ && _ && _ && _)).
    rewrite !negb_andb, !negb_involutive. apply some_iff, with_hook_some.
  - rewrite andb_true_r. destruct (isConnected _); simpl; [|split; congruence].
    split; [reflexivity|intros _; apply with_hook_some].
  - destruct (isConnected _); simpl; split; congruence.
  - rewrite andb_true_r. unfold send_enabled. destruct (isConnected _); simpl; [|split; congruence].
    rewrite orb_false_r. apply some_iff, send_input_some.
  - rewrite andb_true_r. destruct (isConnected _); simpl; [|split; congruence].
    split; [reflexivity|intros _]. destruct (handleKeyPress _ _); [apply send_input_some|discriminate].
  - split; [reflexivity|intros _]. destruct (run_action Unmount (hook p)) as [m|] eqn:E.
    + apply with_hook_some.
    + simpl in E. rewrite Hm in E. discriminate.
  - exfalso. exact (Hb ev eq_refl).
Qed.
(** The Connect button's [disabled] condition (line 139) with no
    connection in progress is [ConnectionPanel]'s guard. *)
Lemma connect_button_enabled c :
  negb (negb (filled (serverUrl c)) || negb (filled (jwtToken c)) || negb (filled (userId c)) ||
        negb (filled (recipientId c)) || false) = fields_filled c.
Proof.
  unfold fields_filled.
  destruct (filled (serverUrl c)), (filled (jwtToken c)), (filled (userId c)), (filled (recipientId c));
    reflexivity.
Qed.

(** C26: while the flags are exclusive, the page shows the phase of the
    specification's connection machine ([Lifecycle.phase]): in Idle and
    Error the form can be edited, the badge reads Disconnected, the
    button is Connect, enabled exactly when the four fields are
    non-empty, and there is no chat panel; in Connecting the form is
    locked, the badge reads Connecting and the button is a disabled
    "Connecting..."; in Connected the form is locked, the badge reads
    Connected, the button is Disconnect and the chat panel is shown. *)
Theorem view_follows_phase (p : Page T) :
  ~ (isConnected (state (hook p)) = true /\ isConnecting (state (hook p)) = true) ->
  match phase (state (hook p)) with
  | ConnSpec.Idle | ConnSpec.Error =>
      pv_inputs_disabled (v_panel (page_view p)) = false /\
      (pv_button (v_panel (page_view p)) = ConnectButton true LabelConnect <-> config_complete (form p)) /\
      (exists en, pv_button (v_panel (page_view p)) = ConnectButton en LabelConnect) /\
      pv_badge (v_panel (page_view p)) = BadgeDisconnected /\ v_chat (page_view p) = None
  | ConnSpec.Connecting =>
      pv_inputs_disabled (v_panel (page_view p)) = true /\
      pv_button (v_panel (page_view p)) = ConnectButton false LabelConnecting /\
      pv_badge (v_panel (page_view p)) = BadgeConnecting /\ v_chat (page_view p) = None
  | ConnSpec.Connected =>
      pv_inputs_disabled (v_panel (page_view p)) = true /\
      pv_button (v_panel (page_view p)) = DisconnectButton /\
      pv_badge (v_panel (page_view p)) = BadgeConnected /\ v_chat (page_view p) <> None
  end.
Proof.
  intros Hx. unfold page_view, phase. simpl.
  destruct (isConnecting _) eqn:Ei, (isConnected _) eqn:Ec; simpl.
  - exfalso. tauto.
  - now rewrite orb_true_r.
  - repeat split; discriminate.
  - rewrite connect_button_enabled.
    assert (Hb : ConnectButton (fields_filled (form p)) LabelConnect = ConnectButton true LabelConnect
                 <-> config_complete (form p)).
    { rewrite <- fields_filled_spec. split; [intros E; now injection E|intros ->; reflexivity]. }
    destruct (error _); (split; [reflexivity|split; [exact Hb|split; [eexists; reflexivity|auto]]]).
Qed.

End ViewTheorems.

(** ** The views of concrete runs *)

Module ViewRuns.
Import Browser Runs PageWitnesses.
Local Open Scope string_scope.

(** A message frame without [id]. *)
Definition frame_no_id : string := q "{'type':'message','content':'hi','fromId':'u2','toId':'u1'}".

Definition p_two : Page (list Socket) :=
  page_steps [Browser (EvMessage 0 frame_no_id); Browser (EvMessage 0 frame_no_id)] p_open.

(** C37: two frames without [id] received in the same millisecond are
    rendered as two bubbles with the same React [key] ([key={message.id}],
    ChatInterface.tsx line 90), which React requires to be unique among
    siblings. *)
Theorem duplicate_bubble_keys :
  page_reachable [] 1700000000000%Z p_two /\
  option_map (fun c => map b_key (cv_bubbles c)) (v_chat (page_view p_two)) =
    Some [JStr "1700000000000"; JStr "1700000000000"].
Proof.
  split; [apply page_steps_reachable, p_open_reachable|vm_compute; reflexivity].
Qed.

Lemma view_follows_phase_witness :
  pv_inputs_disabled (v_panel (page_view p_open)) = true /\
  pv_button (v_panel (page_view p_open)) = DisconnectButton /\
  pv_badge (v_panel (page_view p_open)) = BadgeConnected /\ v_chat (page_view p_open) <> None.
Proof.
  apply (view_follows_phase p_open). vm_compute. intros [_ E]. discriminate.
Defined.

End ViewRuns.
