(* ===== verification/Timestamps.v ===== *)
(** The time shown in a message bubble: [formatTimestamp] of
    ChatInterface.tsx (lines 43-52) applied to [message.timestamp]
    (line 112), over the [Date] model of [DateTime].

    [formatTimestamp] calls [new Date(timestamp).toLocaleTimeString(...)]
    inside a [try] whose [catch] returns the empty string.  Neither call
    throws on a string: a string that is not a date makes an invalid
    [Date], which prints as ["Invalid Date"].  The [catch] is reached
    only when [ToPrimitive] throws, on an object with an own [toString]
    property or an array holding one ([format_timestamp_catch]).  A
    message whose frame has no timestamp gets the receipt time written by
    [toISOString], and is shown at that time in the local time zone
    ([receipt_time_shown]). *)

From Stdlib Require Import String List Bool ZArith Lia.
From S2P Require Import Spec2Rocq JsValue JsRuntime DateTime Json Chat MessageStore Connection View.
Import ListNotations.
Local Open Scope Z_scope.

(** Values on which [ToPrimitive] throws: objects with an own [toString]
    property, and arrays holding one at any depth. *)
Fixpoint throws_to_primitive (v : jsv) : bool :=
  match v with
  | JObj ps => own_to_string ps
  | JArr items => existsb throws_to_primitive items
  | _ => false
  end.

Section Format.
Context `{env : DateEnv}.

(** [formatTimestamp] (lines 43-52). *)
Definition formatTimestamp (timestamp : jsv) : string :=
  match date_value timestamp with
  | inl _ => EmptyString
  | inr tv => to_locale_time_string tv
  end.

(** The time text of a bubble (line 112). *)
Definition bubble_time (b : Bubble) : string := formatTimestamp (b_timestamp b).

(** [sbind] throws exactly when its first computation does, when the
    continuation does not throw. *)
Lemma sbind_throws {A B} (r : exn + A) (k : A -> exn + B) :
  (forall a, exists b, k a = inr b) -> ((exists e, sbind r k = inl e) <-> (exists e, r = inl e)).
Proof.
  intros Hk. destruct r as [e|a]; simpl; [split; eauto|].
  destruct (Hk a) as [b ->]. split; intros [e He]; discriminate.
Qed.

Lemma join_element_throws v : (exists e, join_element v = inl e) <-> throws_to_primitive v = true.
Proof.
  induction v as [| |b|m e|s|l Hl|ps Hps] using jsv_ind'; cbn [join_element throws_to_primitive];
    try (split; [intros [? ?]; discriminate|discriminate]).
  - rewrite sbind_throws by eauto.
    induction Hl as [|x xs Hx Hxs IH]; cbn; [split; [intros [e He]; discriminate|discriminate]|].
    rewrite orb_true_iff, <- Hx, <- IH.
    destruct (join_element x) as [e|s]; simpl; [split; eauto|].
    rewrite sbind_throws by eauto. split; [intros H; now right|intros [[e He]|H]; [discriminate|exact H]].
  - destruct (own_to_string ps); split; eauto; intros H; first [discriminate H | destruct H as [? H]; discriminate H].
Qed.

Lemma date_value_throws v : (exists e, date_value v = inl e) <-> throws_to_primitive v = true.
Proof.
  destruct v as [| |b|m e|s|l|ps]; cbn [date_value throws_to_primitive];
    try (split; [intros [? ?]; discriminate|discriminate]).
  - rewrite sbind_throws by eauto. apply (join_element_throws (JArr l)).
  - destruct (own_to_string ps); split; eauto; intros H; first [discriminate H | destruct H as [? H]; discriminate H].
Qed.

(** C28: with a locale that writes something for every hour and minute,
    [formatTimestamp] returns its [catch] value, the empty string,
    exactly for an object with an own [toString] property or an array
    holding one: a string that is not a date never reaches the [catch]
    and is shown as ["Invalid Date"]. *)
Theorem format_timestamp_catch v :
  (forall h m, locale_hour_minute h m <> EmptyString) ->
  (formatTimestamp v = EmptyString <-> throws_to_primitive v = true).
Proof.
  intros Hloc. unfold formatTimestamp. rewrite <- date_value_throws.
  destruct (date_value v) as [e|[t|]]; simpl.
  - split; eauto.
  - split; [intros H; exfalso; exact (Hloc _ _ H)|intros [e He]; discriminate].
  - split; [discriminate|intros [e He]; discriminate].
Qed.

(** C27: a [message] frame without a (truthy) [timestamp], received at a
    time value [now], appends a message whose bubble shows [now] in the
    local time zone: the ISO text the hook writes at receipt is read back
    by [new Date] as [now] itself. *)
Theorem receipt_time_shown now text prev data ts u :
  Z.abs now <= 8640000000000000 ->
  json_parse text = inr data -> get data "type"%string = inr (JStr "message") ->
  get data "timestamp"%string = inr ts -> truthy ts = false ->
  exists m, messages (MessageStore.reduce_frame now text prev) = messages prev ++ [m] /\
    bubble_time (bubble u m) =
    locale_hour_minute (hour_from_time (local_time now)) (min_from_time (local_time now)).
Proof.
  intros Hn Hp Ht Hts Hf. exists (MessageStore.message_of now data). split.
  - unfold MessageStore.reduce_frame. rewrite (MessageStore.interpret_message_frame now text data Hp Ht).
    reflexivity.
  - unfold bubble_time, bubble, MessageStore.message_of. cbn [b_timestamp timestamp].
    rewrite Hts, falsy_js_or_r by exact Hf.
    unfold formatTimestamp. cbn [date_value]. rewrite iso_roundtrip by exact Hn. reflexivity.
Qed.

End Format.

(** ** Concrete runs, in UTC with a 24-hour clock *)

Module TimestampRuns.
Import UtcHost.
Local Open Scope string_scope.

Lemma utc_hour_minute_nonempty h m : locale_hour_minute h m <> EmptyString.
Proof.
  simpl. intros H. apply (f_equal String.length) in H.
  rewrite !string_length_app in H. simpl in H. lia.
Qed.

(** An object with an own [toString]: the one value kind the [catch]
    receives. *)
Definition ts_object : jsv := JObj [("toString", JNum 1 0)].

Lemma format_timestamp_catch_witness :
  formatTimestamp ts_object = EmptyString <-> throws_to_primitive ts_object = true.
Proof. apply format_timestamp_catch. exact utc_hour_minute_nonempty. Defined.

Example invalid_date_shown : formatTimestamp (JStr "yesterday") = "Invalid Date".
Proof. vm_compute. reflexivity. Qed.

Example documented_time_shown : formatTimestamp (JStr "2024-01-01T12:00:01Z") = "12:00".
Proof. vm_compute. reflexivity. Qed.

Definition frame_no_ts : string := q "{'type':'message','content':'hi','fromId':'u2','toId':'u1'}".
Definition data_no_ts : jsv :=
  JObj [("type", JStr "message"); ("content", JStr "hi"); ("fromId", JStr "u2"); ("toId", JStr "u1")].

Lemma receipt_time_shown_witness :
  exists m, messages (MessageStore.reduce_frame 1700000000000 frame_no_ts Connection.initial_state) =
            (messages Connection.initial_state ++ [m])%list /\
    bubble_time (bubble "u1" m) =
    locale_hour_minute (hour_from_time (local_time 1700000000000))
                       (min_from_time (local_time 1700000000000)).
Proof.
  apply (receipt_time_shown 1700000000000 frame_no_ts Connection.initial_state data_no_ts JUndefined "u1");
    [lia|vm_compute; reflexivity ..].
Defined.

End TimestampRuns.
