(* ===== verification/Docs.v ===== *)
(** The documentation the page shows about the wire protocol: the
    "WebSocket Implementation Notes" of ChatTester.tsx (lines 49-114),
    checked against what the code does.

    The section shows an outgoing frame (lines 80-86) and an incoming one
    (lines 91-99) as JSON text.  The incoming example is a frame the hook
    accepts as it is ([documented_incoming_accepted]).  The outgoing
    example has the keys of the frame [sendMessage] writes, in the same
    order, but its timestamp has no milliseconds, and [toISOString]
    always writes them: no run of the client writes that frame
    ([documented_outgoing_unreachable]). *)

From Stdlib Require Import String List Bool ZArith Lia Ascii.
From S2P Require Import Spec2Rocq JsValue JsRuntime DateTime Json Chat MessageStore Connection.
Import ListNotations.
Local Open Scope Z_scope.
Local Open Scope string_scope.

(** Lines joined by line feeds, as in a template literal. *)
Definition lines (ls : list string) : string :=
  String.concat (String (ascii_of_nat 10) EmptyString) ls.

(** The outgoing example (lines 80-86). *)
Definition doc_outgoing_example : string :=
  lines [q "{";
         q "  'type': 'message',";
         q "  'content': 'Hello world!',";
         q "  'toId': 'recipient-user-id',";
         q "  'fromId': 'sender-user-id',";
         q "  'timestamp': '2024-01-01T12:00:00Z'";
         q "}"].

(** The incoming example (lines 91-99). *)
Definition doc_incoming_example : string :=
  lines [q "{";
         q "  'type': 'message',";
         q "  'id': 'msg-123',";
         q "  'content': 'Hello back!',";
         q "  'fromId': 'sender-user-id',";
         q "  'toId': 'recipient-user-id',";
         q "  'timestamp': '2024-01-01T12:00:01Z',";
         q "  'delivered': true";
         q "}"].

(** The connection URL of line 62, with its two placeholders. *)
Definition doc_url_example : string :=
  "ws://localhost:8080/ws/chat?token=<jwt-token>&userId=<user-id>".

(** The message the documented incoming frame describes. *)
Definition doc_incoming_message : Message :=
  {| id := JStr "msg-123"; content := JStr "Hello back!"; fromId := JStr "sender-user-id";
     toId := JStr "recipient-user-id"; timestamp := JStr "2024-01-01T12:00:01Z";
     delivered := JBool true |}.

(** the documented incoming frame is accepted as it is: at any
    receipt time it appends one message carrying the documented id,
    content, sender, recipient, timestamp and delivery flag, none of them
    replaced by a default, and leaves the flags and the error alone. *)
Theorem documented_incoming_accepted now prev :
  MessageStore.reduce_frame now doc_incoming_example prev =
  {| isConnected := isConnected prev; isConnecting := isConnecting prev;
     messages := (messages prev ++ [doc_incoming_message])%list; error := error prev |}.
Proof.
  assert (Hp : exists data, json_parse doc_incoming_example = inr data /\
                 get data "type" = inr (JStr "message") /\
                 MessageStore.message_of now data = doc_incoming_message)
    by (eexists; split; [vm_compute; reflexivity|split; reflexivity]).
  destruct Hp as (data & Hp & Ht & Hm).
  unfold MessageStore.reduce_frame. rewrite (MessageStore.interpret_message_frame now _ data Hp Ht), <- Hm.
  reflexivity.
Qed.

(** the frame the client writes never is the documented outgoing
    example, whatever the content, recipient, sender and clock: it reads
    back with a timestamp of at least 24 characters (milliseconds
    included), where the example has the 20-character
    ["2024-01-01T12:00:00Z"]. *)
Theorem documented_outgoing_unreachable content toId fromId t :
  Z.abs t <= 8640000000000000 ->
  json_parse (chat_frame content toId fromId (to_iso_string t)) <> json_parse doc_outgoing_example.
Proof.
  intros Ht. unfold chat_frame.
  rewrite stringify_frame_parses by (repeat constructor; simpl; intuition discriminate).
  assert (Hd : json_parse doc_outgoing_example =
               inr (str_obj [("type", "message"); ("content", "Hello world!");
                             ("toId", "recipient-user-id"); ("fromId", "sender-user-id");
                             ("timestamp", "2024-01-01T12:00:00Z")])) by (vm_compute; reflexivity).
  rewrite Hd. intros E. injection E as _ _ _ E.
  pose proof (to_iso_string_long t Ht) as Hl. rewrite E in Hl. simpl in Hl. lia.
Qed.

Module DocRuns.
Import UtcHost.

(** The documented timestamp and the one the client writes at that
    instant denote the same time, in different texts. *)
Example documented_timestamp_instant :
  to_iso_string 1704110400000 = "2024-01-01T12:00:00.000Z" /\
  date_parse "2024-01-01T12:00:00Z" = date_parse (to_iso_string 1704110400000).
Proof. split; vm_compute; reflexivity. Qed.

Lemma documented_outgoing_unreachable_witness :
  json_parse (chat_frame "Hello world!" "recipient-user-id" "sender-user-id"
                         (to_iso_string 1704110400000)) <> json_parse doc_outgoing_example.
Proof. apply documented_outgoing_unreachable. lia. Defined.

End DocRuns.
