(* ===== verification/Props.v ===== *)
(** The components as their sources write them: each against its props
    interface, and the page [ChatTester] passing its props.

    [ConnectionPanelProps] (ConnectionPanel.tsx lines 11-17) and
    [ChatInterfaceProps] (ChatInterface.tsx lines 10-16) are records of
    values and callbacks; a callback is a statement on the hook's world.
    [ConnectionPanel]'s [handleConnect] (lines 33-38) and
    [ChatInterface]'s [handleSendMessage] (lines 29-34) and renders are
    written against any props.  [ChatTester] (lines 6-46) builds the
    props from the hook's state and actions.

    [App] and [View] model the page with the props already substituted;
    the lemmas of this file show that the two models agree, so the
    theorems proved on the page hold of the components wired as
    [ChatTester] wires them. *)

From Stdlib Require Import String List Bool ZArith.
From S2P Require Import Spec2Rocq JsValue JsRuntime Json Chat MessageStore Transport Connection App View.
Import ListNotations.

Section Props.
Context {T : Type} `{api : WebSocketApi T}.

(** [interface ConnectionPanelProps] (lines 11-17). *)
Record ConnectionPanelProps : Type := mkPanelProps {
  onConnect : ConnectionConfig -> JsM.M exn (World T) unit;
  onDisconnect : JsM.M exn (World T) unit;
  panel_isConnected : bool;
  panel_isConnecting : bool;
  panel_error : option string
}.

(** [interface ChatInterfaceProps] (lines 10-16). *)
Record ChatInterfaceProps : Type := mkChatProps {
  chat_messages : list Message;
  chat_currentUserId : string;
  chat_recipientId : string;
  chat_isConnected : bool;
  onSendMessage : string -> string -> JsM.M exn (World T) unit
}.

(** [ConnectionPanel]'s [handleConnect] (lines 33-38). *)
Definition panel_handleConnect (props : ConnectionPanelProps) (config : ConnectionConfig)
    : JsM.M exn (World T) unit :=
  if fields_filled config then onConnect props config else JsM.ret tt.

(** [ConnectionPanel]'s render from its props and [config] state
    (lines 19-25, 67-166). *)
Definition ConnectionPanel (props : ConnectionPanelProps) (config : ConnectionConfig) : PanelView :=
  panel_view config (panel_isConnected props) (panel_isConnecting props) (panel_error props).

(** [ChatInterface]'s [handleSendMessage] (lines 29-34): the result tells
    whether it went past its guard. *)
Definition chat_handleSendMessage (props : ChatInterfaceProps) (messageInput : string)
    : JsM.M exn (World T) bool :=
  if negb (filled (trim messageInput)) || negb (chat_isConnected props) then JsM.ret false
  else onSendMessage props (trim messageInput) (chat_recipientId props) ;; JsM.ret true.

(** [ChatInterface]'s render from its props and [messageInput] state
    (lines 18-25, 59-146). *)
Definition ChatInterface (props : ChatInterfaceProps) (messageInput : string) : ChatView :=
  chat_view (chat_messages props) (chat_currentUserId props) (chat_recipientId props)
    (chat_isConnected props) messageInput.

(** [ChatTester]'s callbacks (lines 9-15). *)
Definition tester_handleConnect (config : ConnectionConfig) : JsM.M exn (World T) unit :=
  connect config.
Definition tester_handleSendMessage (content toId : string) : JsM.M exn (World T) unit :=
  sendMessage content toId.

(** The props [ChatTester] passes (lines 30-36 and 39-45). *)
Definition tester_panel_props (st : ChatState) : ConnectionPanelProps :=
  {| onConnect := tester_handleConnect; onDisconnect := disconnect;
     panel_isConnected := isConnected st; panel_isConnecting := isConnecting st;
     panel_error := error st |}.

Definition tester_chat_props (st : ChatState) : ChatInterfaceProps :=
  {| chat_messages := messages st;
     chat_currentUserId := currentUserId st;
     chat_recipientId := recipient_literal;
     chat_isConnected := isConnected st;
     onSendMessage := tester_handleSendMessage |}.

(** [ChatTester]'s render (lines 29-46). *)
Definition ChatTester (p : Page T) : PageView :=
  let st := state (hook p) in
  {| v_panel := ConnectionPanel (tester_panel_props st) (form p);
     v_chat := if isConnected st
               then Some (ChatInterface (tester_chat_props st) (messageInput p)) else None |}.

(** The page's [handleConnect] is the panel's with [ChatTester]'s props. *)
Lemma handleConnect_wired (st : ChatState) config :
  handleConnect config = panel_handleConnect (tester_panel_props st) config.
Proof. reflexivity. Qed.

(** The page's [handleSendMessage] is the chat panel's with [ChatTester]'s
    props. *)
Lemma handleSendMessage_wired (st : ChatState) input :
  handleSendMessage input (isConnected st) = chat_handleSendMessage (tester_chat_props st) input.
Proof. reflexivity. Qed.

(** The page's view is [ChatTester]'s render. *)
Lemma page_view_wired (p : Page T) : page_view p = ChatTester p.
Proof. reflexivity. Qed.

End Props.
