(* ===== verification/Wire.v ===== *)
(** A chat message from the user's Send to the bubble of its echo.

    [sendMessage] (useWebSocket.ts lines 149-186) writes a frame; a chat
    server that relays the frame back to its sender delivers it to
    [ws.onmessage] (lines 59-95) as a [message] frame, whose message the
    chat panel draws ([bubble], ChatInterface.tsx lines 85-121) with the
    time [formatTimestamp] (lines 43-52) gives.  This file follows the
    frame through the three. *)

From Stdlib Require Import String List Bool ZArith Lia.
From S2P Require Import Spec2Rocq JsValue JsRuntime DateTime Json Chat MessageStore Transport Connection App View Timestamps.
Import ListNotations.

(** The message [ws.onmessage] builds from a frame [chat_frame] wrote,
    received at [now]: no [id], so one is synthesised; no [delivered],
    so [false]; the timestamp of the frame unless it is empty. *)
Lemma echo_frame_message now content toId uid ts :
  MessageStore.interpret_frame now (chat_frame content toId uid ts) =
  inr (MessageStore.Append
         {| id := JStr (int_to_string now); content := JStr content; fromId := JStr uid;
            toId := JStr toId; timestamp := js_or (JStr ts) (JStr (to_iso_string now));
            delivered := JBool false |}).
Proof.
  unfold MessageStore.interpret_frame. rewrite chat_frame_roundtrip. simpl.
  now rewrite !js_or_undefined.
Qed.

(** The message a frame appends is the last of the log. *)
Lemma reduce_append now text prev m :
  MessageStore.interpret_frame now text = inr (MessageStore.Append m) ->
  messages (MessageStore.reduce_frame now text prev) = messages prev ++ [m].
Proof. intros E. unfold MessageStore.reduce_frame. now rewrite E. Qed.

(** The timestamp the client writes is never the empty string, so the
    [||] default of [ws.onmessage] keeps it. *)
Lemma js_or_iso t d :
  (Z.abs t <= 8640000000000000)%Z -> js_or (JStr (to_iso_string t)) d = JStr (to_iso_string t).
Proof.
  intros Ht. apply truthy_js_or_l. pose proof (to_iso_string_long t Ht) as Hl.
  destruct (to_iso_string t); [simpl in Hl; lia|reflexivity].
Qed.

Section Echo.
Context {T : Type} `{laws : WebSocketLaws T} `{env : DateEnv}.

(** C22: a message the user sends, relayed back as it is by the server,
    is appended by [ws.onmessage] with the content, recipient and sender
    the frame carried, an id synthesised from the receipt time, [delivered]
    false and the timestamp of the send; its bubble shows the local time
    of the send, not of the receipt, in every time zone. *)
Theorem echo_shows_send_time content toId (w : World T) h cfg now prev u :
  websocketRef w = Some h -> ws_state (sockets w) h = Some OPEN -> configRef w = Some cfg ->
  (Z.abs (clock w) <= 8640000000000000)%Z ->
  exists t' frame m, sendMessage content toId w = (inr tt, upd_sockets t' w) /\
    ws_sent t' h = ws_sent (sockets w) h ++ [frame] /\
    messages (MessageStore.reduce_frame now frame prev) = messages prev ++ [m] /\
    m = {| id := JStr (int_to_string now); content := JStr content; fromId := JStr (userId cfg);
           toId := JStr toId; timestamp := JStr (to_iso_string (clock w));
           delivered := JBool false |} /\
    bubble_time (bubble u m) =
      locale_hour_minute (hour_from_time (local_time (clock w))) (min_from_time (local_time (clock w))).
Proof.
  intros Er Es Ec Hc. destruct (sendMessage_writes content toId w h cfg Er Es Ec) as (t' & -> & Hs).
  do 3 eexists. split; [reflexivity|]. split; [exact Hs|]. split.
  - apply reduce_append, echo_frame_message.
  - rewrite js_or_iso by exact Hc. split; [reflexivity|].
    unfold bubble_time, formatTimestamp. simpl. now rewrite iso_roundtrip by exact Hc.
Qed.

End Echo.

(** C29: the echo of a message the user sent carries the user id of the
    connection as [fromId], and the chat panel draws it as the user's
    own (on the right, labelled "You") exactly when that id is the
    literal ["your-user-id"] [ChatTester] passes as [currentUserId]
    (line 41): for every other user id the user's own messages are drawn
    as another person's, labelled with the id. *)
Theorem echo_drawn_as_own_iff_literal (st : ChatState) content toId uid ts now prev :
  isConnected st = true ->
  exists m, messages (MessageStore.reduce_frame now (chat_frame content toId uid ts) prev) =
              messages prev ++ [m] /\
    (b_own (bubble (currentUserId st) m) = true <-> uid = "your-user-id"%string) /\
    (uid <> "your-user-id"%string -> b_sender (bubble (currentUserId st) m) = JStr uid).
Proof.
  intros Hc. eexists. split; [apply reduce_append, echo_frame_message|].
  unfold bubble, isCurrentUser, currentUserId, current_user_literal. rewrite Hc. simpl.
  rewrite String.eqb_eq. split; [reflexivity|].
  intros Hu. apply String.eqb_neq in Hu. now rewrite Hu.
Qed.

(** ** The echo path on concrete values, in UTC *)

Module EchoRuns.
Import Browser UtcHost Runs RunWitnesses.
Local Open Scope string_scope.

Lemma echo_shows_send_time_witness :
  exists t' frame m, sendMessage "hi" "u2" w_open = (inr tt, upd_sockets t' w_open) /\
    ws_sent t' 0 = (ws_sent (sockets w_open) 0 ++ [frame])%list /\
    messages (MessageStore.reduce_frame 1700000000500 frame (state w_open)) =
      (messages (state w_open) ++ [m])%list /\
    m = {| id := JStr (int_to_string 1700000000500); content := JStr "hi";
           fromId := JStr (userId cfg1); toId := JStr "u2";
           timestamp := JStr (to_iso_string (clock w_open)); delivered := JBool false |} /\
    bubble_time (bubble "your-user-id" m) =
      locale_hour_minute (hour_from_time (local_time (clock w_open)))
                         (min_from_time (local_time (clock w_open))).
Proof.
  apply (echo_shows_send_time (env := utc)); vm_compute; [reflexivity ..|discriminate].
Defined.

Lemma echo_drawn_as_own_witness :
  exists m, messages (MessageStore.reduce_frame 1700000000500 (chat_frame "hi" "u2" "u1" "t")
                        (state w_open)) = (messages (state w_open) ++ [m])%list /\
    (b_own (bubble (currentUserId (state w_open)) m) = true <-> "u1" = "your-user-id") /\
    ("u1" <> "your-user-id" -> b_sender (bubble (currentUserId (state w_open)) m) = JStr "u1").
Proof. apply echo_drawn_as_own_iff_literal. vm_compute. reflexivity. Defined.

End EchoRuns.
